(** * albers: colour conversions, harmony analysis and replacement tools

    A shallow embedding of the colour-math core of the [albers] package
    ([conversions.py], [psychology.py], [harmony.py], [replacement.py])
    together with the properties stated about it.

    Conventions of the embedding.
    - A Python [str] is a [string]; only code points below 128 are covered.
    - A Python [int] is a [Z].
    - A Python [float] that only goes through [+ - * / %], comparisons and
      [round] (hues, saturations, lightnesses) is the rational number it
      denotes, a [Q]; arithmetic is exact, binary64 rounding is not modelled.
    - A Python [float] that goes through [**] or [math.sqrt] (CIELAB values,
      luminances, contrast ratios, colour distances) is the real number it
      denotes, an [R]; again arithmetic is exact.
    - A Python [dict] with string keys is an association list in insertion
      order; [None] is [option]'s [None].
    - Where rounding, underflow or overflow changes what [rotate_hue] or
      [delta_e_76] returns, the function is given a second time on IEEE
      754 binary64 numbers, in the module [Binary64]. *)

From Stdlib Require Import ZArith QArith Qround Qabs Reals Lra Lia Psatz.
From Stdlib Require Import List Sorted Permutation String Ascii Bool.
From Stdlib Require Import HexadecimalString DecimalString.
From Stdlib Require PrimFloat SpecFloat FloatOps.
Import ListNotations.

(** ** Python built-ins used by the package *)

Module Py.

Local Open Scope string_scope.
Local Open Scope Z_scope.

(** [s.lstrip("#")]: every leading ['#'] goes. *)
Fixpoint lstrip_hash (s : string) : string :=
  match s with
  | String c r => if Ascii.eqb c "#" then lstrip_hash r else s
  | EmptyString => s
  end.

(** [s[i:j]] for [0 <= i <= j]; out-of-range bounds are clipped. *)
Definition slice (s : string) (i j : nat) : string := substring i (j - i) s.

(** [Py_ISSPACE] on code points below 128: tab, LF, VT, FF, CR, space. *)
Definition is_space (c : ascii) : bool :=
  let n := nat_of_ascii c in
  ((9 <=? n)%nat && (n <=? 13)%nat) || (n =? 32)%nat.

(** Value of a hexadecimal digit, either case. *)
Definition hex_digit_value (c : ascii) : option Z :=
  let n := Z.of_nat (nat_of_ascii c) in
  if (48 <=? n) && (n <=? 57) then Some (n - 48)
  else if (97 <=? n) && (n <=? 102) then Some (n - 87)
  else if (65 <=? n) && (n <=? 70) then Some (n - 55)
  else None.

Definition is_hex_digit (c : ascii) : bool :=
  match hex_digit_value c with Some _ => true | None => false end.

Fixpoint lstrip_space (s : string) : string :=
  match s with
  | String c r => if is_space c then lstrip_space r else s
  | EmptyString => s
  end.

Fixpoint all_space (s : string) : bool :=
  match s with
  | String c r => is_space c && all_space r
  | EmptyString => true
  end.

(** The digit loop of [int(s, 16)]: digits, with single underscores
    between them; [prev_us] records that the previous character was an
    underscore.  Returns the value read and the unread rest. *)
Fixpoint scan_hex (s : string) (prev_us : bool) (acc : Z) : option (Z * string) :=
  match s with
  | EmptyString => if prev_us then None else Some (acc, s)
  | String c r =>
      match hex_digit_value c with
      | Some d => scan_hex r false (16 * acc + d)
      | None =>
          if Ascii.eqb c "_" then
            if prev_us then None else scan_hex r true acc
          else if prev_us then None else Some (acc, s)
      end
  end.

(** [int(s, 16)]; [None] stands for [ValueError].  Leading and trailing
    white space, one sign, an optional [0x] prefix (with one underscore
    after it) and underscores between digits are accepted, as Python does. *)
Definition int16 (s : string) : option Z :=
  let s1 := lstrip_space s in
  let '(neg, s2) :=
    match s1 with
    | String c r =>
        if Ascii.eqb c "+" then (false, r)
        else if Ascii.eqb c "-" then (true, r)
        else (false, s1)
    | EmptyString => (false, s1)
    end in
  let s3 :=
    match s2 with
    | String c0 (String x r) =>
        if Ascii.eqb c0 "0" && (Ascii.eqb x "x" || Ascii.eqb x "X") then
          match r with
          | String u r' => if Ascii.eqb u "_" then r' else r
          | EmptyString => r
          end
        else s2
    | _ => s2
    end in
  match s3 with
  | String c _ =>
      if is_hex_digit c then
        match scan_hex s3 false 0 with
        | Some (v, rest) =>
            if all_space rest then Some (if neg then - v else v) else None
        | None => None
        end
      else None
  | EmptyString => None
  end.

(** Lower-case hexadecimal digits of a natural number, ["0"] for zero. *)
Definition hex_digits (n : N) : string :=
  HexadecimalString.NilZero.string_of_uint (N.to_hex_uint n).

(** [format(z, "02x")]: sign, then the digits padded with zeros to two
    characters in all. *)
Definition format_02x (z : Z) : string :=
  let d := hex_digits (Z.to_N (Z.abs z)) in
  if z <? 0 then "-" ++ d
  else if (String.length d <? 2)%nat then "0" ++ d
  else d.

(** [c.lower()] on one character and [s.lower()]. *)
Definition lower_char (c : ascii) : ascii :=
  let n := nat_of_ascii c in
  if ((65 <=? n) && (n <=? 90))%nat then ascii_of_nat (n + 32) else c.

Fixpoint lower (s : string) : string :=
  match s with
  | String c r => String (lower_char c) (lower r)
  | EmptyString => EmptyString
  end.

(** [str(z)] for an integer. *)
Definition str_of_int (z : Z) : string :=
  DecimalString.NilZero.string_of_int (Z.to_int z).

End Py.

(** ** Exceptions

    A call either returns a value or raises; the only exception the
    modelled code can raise is [ZeroDivisionError]. *)

Inductive exn : Set := ZeroDivisionError.

Inductive result (A : Type) : Type :=
| Ok (a : A)
| Raise (e : exn).

Arguments Ok {A} a.
Arguments Raise {A} e.

Definition bind {A B : Type} (m : result A) (k : A -> result B) : result B :=
  match m with
  | Ok a => k a
  | Raise e => Raise e
  end.

Notation "x <- m ;; k" := (bind m (fun x => k))
  (at level 61, m at next level, right associativity).
Notation "' pat <- m ;; k" := (bind m (fun pat => k))
  (at level 61, pat pattern, m at next level, right associativity).

(** ** Float arithmetic on rationals *)

Module PyQ.

Local Open Scope Q_scope.

Definition Qltb (x y : Q) : bool := negb (Qle_bool y x).

(** [a / b]: raises on a zero divisor. *)
Definition div (a b : Q) : result Q :=
  if Qeq_bool b 0 then Raise ZeroDivisionError else Ok (a / b).

(** [x % m] for a positive [m]: the result lies in [[0, m)]. *)
Definition Qmod (x m : Q) : Q := x - m * inject_Z (Qfloor (x / m)).

(** [max(a, b)] and [min(a, b)]: the first argument wins ties. *)
Definition max2 (a b : Q) : Q := if Qltb a b then b else a.
Definition min2 (a b : Q) : Q := if Qltb b a then b else a.
Definition max3 (a b c : Q) : Q := max2 (max2 a b) c.
Definition min3 (a b c : Q) : Q := min2 (min2 a b) c.

(** [round(x)] with one argument: nearest integer, ties to even. *)
Definition round (x : Q) : Z :=
  let f := Qfloor x in
  let d := x - inject_Z f in
  if Qltb d (1 # 2) then f
  else if Qltb (1 # 2) d then (f + 1)%Z
  else if Z.even f then f else (f + 1)%Z.

(** [int(x)]: truncation towards zero. *)
Definition int (x : Q) : Z := Z.quot (Qnum x) (Zpos (Qden x)).

End PyQ.

(** ** colorsys (Python standard library) *)

Module Colorsys.

Import PyQ.
Local Open Scope Q_scope.

Definition ONE_THIRD : Q := 1 / 3.
Definition ONE_SIXTH : Q := 1 / 6.
Definition TWO_THIRD : Q := 2 / 3.

Definition rgb_to_hls (r g b : Q) : result (Q * Q * Q) :=
  let maxc := max3 r g b in
  let minc := min3 r g b in
  let sumc := maxc + minc in
  let rangec := maxc - minc in
  let l := sumc / 2 in
  if Qeq_bool minc maxc then Ok (0, l, 0)
  else
    s <- (if Qle_bool l (1 # 2) then div rangec sumc
          else div rangec (2 - sumc)) ;;
    rc <- div (maxc - r) rangec ;;
    gc <- div (maxc - g) rangec ;;
    bc <- div (maxc - b) rangec ;;
    let h :=
      if Qeq_bool r maxc then bc - gc
      else if Qeq_bool g maxc then 2 + rc - bc
      else 4 + gc - rc in
    Ok (Qmod (h / 6) 1, l, s).

Definition _v (m1 m2 hue : Q) : Q :=
  let hue := Qmod hue 1 in
  if Qltb hue ONE_SIXTH then m1 + (m2 - m1) * hue * 6
  else if Qltb hue (1 # 2) then m2
  else if Qltb hue TWO_THIRD then m1 + (m2 - m1) * (TWO_THIRD - hue) * 6
  else m1.

Definition hls_to_rgb (h l s : Q) : Q * Q * Q :=
  if Qeq_bool s 0 then (l, l, l)
  else
    let m2 := if Qle_bool l (1 # 2) then l * (1 + s) else l + s - l * s in
    let m1 := 2 * l - m2 in
    (_v m1 m2 (h + ONE_THIRD), _v m1 m2 h, _v m1 m2 (h - ONE_THIRD)).

End Colorsys.

(** ** conversions.py *)

Module Conversions.

Import PyQ.

Definition rgb : Type := (Z * Z * Z)%type.
Definition hsl : Type := (Q * Q * Q)%type.
Definition lab : Type := (R * R * R)%type.

Section Hex.
Local Open Scope string_scope.

Definition hex_to_rgb (hex_color : string) : option rgb :=
  if (String.length hex_color =? 0)%nat then None
  else
    let h := Py.lstrip_hash hex_color in
    let h := if (String.length h =? 8)%nat then Py.slice h 0 6 else h in
    if negb (String.length h =? 6)%nat then None
    else
      match Py.int16 (Py.slice h 0 2), Py.int16 (Py.slice h 2 4),
            Py.int16 (Py.slice h 4 6) with
      | Some r, Some g, Some b => Some (r, g, b)
      | _, _, _ => None
      end.

Definition rgb_to_hex (r g b : Z) : string :=
  "#" ++ Py.format_02x r ++ Py.format_02x g ++ Py.format_02x b.

End Hex.

Section Hsl.
Local Open Scope Q_scope.

Definition rgb_to_hsl (r g b : Z) : result hsl :=
  '(h, lightness, s) <-
    Colorsys.rgb_to_hls (inject_Z r / 255) (inject_Z g / 255) (inject_Z b / 255) ;;
  Ok (h * 360, s * 100, lightness * 100).

Definition hsl_to_rgb (h s l : Q) : rgb :=
  let h_norm := h / 360 in
  let s_norm := s / 100 in
  let l_norm := l / 100 in
  let '(r, g, b) := Colorsys.hls_to_rgb h_norm l_norm s_norm in
  (round (r * 255), round (g * 255), round (b * 255)).

Definition color_temperature (h s : Q) : string :=
  if Qltb s 5 then "neutral"%string
  else if (Qle_bool 0 h && Qltb h 60) || (Qle_bool 300 h && Qle_bool h 360)
  then "warm"%string
  else if Qle_bool 150 h && Qltb h 270 then "cool"%string
  else "transitional"%string.

Definition rotate_hue (h degrees : Q) : Q := Qmod (h + degrees) 360.

Definition generate_harmony_colors (h s l : Q) (harmony_type : string) : list hsl :=
  let wanted k := String.eqb harmony_type k || String.eqb harmony_type "all" in
  let harmonies := [] in
  let harmonies :=
    if wanted "complementary"%string
    then harmonies ++ [(rotate_hue h 180, s, l)] else harmonies in
  let harmonies :=
    if wanted "analogous"%string
    then (harmonies ++ [(rotate_hue h (-30), s, l)]) ++ [(rotate_hue h 30, s, l)]
    else harmonies in
  let harmonies :=
    if wanted "triadic"%string
    then (harmonies ++ [(rotate_hue h 120, s, l)]) ++ [(rotate_hue h 240, s, l)]
    else harmonies in
  let harmonies :=
    if wanted "split"%string
    then (harmonies ++ [(rotate_hue h 150, s, l)]) ++ [(rotate_hue h 210, s, l)]
    else harmonies in
  let harmonies :=
    if wanted "tetradic"%string
    then ((harmonies ++ [(rotate_hue h 90, s, l)]) ++ [(rotate_hue h 180, s, l)])
           ++ [(rotate_hue h 270, s, l)]
    else harmonies in
  harmonies.

End Hsl.

Section Lab.
Local Open Scope R_scope.

(** The inner [linearize] of [rgb_to_lab] and [lin] of
    [relative_luminance]: the same text in both. *)
Definition linearize (c : R) : R :=
  let c := c / 255 in
  if Rle_dec c 0.04045 then c / 12.92 else Rpower ((c + 0.055) / 1.055) 2.4.

(** The inner [f] of [rgb_to_lab]. *)
Definition lab_f (t : R) : R :=
  if Rlt_dec 0.008856 t then Rpower t (1 / 3) else 7.787 * t + 16 / 116.

Definition rgb_to_lab (r g b : Z) : lab :=
  let rl := linearize (IZR r) in
  let gl := linearize (IZR g) in
  let bl := linearize (IZR b) in
  let x := rl * 0.4124564 + gl * 0.3575761 + bl * 0.1804375 in
  let y := rl * 0.2126729 + gl * 0.7151522 + bl * 0.0721750 in
  let z := rl * 0.0193339 + gl * 0.1191920 + bl * 0.9503041 in
  let xn := 0.95047 in
  let yn := 1.0 in
  let zn := 1.08883 in
  let fx := lab_f (x / xn) in
  let fy := lab_f (y / yn) in
  let fz := lab_f (z / zn) in
  let lab_l := 116 * fy - 16 in
  let a := 500 * (fx - fy) in
  let b_val := 200 * (fy - fz) in
  (lab_l, a, b_val).

(** [sum(... for a, b in zip(lab1, lab2))] starts from [0]. *)
Definition delta_e_76 (lab1 lab2 : lab) : R :=
  let '(l1, a1, b1) := lab1 in
  let '(l2, a2, b2) := lab2 in
  sqrt (0 + (l1 - l2) ^ 2 + (a1 - a2) ^ 2 + (b1 - b2) ^ 2).

Definition relative_luminance (r g b : Z) : R :=
  0.2126 * linearize (IZR r) + 0.7151 * linearize (IZR g)
  + 0.0722 * linearize (IZR b).

(** [a / b] on reals: raises on a zero divisor. *)
Definition rdiv (a b : R) : result R :=
  if Req_dec_T b 0 then Raise ZeroDivisionError else Ok (a / b).

Definition contrast_ratio (rgb1 rgb2 : rgb) : result R :=
  let '(r1, g1, b1) := rgb1 in
  let '(r2, g2, b2) := rgb2 in
  let l1 := relative_luminance r1 g1 b1 in
  let l2 := relative_luminance r2 g2 b2 in
  let lighter := Rmax l1 l2 in
  let darker := Rmin l1 l2 in
  rdiv (lighter + 0.05) (darker + 0.05).

End Lab.

End Conversions.

(** ** conversions.py on binary64 numbers *)

(** [rotate_hue] and [delta_e_76] once more, on the binary64 numbers a
    Python [float] is: every operation is rounded to the nearest number,
    ties to even. *)
Module Binary64.

Import PrimFloat SpecFloat FloatOps.
Local Open Scope float_scope.

Definition lab : Type := (float * float * float)%type.

(** C [fmod]: [x - n * y] for the integer [n] that is [x / y] rounded
    towards zero. The result has the sign of [x] and is a binary64 number,
    so nothing is rounded. *)
Definition fmod (x y : float) : float :=
  match Prim2SF x, Prim2SF y with
  | S754_finite sx mx ex, S754_finite _ my ey =>
      let e := Z.min ex ey in
      let r := Z.rem (Z.pos mx * 2 ^ (ex - e)) (Z.pos my * 2 ^ (ey - e)) in
      SF2Prim (binary_normalize prec emax (if sx then - r else r) e sx)
  | S754_finite _ _ _, S754_infinity _ => x
  | S754_zero _, S754_finite _ _ _ => x
  | S754_zero _, S754_infinity _ => x
  | _, _ => nan
  end.

(** [x % y] on floats, for [y] other than zero: [fmod], moved by [y]
    when its sign is not that of [y]; that addition is rounded. *)
Definition py_mod (x y : float) : float :=
  let m := fmod x y in
  if m =? 0 then (if y <? 0 then -0 else 0)
  else if xorb (y <? 0) (m <? 0) then m + y else m.

Definition rotate_hue (h degrees : float) : float := py_mod (h + degrees) 360.

(** A float, or the [OverflowError] of [**]. *)
Inductive outcome : Set :=
| Returns (x : float)
| OverflowError.

Definition bind (m : outcome) (k : float -> outcome) : outcome :=
  match m with
  | Returns x => k x
  | OverflowError => OverflowError
  end.

(** [x ** 2]: C's [pow(x, 2.0)], taken here as the rounded product
    [x * x], from which a C library may differ in the last bit. A square
    beyond the largest number raises [OverflowError]; one below the
    smallest is [0.0]. *)
Definition square (x : float) : outcome :=
  let y := x * x in
  if is_infinity y && is_finite x then OverflowError else Returns y.

(** [sum] adds the three squares to [0], from the left. From Python 3.12
    on it also carries a correction term, which is zero as long as at
    most one of the squares is not zero. *)
Definition delta_e_76 (lab1 lab2 : lab) : outcome :=
  let '(l1, a1, b1) := lab1 in
  let '(l2, a2, b2) := lab2 in
  bind (square (l1 - l2)) (fun t1 =>
  bind (square (a1 - a2)) (fun t2 =>
  bind (square (b1 - b2)) (fun t3 =>
  Returns (sqrt (0 + t1 + t2 + t3))))).

End Binary64.

(** ** Python dictionaries with string keys *)

Definition pydict (V : Type) : Type := list (string * V).

(** [d[k] = v]: an existing key keeps its place, a new one goes last. *)
Fixpoint dict_set {V : Type} (d : pydict V) (k : string) (v : V) : pydict V :=
  match d with
  | [] => [(k, v)]
  | (k', v') :: r =>
      if String.eqb k' k then (k, v) :: r else (k', v') :: dict_set r k v
  end.

(** [d.get(k)]. *)
Fixpoint dict_get {V : Type} (d : pydict V) (k : string) : option V :=
  match d with
  | [] => None
  | (k', v) :: r => if String.eqb k' k then Some v else dict_get r k
  end.

(** [k in d]. *)
Definition dict_mem {V : Type} (d : pydict V) (k : string) : bool :=
  match dict_get d k with Some _ => true | None => false end.

Definition dict_keys {V : Type} (d : pydict V) : list string := map fst d.

(** ** psychology.py *)

Module Psychology.

Import PyQ Conversions.
Local Open Scope string_scope.
Local Open Scope Q_scope.

Definition EMOTIONAL_MAP : list ((Q * Q) * (string * string * string)) :=
  [ ((0, 30), ("energy, urgency, passion", "high", "mixed"));
    ((30, 60), ("warmth, comfort, optimism", "medium", "positive"));
    ((60, 90), ("clarity, attention, caution", "medium-high", "mixed"));
    ((90, 150), ("growth, balance, freshness", "low-medium", "positive"));
    ((150, 210), ("calm, trust, stability", "low", "positive"));
    ((210, 270), ("depth, introspection, focus", "low-medium", "neutral"));
    ((270, 330), ("creativity, luxury, mystery", "medium", "mixed"));
    ((330, 360), ("energy, urgency, passion", "high", "mixed")) ].

Definition LIGHTNESS_RESPONSE : list (string * (Q * Q * string)) :=
  [ ("very_dark", (0, 15, "immersion, focus, reduced eye strain in dim environments"));
    ("dark", (15, 30, "concentration, professionalism, modern aesthetic"));
    ("medium_dark", (30, 45, "balance, readability, moderate contrast"));
    ("medium", (45, 60, "neutrality, versatility, comfortable extended use"));
    ("medium_light", (60, 75, "openness, approachability, paper-like comfort"));
    ("light", (75, 90, "clarity, spaciousness, traditional document feel"));
    ("very_light", (90, 100, "airiness, minimalism, clean aesthetic")) ].

Definition SATURATION_RESPONSE : list (string * (Q * Q * string)) :=
  [ ("desaturated", (0, 15, "calm, professional, reduces visual fatigue over time"));
    ("muted", (15, 35,
       "sophisticated, natural, non-distracting — ideal for long coding sessions"));
    ("moderate", (35, 55, "balanced, engaging without overwhelming"));
    ("saturated", (55, 75, "vibrant, attention-grabbing — best reserved for accents"));
    ("vivid", (75, 100, "intense, energetic — may cause fatigue if overused")) ].

(** [lo <= x < hi]. *)
Definition in_band (lo hi x : Q) : bool := Qle_bool lo x && Qltb x hi.

(** The tests of the three loops. *)
Definition hue_matches (h : Q) (e : (Q * Q) * (string * string * string)) : bool :=
  let '((hmin, hmax), _) := e in in_band hmin hmax h.

Definition band_matches (x : Q) (e : string * (Q * Q * string)) : bool :=
  let '(_, (lo, hi, _)) := e in in_band lo hi x.

Definition classify_emotion (h s lightness : Q) : pydict string :=
  let result := [] in
  (* Hue-based *)
  let result :=
    if Qle_bool 5 s then
      match find (hue_matches h) EMOTIONAL_MAP with
      | Some (_, (emotion, arousal, valence)) =>
          let result := dict_set result "hue_emotion" emotion in
          let result := dict_set result "arousal" arousal in
          dict_set result "valence" valence
      | None => result
      end
    else result in
  (* Temperature *)
  let result := dict_set result "temperature" (color_temperature h s) in
  (* Lightness *)
  let result :=
    match find (band_matches lightness) LIGHTNESS_RESPONSE with
    | Some (name, (_, _, desc)) =>
        let result := dict_set result "lightness_class" name in
        dict_set result "lightness_response" desc
    | None => result
    end in
  (* Saturation *)
  let result :=
    match find (band_matches s) SATURATION_RESPONSE with
    | Some (name, (_, _, desc)) =>
        let result := dict_set result "saturation_class" name in
        dict_set result "saturation_response" desc
    | None => result
    end in
  result.

End Psychology.

(** ** harmony.py *)

Module Harmony.

Local Open Scope string_scope.
Local Open Scope Z_scope.

(** One entry of [relationships]: [(kind, h1, h2, diff)]. *)
Definition relationship : Type := (string * Z * Z * Z)%type.

Inductive harmony_value : Type :=
| HStr (s : string)
| HInt (z : Z)
| HHues (l : list Z)
| HRelationships (l : list relationship).

(** [sorted(set(xs))]: the distinct values, in increasing order. *)
Fixpoint insert_distinct (x : Z) (l : list Z) : list Z :=
  match l with
  | [] => [x]
  | y :: r =>
      if x <? y then x :: l
      else if x =? y then l
      else y :: insert_distinct x r
  end.

Definition sorted_set (xs : list Z) : list Z :=
  fold_right insert_distinct [] xs.

(** [round(h) for h in hues if h is not None]. *)
Fixpoint rounded (hues : list (option Q)) : list Z :=
  match hues with
  | [] => []
  | Some h :: r => PyQ.round h :: rounded r
  | None :: r => rounded r
  end.

(** The [diff] computed in the inner loop. *)
Definition hue_diff (h1 h2 : Z) : Z :=
  let diff := Z.abs (h1 - h2) in
  if 180 <? diff then 360 - diff else diff.

(** The [if]/[elif] chain of the inner loop: the name of the first band
    that holds [diff], if any. *)
Definition band (diff : Z) : option string :=
  if (165 <=? diff) && (diff <=? 195) then Some "complementary"
  else if (25 <=? diff) && (diff <=? 45) then Some "analogous"
  else if (115 <=? diff) && (diff <=? 135) then Some "triadic-ish"
  else if (55 <=? diff) && (diff <=? 75) then Some "split-complementary element"
  else if (85 <=? diff) && (diff <=? 95) then Some "square/tetradic element"
  else None.

(** Body of the inner loop for one pair: what it appends. *)
Definition pair_entry (h1 h2 : Z) : list relationship :=
  let diff := hue_diff h1 h2 in
  match band diff with
  | Some kind => [(kind, h1, h2, diff)]
  | None => []
  end.

(** [for i, h1 in enumerate(hues): for h2 in hues[i + 1:]: ...]. *)
Fixpoint pair_loop (hues : list Z) : list relationship :=
  match hues with
  | [] => []
  | h1 :: rest => flat_map (pair_entry h1) rest ++ pair_loop rest
  end.

(** [max(hues) - min(hues) if hues else 0]. *)
Definition hue_range (hues : list Z) : Z :=
  match hues with
  | [] => 0
  | h :: r => fold_left Z.max r h - fold_left Z.min r h
  end.

Definition analyze_harmony (hues : list (option Q)) : pydict harmony_value :=
  let hues := sorted_set (rounded hues) in
  if (List.length hues <? 2)%nat then [("type", HStr "monochromatic")]
  else
    let relationships := pair_loop hues in
    [ ("distinct_hues", HInt (Z.of_nat (List.length hues)));
      ("hue_values", HHues hues);
      ("hue_range", HInt (hue_range hues));
      ("relationships", HRelationships relationships) ].

End Harmony.

(** ** theme_loader.py: the theme document and colour extraction *)

Module ThemeLoader.

Import Conversions.
Local Open Scope string_scope.

(** A JSON value where a hex string is expected. *)
Inductive jval : Type :=
| JStr (s : string)
| JOther.

(** [hex_to_rgb] on a JSON value: anything but a string is rejected by the
    [isinstance] test. *)
Definition hex_to_rgb_val (v : jval) : option rgb :=
  match v with
  | JStr s => hex_to_rgb s
  | JOther => None
  end.

(** The ["scope"] of a token: one string or a list of strings. *)
Inductive scope_field : Type :=
| ScopeStr (s : string)
| ScopeList (l : list string).

(** One entry of ["tokenColors"]; [foreground] is
    [token.get("settings", {}).get("foreground")], [scope] is
    [token.get("scope", [])]. *)
Record token : Type := {
  foreground : option jval;
  scope : scope_field
}.

(** A parsed theme; an absent key is [None]. *)
Record theme : Type := {
  colors : option (pydict jval);
  tokenColors : option (list token);
  semanticTokenColors : option (pydict jval)
}.

(** [{"hex": ..., "rgb": ..., "hsl": ..., "lab": ...}]. *)
Record color_info : Type := {
  hex : string;
  info_rgb : rgb;
  info_hsl : hsl;
  info_lab : lab
}.

(** The record built for a string that parses, if it does. *)
Definition enrich (val : jval) : result (option color_info) :=
  match val with
  | JStr v =>
      match hex_to_rgb v with
      | Some (r, g, b) =>
          hsl <- rgb_to_hsl r g b ;;
          let lab := rgb_to_lab r g b in
          Ok (Some {| hex := v; info_rgb := (r, g, b); info_hsl := hsl; info_lab := lab |})
      | None => Ok None
      end
  | JOther => Ok None
  end.

(** [for x in xs: acc = step(acc, x)] where [step] may raise. *)
Fixpoint fold_result {A S : Type} (step : S -> A -> result S) (xs : list A) (acc : S)
  : result S :=
  match xs with
  | [] => Ok acc
  | x :: r => acc' <- step acc x ;; fold_result step r acc'
  end.

Definition extract_colors (th : theme) : result (pydict color_info) :=
  fold_result
    (fun acc kv =>
       let '(key, val) := kv in
       info <- enrich val ;;
       match info with
       | Some c => Ok (dict_set acc key c)
       | None => Ok acc
       end)
    (match colors th with Some d => d | None => [] end) [].

Definition extract_syntax_colors (th : theme) : result (pydict color_info) :=
  acc <- fold_result
    (fun acc tok =>
       let scopes :=
         match scope tok with
         | ScopeStr s => [s]
         | ScopeList l => l
         end in
       match foreground tok with
       | Some fg =>
           info <- enrich fg ;;
           match info with
           | Some c => Ok (fold_left (fun a sc => dict_set a sc c) scopes acc)
           | None => Ok acc
           end
       | None => Ok acc
       end)
    (match tokenColors th with Some l => l | None => [] end) [] ;;
  fold_result
    (fun acc kv =>
       let '(key, val) := kv in
       info <- enrich val ;;
       match info with
       | Some c => Ok (dict_set acc ("semantic:" ++ key) c)
       | None => Ok acc
       end)
    (match semanticTokenColors th with Some d => d | None => [] end) acc.

End ThemeLoader.

(** ** replacement.py *)

Module Replacement.

Import PyQ Conversions ThemeLoader.
Local Open Scope string_scope.

Record contrast_change : Type := {
  context : string;
  old_contrast : R;
  new_contrast : R;
  change : R
}.

Inductive impact_value : Type :=
| IStr (s : string)
| IKeys (l : list string)
| IContrast (l : list contrast_change)
| IRecommendations (l : list string)
| IFloat (x : R).

(** [[key for key, info in d.items()
      if info["hex"].lower()[:7] == old_color.lower()[:7]]]. *)
Definition affected (d : pydict color_info) (old_color : string) : list string :=
  map fst
    (filter (fun kv => String.eqb (Py.slice (Py.lower (hex (snd kv))) 0 7)
                                  (Py.slice (Py.lower old_color) 0 7)) d).

(** ["warm" if hue < 60 or hue > 300 else "cool"]. *)
Definition warm_or_cool (hue : Q) : string :=
  if Qltb hue 60 || Qltb 300 hue then "warm" else "cool".

Definition compute_replacement_impact (th : theme) (old_color new_color : string)
  : result (pydict impact_value) :=
  let old_rgb := hex_to_rgb old_color in
  let new_rgb := hex_to_rgb new_color in
  match old_rgb, new_rgb with
  | Some (r1, g1, b1), Some (r2, g2, b2) =>
      old_hsl <- rgb_to_hsl r1 g1 b1 ;;
      new_hsl <- rgb_to_hsl r2 g2 b2 ;;
      let old_lab := rgb_to_lab r1 g1 b1 in
      let new_lab := rgb_to_lab r2 g2 b2 in
      let delta_e := delta_e_76 old_lab new_lab in
      ui_colors <- extract_colors th ;;
      syntax_colors <- extract_syntax_colors th ;;
      let affected_ui := affected ui_colors old_color in
      let affected_syntax := affected syntax_colors old_color in
      let bg_hex :=
        match dict_get (match colors th with Some d => d | None => [] end)
                       "editor.background" with
        | Some v => v
        | None => JStr "#000000"
        end in
      let bg_rgb := hex_to_rgb_val bg_hex in
      contrast_changes <-
        match bg_rgb with
        | Some bg =>
            old_cr <- contrast_ratio (r1, g1, b1) bg ;;
            new_cr <- contrast_ratio (r2, g2, b2) bg ;;
            Ok [ {| context := "editor.background";
                    old_contrast := old_cr;
                    new_contrast := new_cr;
                    change := (new_cr - old_cr)%R |} ]
        | None => Ok []
        end ;;
      let recommendations :=
        if Rlt_dec delta_e 2.3
        then ["✓ Change is barely perceptible - safe replacement"]
        else if Rlt_dec delta_e 10
        then ["⚠ Moderate change - review affected elements"]
        else ["⚠⚠ Significant change - thorough review recommended"] in
      recommendations <-
        match bg_rgb with
        | Some bg =>
            old_cr <- contrast_ratio (r1, g1, b1) bg ;;
            new_cr <- contrast_ratio (r2, g2, b2) bg ;;
            let recommendations :=
              if Rlt_dec old_cr 4.5 then
                if Rge_dec new_cr 4.5
                then (recommendations ++ ["✓ Improves WCAG AA compliance for text"])%list
                else recommendations
              else
                if Rlt_dec new_cr 4.5
                then (recommendations ++ ["⚠ Reduces contrast below WCAG AA standard"])%list
                else recommendations in
            Ok (if Rlt_dec new_cr 3.0
                then (recommendations ++ ["⚠ New color may have visibility issues"])%list
                else recommendations)
        | None => Ok recommendations
        end ;;
      let old_temp := warm_or_cool (fst (fst old_hsl)) in
      let new_temp := warm_or_cool (fst (fst new_hsl)) in
      let recommendations :=
        if negb (String.eqb old_temp new_temp)
        then (recommendations
                ++ [("⚠ Temperature shift: " ++ old_temp ++ " → " ++ new_temp)%string])%list
        else recommendations in
      Ok [ ("affected_ui", IKeys affected_ui);
           ("affected_syntax", IKeys affected_syntax);
           ("contrast_changes", IContrast contrast_changes);
           ("recommendations", IRecommendations recommendations);
           ("delta_e", IFloat delta_e) ]
  | _, _ => Ok [("error", IStr "Invalid color")]
  end.

(** One entry of ["suggestions"]. *)
Record suggestion : Type := {
  sug_hex : string;
  sug_hsl : hsl;
  sug_delta_e : R;
  rotation : Q
}.

(** One entry of ["variations"]. *)
Record variation : Type := {
  name : string;
  var_hex : string
}.

Inductive suggestions_value : Type :=
| SStr (s : string)
| SBase (base_hex : string) (base_hsl : hsl)
| SSuggestions (l : list suggestion)
| SVariations (l : list variation).

(** Body of the loop over [harmonies]. *)
Definition suggest (base_hue : Q) (base_lab : lab) (c : hsl) : suggestion :=
  let '(h, s, l_val) := c in
  let '(r, g, b) := hsl_to_rgb h s l_val in
  let hex_color := rgb_to_hex r g b in
  let lab := rgb_to_lab r g b in
  let de := delta_e_76 base_lab lab in
  let rotation := (h - base_hue)%Q in
  let rotation :=
    if Qltb 180 rotation then (rotation - 360)%Q
    else if Qltb rotation (-180) then (rotation + 360)%Q
    else rotation in
  {| sug_hex := hex_color; sug_hsl := (h, s, l_val); sug_delta_e := de;
     rotation := rotation |}.

(** Body of the loop over the lightness offsets. *)
Definition vary (base_hsl : hsl) (l_mod : Q) : variation :=
  let '(bh, bs, bl) := base_hsl in
  let l_new := max2 0 (min2 100 (bl + l_mod)%Q) in
  let '(r, g, b) := hsl_to_rgb bh bs l_new in
  let hex_var := rgb_to_hex r g b in
  {| name := "L" ++ Py.str_of_int (int l_new); var_hex := hex_var |}.

Definition compute_harmony_suggestions (base_color harmony_type : string)
  : result (pydict suggestions_value) :=
  match hex_to_rgb base_color with
  | None => Ok [("error", SStr "Invalid base color")]
  | Some (r, g, b) =>
      base_hsl <- rgb_to_hsl r g b ;;
      let base_lab := rgb_to_lab r g b in
      let '(bh, bs, bl) := base_hsl in
      let harmonies := generate_harmony_colors bh bs bl harmony_type in
      let suggestions := map (suggest bh base_lab) harmonies in
      let variations := map (vary base_hsl) [-20; -10; 0; 10; 20]%Q in
      Ok [ ("base", SBase base_color base_hsl);
           ("suggestions", SSuggestions suggestions);
           ("variations", SVariations variations) ]
  end.

End Replacement.

Import Conversions Psychology Harmony ThemeLoader Replacement.

(** ** Vocabulary of the properties *)

Module Props.

Local Open Scope string_scope.

(** The twenty-two hexadecimal digits. *)
Definition hex_chars : list ascii :=
  list_ascii_of_string "0123456789abcdefABCDEF".

Fixpoint all_hex (s : string) : bool :=
  match s with
  | String c r => Py.is_hex_digit c && all_hex r
  | EmptyString => true
  end.

(** Exactly six hexadecimal digits. *)
Definition hex6 (s : string) : bool :=
  (String.length s =? 6)%nat && all_hex s.

(** Check of one channel: two digits read back as a byte that prints as
    the same digits in lower case. *)
Definition pair_ok (c1 c2 : ascii) : bool :=
  match Py.int16 (String c1 (String c2 "")) with
  | Some v =>
      (0 <=? v)%Z && (v <? 256)%Z
      && String.eqb (Py.format_02x v)
           (String (Py.lower_char c1) (String (Py.lower_char c2) ""))
  | None => false
  end.

(** A channel value in the range of a byte. *)
Definition channel (v : Z) : Prop := (0 <= v <= 255)%Z.

(** An RGB triple with every channel in [[0, 255]]. *)
Definition rgb_valid (c : rgb) : Prop :=
  let '(r, g, b) := c in channel r /\ channel g /\ channel b.


(** The closed set of harmony kinds. *)
Definition harmony_kinds : list string :=
  ["complementary"; "analogous"; "triadic"; "split"; "tetradic"; "all"].

(** A hex colour as the data model has it: six hexadecimal digits behind
    an optional hash. *)
Definition hex_color (s : string) : bool :=
  match s with
  | String c r => if Ascii.eqb c "#" then hex6 r else hex6 s
  | EmptyString => false
  end.

(** The ["suggestions"], ["variations"] and ["base"] entries of a result. *)
Definition suggestions_of (d : pydict suggestions_value) : option (list suggestion) :=
  match dict_get d "suggestions" with
  | Some (SSuggestions l) => Some l
  | _ => None
  end.

Definition variations_of (d : pydict suggestions_value) : option (list variation) :=
  match dict_get d "variations" with
  | Some (SVariations l) => Some l
  | _ => None
  end.


(** The minimal circular difference of two whole degrees: the shorter
    way round the wheel. *)
Definition circular_distance (a b : Z) : Z :=
  Z.min ((a - b) mod 360) ((b - a) mod 360).

(** The harmony bands as a table, in the order they are tried. *)
Definition harmony_bands : list (Z * Z * string) :=
  [ (165, 195, "complementary");
    (25, 45, "analogous");
    (115, 135, "triadic-ish");
    (55, 75, "split-complementary element");
    (85, 95, "square/tetradic element") ]%Z.

(** First band of the table that holds [d]. *)
Definition first_band (d : Z) : option string :=
  option_map snd
    (find (fun e => (fst (fst e) <=? d)%Z && (d <=? snd (fst e))%Z) harmony_bands).

(** The hue of a suggestion: first component of its ["hsl"]. *)
Definition sug_hue (s : suggestion) : Q := fst (fst (sug_hsl s)).

End Props.

Import Props.

(** ** conversions.py: accessibility helpers *)

Module Accessibility.

Import PyQ Conversions.
Local Open Scope string_scope.

Definition get_contrast_category (ratio : R) : string :=
  if Rge_dec ratio 7.0 then "AAA"
  else if Rge_dec ratio 4.5 then "AA"
  else if Rge_dec ratio 3.0 then "AA Large"
  else "Fail".

Definition is_color_dark (hex_color : string) : bool :=
  match hex_to_rgb hex_color with
  | None => false
  | Some (r, g, b) =>
      let luminance := relative_luminance r g b in
      if Rlt_dec luminance 0.5 then true else false
  end.

Definition get_text_color_for_background (bg_hex : string) : string :=
  if is_color_dark bg_hex then "#ffffff" else "#000000".

(** [swatch_text_color]; [None] stands for the [ValueError] that [int]
    raises and the function does not catch. *)
Definition swatch_text_color (hex_color : string) : option string :=
  let h := Py.slice (Py.lstrip_hash hex_color) 0 6 in
  match Py.int16 (Py.slice h 0 2), Py.int16 (Py.slice h 2 4),
        Py.int16 (Py.slice h 4 6) with
  | Some r, Some g, Some b =>
      let luminance :=
        ((0.2126 * inject_Z r + 0.7151 * inject_Z g + 0.0722 * inject_Z b) / 255)%Q in
      Some (if Qltb 0.5 luminance then "#000000" else "#ffffff")
  | _, _, _ => None
  end.

End Accessibility.

(** ** color_analysis/conversions.py: the second [hex_to_rgb] *)

Module ColorAnalysis.

Import Conversions.
Local Open Scope string_scope.

Definition hex_to_rgb (hex_color : string) : option rgb :=
  let h := Py.lstrip_hash hex_color in
  let h := if (String.length h =? 8)%nat then Py.slice h 0 6 else h in
  if (String.length h =? 6)%nat
     && (negb (String.eqb h "000000") || String.eqb h "000000")
  then
    match Py.int16 (Py.slice h 0 2), Py.int16 (Py.slice h 2 4),
          Py.int16 (Py.slice h 4 6) with
    | Some r, Some g, Some b => Some (r, g, b)
    | _, _, _ => None
    end
  else None.

End ColorAnalysis.

(** ** replacement.py: similar colours *)

Module Similar.

Import Conversions ThemeLoader.
Local Open Scope string_scope.

(** One entry of the result of [compute_similar_colors]. *)
Record similar_entry : Type := {
  location : string;
  sim_key : string;
  sim_hex : string;
  sim_delta_e : R
}.

(** One of the two loops over the colours of the theme; the records are
    well formed, so nothing is raised inside the [try]. *)
Definition scan (loc : string) (target_lab : lab) (max_delta_e : R)
    (d : pydict color_info) : list similar_entry :=
  flat_map
    (fun kv =>
       let de := delta_e_76 target_lab (info_lab (snd kv)) in
       if Rle_dec de max_delta_e
       then [ {| location := loc; sim_key := fst kv; sim_hex := hex (snd kv);
                 sim_delta_e := de |} ]
       else [])
    d.

(** [list.sort(key=lambda x: x["delta_e"])]: a stable sort; an element
    goes behind those whose key is not larger. *)
Fixpoint insert_by_delta_e (x : similar_entry) (l : list similar_entry)
  : list similar_entry :=
  match l with
  | [] => [x]
  | y :: r =>
      if Rlt_dec (sim_delta_e x) (sim_delta_e y) then x :: l
      else y :: insert_by_delta_e x r
  end.

Definition sort_by_delta_e (l : list similar_entry) : list similar_entry :=
  fold_left (fun acc x => insert_by_delta_e x acc) l [].

Definition compute_similar_colors (th : theme) (target_color : string)
    (max_delta_e : R) : result (list similar_entry) :=
  match hex_to_rgb target_color with
  | None => Ok []
  | Some (r, g, b) =>
      let target_lab := rgb_to_lab r g b in
      ui_colors <- extract_colors th ;;
      syntax_colors <- extract_syntax_colors th ;;
      let similar := scan "ui" target_lab max_delta_e ui_colors in
      let similar :=
        (similar ++ scan "syntax" target_lab max_delta_e syntax_colors)%list in
      Ok (sort_by_delta_e similar)
  end.

End Similar.

Import Accessibility Similar.

(** ** A small theme *)

(** One UI colour, one token with two scopes and one semantic token
    colour: the theme the examples below run on. *)
Definition sample_theme : theme :=
  {| colors := Some [("editor.background", JStr "#1e1e1e")];
     tokenColors := Some [ {| foreground := Some (JStr "#569cd6");
                              scope := ScopeList ["keyword"; "storage"] |} ];
     semanticTokenColors := Some [("variable", JStr "#9cdcfe")] |}%string.

(** ** Hex parsing and printing *)

Section HexFacts.

Local Open Scope string_scope.

Lemma is_hex_digit_cases (c : ascii) :
  Py.is_hex_digit c = true -> In c hex_chars.
Proof.
  destruct c as [[] [] [] [] [] [] [] []]; intros H;
    vm_compute in H; try discriminate H; vm_compute; tauto.
Qed.

Lemma pair_ok_table :
  forallb (fun c1 => forallb (pair_ok c1) hex_chars) hex_chars = true.
Proof. vm_compute. reflexivity. Qed.

Lemma pair_ok_hex (c1 c2 : ascii) :
  Py.is_hex_digit c1 = true -> Py.is_hex_digit c2 = true -> pair_ok c1 c2 = true.
Proof.
  intros H1 H2.
  apply is_hex_digit_cases in H1. apply is_hex_digit_cases in H2.
  pose proof pair_ok_table as T.
  rewrite forallb_forall in T. specialize (T c1 H1).
  rewrite forallb_forall in T. exact (T c2 H2).
Qed.

(** Two hexadecimal digits are read as a byte, and the byte prints as
    the two digits in lower case. *)
Lemma int16_pair (c1 c2 : ascii) :
  Py.is_hex_digit c1 = true -> Py.is_hex_digit c2 = true ->
  exists v, Py.int16 (String c1 (String c2 "")) = Some v
            /\ channel v
            /\ Py.format_02x v
               = String (Py.lower_char c1) (String (Py.lower_char c2) "").
Proof.
  intros H1 H2. pose proof (pair_ok_hex c1 c2 H1 H2) as P.
  unfold pair_ok in P.
  destruct (Py.int16 (String c1 (String c2 ""))) as [v|]; [|discriminate].
  exists v. split; [reflexivity|].
  apply andb_prop in P. destruct P as [P Pf].
  apply andb_prop in P. destruct P as [Pl Pu].
  apply Z.leb_le in Pl. apply Z.ltb_lt in Pu. apply String.eqb_eq in Pf.
  unfold channel. split; [lia | exact Pf].
Qed.

Lemma hex_digit_not_hash (c : ascii) :
  Py.is_hex_digit c = true -> Ascii.eqb c "#" = false.
Proof.
  intros H. apply is_hex_digit_cases in H.
  vm_compute in H. intuition (subst; reflexivity).
Qed.

Lemma hex6_inv (d : string) :
  hex6 d = true ->
  exists c1 c2 c3 c4 c5 c6,
    d = String c1 (String c2 (String c3 (String c4 (String c5 (String c6 "")))))
    /\ Py.is_hex_digit c1 = true /\ Py.is_hex_digit c2 = true
    /\ Py.is_hex_digit c3 = true /\ Py.is_hex_digit c4 = true
    /\ Py.is_hex_digit c5 = true /\ Py.is_hex_digit c6 = true.
Proof.
  unfold hex6. intros H. apply andb_prop in H. destruct H as [L A].
  apply Nat.eqb_eq in L.
  destruct d as [|c1 [|c2 [|c3 [|c4 [|c5 [|c6 [|c7 d]]]]]]]; try discriminate L.
  cbn [all_hex] in A.
  repeat (apply andb_prop in A; let X := fresh "X" in destruct A as [X A]).
  exists c1, c2, c3, c4, c5, c6. repeat split; assumption.
Qed.

(** What [hex_to_rgb] does once the leading hashes are gone and six
    characters remain. *)
Lemma hex_to_rgb_six (c1 c2 c3 c4 c5 c6 : ascii) :
  Ascii.eqb c1 "#" = false ->
  let d := String c1 (String c2 (String c3 (String c4 (String c5 (String c6 ""))))) in
  hex_to_rgb d
  = match Py.int16 (String c1 (String c2 "")), Py.int16 (String c3 (String c4 "")),
          Py.int16 (String c5 (String c6 "")) with
    | Some r, Some g, Some b => Some (r, g, b)
    | _, _, _ => None
    end
  /\ hex_to_rgb (String "#" d) = hex_to_rgb d.
Proof.
  intros H d. subst d. unfold hex_to_rgb.
  cbn [String.length Nat.eqb Py.lstrip_hash]. rewrite H.
  cbn [Ascii.eqb Bool.eqb String.length Nat.eqb negb Py.slice Nat.sub substring].
  split; reflexivity.
Qed.

(** Six hexadecimal digits, with or without the hash, are parsed to three
    bytes, which print back as the digits in lower case after a hash. *)
Lemma hex_to_rgb_hex6 (d : string) :
  hex6 d = true ->
  exists r g b,
    hex_to_rgb d = Some (r, g, b)
    /\ hex_to_rgb (String "#" d) = Some (r, g, b)
    /\ channel r /\ channel g /\ channel b
    /\ rgb_to_hex r g b = String "#" (Py.lower d).
Proof.
  intros H. destruct (hex6_inv d H) as (c1 & c2 & c3 & c4 & c5 & c6 & -> & H1 & H2 & H3 & H4 & H5 & H6).
  destruct (hex_to_rgb_six c1 c2 c3 c4 c5 c6 (hex_digit_not_hash c1 H1)) as [E E'].
  destruct (int16_pair c1 c2 H1 H2) as (r & Er & Cr & Fr).
  destruct (int16_pair c3 c4 H3 H4) as (g & Eg & Cg & Fg).
  destruct (int16_pair c5 c6 H5 H6) as (b & Eb & Cb & Fb).
  exists r, g, b.
  rewrite E', E, Er, Eg, Eb.
  repeat split; try apply Cr; try apply Cg; try apply Cb.
  unfold rgb_to_hex. rewrite Fr, Fg, Fb. reflexivity.
Qed.

(** Whatever the characters, a string that is not six or eight long
    once the leading hashes are gone is rejected. *)
Lemma hex_to_rgb_wrong_length (s : string) :
  String.length (Py.lstrip_hash s) <> 6%nat ->
  String.length (Py.lstrip_hash s) <> 8%nat ->
  hex_to_rgb s = None.
Proof.
  intros H6 H8. unfold hex_to_rgb.
  destruct (String.length s =? 0)%nat; [reflexivity|].
  apply Nat.eqb_neq in H6. apply Nat.eqb_neq in H8.
  rewrite H8, H6. reflexivity.
Qed.

(** C3: the parser lets through strings that are not hexadecimal: a sign
    or a blank in front of a digit is read by [int] as part of a number, so
    ["+f+f+f"] and ["-1-1-1"] yield channels instead of [None]. *)
Theorem hex_to_rgb_accepts_signs :
  all_hex "+f+f+f" = false
  /\ hex_to_rgb "+f+f+f" = Some (15, 15, 15)%Z
  /\ hex_to_rgb "-1-1-1" = Some (-1, -1, -1)%Z
  /\ hex_to_rgb " f f f" = Some (15, 15, 15)%Z.
Proof. vm_compute. repeat split; reflexivity. Qed.

(** C4: for six hexadecimal digits behind a hash, printing the parsed
    channels gives the input in lower case: a hash and two lower-case
    digits per channel. *)
Theorem rgb_to_hex_hex_to_rgb (d : string) :
  hex6 d = true ->
  exists r g b,
    hex_to_rgb ("#" ++ d) = Some (r, g, b)
    /\ rgb_to_hex r g b = Py.lower ("#" ++ d)
    /\ String.length (rgb_to_hex r g b) = 7%nat.
Proof.
  intros H. destruct (hex_to_rgb_hex6 d H) as (r & g & b & _ & E & _ & _ & _ & F).
  exists r, g, b. split; [exact E|]. split; [exact F|].
  rewrite F. destruct (hex6_inv d H) as (c1 & c2 & c3 & c4 & c5 & c6 & -> & _).
  reflexivity.
Qed.

Lemma rgb_to_hex_hex_to_rgb_witness :
  hex6 "4D93fF" = true
  /\ exists r g b,
       hex_to_rgb ("#" ++ "4D93fF") = Some (r, g, b)
       /\ rgb_to_hex r g b = Py.lower ("#" ++ "4D93fF")
       /\ String.length (rgb_to_hex r g b) = 7%nat.
Proof.
  split; [reflexivity | apply (rgb_to_hex_hex_to_rgb "4D93fF"); reflexivity].
Defined.

End HexFacts.

(** ** Arithmetic on hues *)

Section HueArithmetic.

Import PyQ.
Local Open Scope Q_scope.

Lemma Qltb_lt (x y : Q) : Qltb x y = true <-> x < y.
Proof.
  unfold Qltb. rewrite negb_true_iff, <- not_true_iff_false, Qle_bool_iff.
  split; [apply Qnot_le_lt | apply Qlt_not_le].
Qed.

Lemma Qltb_ge (x y : Q) : Qltb x y = false <-> y <= x.
Proof.
  unfold Qltb. rewrite negb_false_iff, Qle_bool_iff. reflexivity.
Qed.

Lemma Qle_bool_gt (x y : Q) : Qle_bool x y = false <-> y < x.
Proof.
  rewrite <- not_true_iff_false, Qle_bool_iff.
  split; [apply Qnot_le_lt | apply Qlt_not_le].
Qed.

Lemma Qeq_bool_false (x y : Q) : Qeq_bool x y = false <-> ~ x == y.
Proof. rewrite <- not_true_iff_false, Qeq_bool_iff. reflexivity. Qed.

(** [x % m] is [x] shifted by a whole number of [m] into [[0, m)]. *)
Lemma Qmod_spec (x m : Q) :
  0 < m ->
  0 <= Qmod x m /\ Qmod x m < m
  /\ Qmod x m == x - m * inject_Z (Qfloor (x / m)).
Proof.
  intros Hm. unfold Qmod.
  set (k := Qfloor (x / m)).
  assert (Hx : x == (x / m) * m) by (field; lra).
  pose proof (Qfloor_le (x / m)) as Hlo.
  pose proof (Qlt_floor (x / m)) as Hhi.
  fold k in Hlo, Hhi. rewrite inject_Z_plus in Hhi.
  change (inject_Z 1) with 1 in Hhi.
  set (q := x / m) in *.
  split; [nra | split; [nra | reflexivity]].
Qed.

(** The wrap of [rotate_hue] in exact arithmetic: a hue in [[0, 360)]
    congruent to [h + degrees]. *)
Lemma rotate_hue_spec (h degrees : Q) :
  0 <= rotate_hue h degrees /\ rotate_hue h degrees < 360
  /\ exists k : Z, rotate_hue h degrees == h + degrees - 360 * inject_Z k.
Proof.
  unfold rotate_hue.
  destruct (Qmod_spec (h + degrees) 360) as (H0 & H1 & H2); [lra|].
  split; [exact H0 | split; [exact H1 |]].
  exists (Qfloor ((h + degrees) / 360)). exact H2.
Qed.

End HueArithmetic.

(** Boolean comparisons in the context become inequalities. *)
Ltac reflect_cmp :=
  repeat match goal with
  | H : PyQ.Qltb _ _ = true |- _ => apply Qltb_lt in H
  | H : PyQ.Qltb _ _ = false |- _ => apply Qltb_ge in H
  | H : Qle_bool _ _ = true |- _ => apply Qle_bool_iff in H
  | H : Qle_bool _ _ = false |- _ => apply Qle_bool_gt in H
  | H : Qeq_bool _ _ = true |- _ => apply Qeq_bool_iff in H
  | H : Qeq_bool _ _ = false |- _ => apply Qeq_bool_false in H
  end.

(** ** Harmony generation *)

Section HarmonyGeneration.

Local Open Scope string_scope.
Local Open Scope Q_scope.



Lemma eqb_not_in (kind : string) (k : string) (ks : list string) :
  ~ In kind ks -> In k ks -> String.eqb kind k = false.
Proof.
  intros Hn Hk. apply String.eqb_neq. intros ->. exact (Hn Hk).
Qed.

(** A kind outside the closed set selects no branch. *)
Lemma generate_harmony_colors_unknown (h s l : Q) (kind : string) :
  ~ In kind harmony_kinds -> generate_harmony_colors h s l kind = [].
Proof.
  intros Hn. unfold generate_harmony_colors.
  rewrite !(eqb_not_in kind _ harmony_kinds Hn) by (simpl; tauto).
  reflexivity.
Qed.

End HarmonyGeneration.

Section HarmonyGenerationBinary64.

Import PrimFloat.
Local Open Scope float_scope.

(** On binary64 numbers the wrap reaches 360: the hue just below 30
    turned by -30 is [-2^-47], a remainder of the wrong sign, and adding
    360 to it rounds to 360.0. Away from such an edge the wrap is the one
    of exact arithmetic. *)
Lemma rotate_hue_rounds_to_360 :
  Binary64.rotate_hue 0x1.dfffffffffffep+4 (-30) = 360
  /\ (0x1.dfffffffffffep+4 <? 30) = true
  /\ Binary64.rotate_hue 350 30 = 20
  /\ Binary64.rotate_hue 10 (-30) = 340
  /\ Binary64.rotate_hue 180 180 = 0.
Proof. vm_compute. repeat split. Qed.

End HarmonyGenerationBinary64.

(** ** HSL conversion *)

Section HslFacts.

Import PyQ.
Local Open Scope Q_scope.

Lemma div_ok (a b : Q) : ~ b == 0 -> div a b = Ok (a / b).
Proof.
  intros H. unfold div. apply Qeq_bool_false in H. rewrite H. reflexivity.
Qed.

(** [max] and [min] of three numbers bound them and are among them. *)
Lemma max3_min3_bounds (r g b lo hi : Q) :
  lo <= r <= hi -> lo <= g <= hi -> lo <= b <= hi ->
  lo <= min3 r g b /\ min3 r g b <= max3 r g b /\ max3 r g b <= hi.
Proof.
  intros Hr Hg Hb. unfold min3, max3, min2, max2.
  destruct (Qltb g r) eqn:E1; destruct (Qltb r g) eqn:E2;
    match goal with
    | |- context [Qltb b ?m] => destruct (Qltb b m) eqn:E3
    end;
    match goal with
    | |- context [Qltb ?m b] => destruct (Qltb m b) eqn:E4
    end; reflect_cmp; lra.
Qed.

(** The hue [colorsys] returns lies in [[0, 1)], whenever it returns. *)
Lemma rgb_to_hls_hue (r g b h l s : Q) :
  Colorsys.rgb_to_hls r g b = Ok (h, l, s) -> 0 <= h /\ h < 1.
Proof.
  unfold Colorsys.rgb_to_hls.
  destruct (Qeq_bool (min3 r g b) (max3 r g b)).
  - intros E. injection E as <- _ _. lra.
  - unfold bind.
    destruct (if Qle_bool _ _ then _ else _) as [s'|]; [|discriminate].
    destruct (div (max3 r g b - r) _) as [rc|]; [|discriminate].
    destruct (div (max3 r g b - g) _) as [gc|]; [|discriminate].
    destruct (div (max3 r g b - b) _) as [bc|]; [|discriminate].
    intros E. injection E as <- _ _.
    match goal with
    | |- context [Qmod ?x 1] => destruct (Qmod_spec x 1) as (H0 & H1 & _); [lra|]
    end.
    split; assumption.
Qed.

(** On channels scaled to [[0, 1]] no divisor vanishes. *)
Lemma rgb_to_hls_total (r g b : Q) :
  0 <= r <= 1 -> 0 <= g <= 1 -> 0 <= b <= 1 ->
  exists hls, Colorsys.rgb_to_hls r g b = Ok hls.
Proof.
  intros Hr Hg Hb.
  destruct (max3_min3_bounds r g b 0 1 Hr Hg Hb) as (Hlo & Hmid & Hhi).
  unfold Colorsys.rgb_to_hls.
  set (maxc := max3 r g b) in *. set (minc := min3 r g b) in *.
  destruct (Qeq_bool minc maxc) eqn:E; [eexists; reflexivity|].
  reflect_cmp.
  assert (Hrange : ~ maxc - minc == 0) by (intros H; apply E; lra).
  rewrite !(div_ok _ (maxc - minc) Hrange).
  destruct (Qle_bool ((maxc + minc) / 2) (1 # 2)) eqn:El; reflect_cmp.
  - rewrite div_ok; [eexists; reflexivity|].
    intros H. apply E. lra.
  - rewrite div_ok; [eexists; reflexivity|].
    intros H. apply E. lra.
Qed.

Lemma channel_scaled (v : Z) : channel v -> 0 <= inject_Z v / 255 <= 1.
Proof.
  unfold channel. intros [H0 H1].
  assert (0 <= inject_Z v) by (rewrite (Zle_Qle 0 v) in H0; exact H0).
  assert (inject_Z v <= 255) by (rewrite (Zle_Qle v 255) in H1; exact H1).
  split.
  - apply Qle_shift_div_l; lra.
  - apply Qle_shift_div_r; lra.
Qed.

(** [rgb_to_hsl] returns on every colour with channels in [[0, 255]]. *)
Lemma rgb_to_hsl_total (r g b : Z) :
  channel r -> channel g -> channel b ->
  exists c, rgb_to_hsl r g b = Ok c.
Proof.
  intros Hr Hg Hb. unfold rgb_to_hsl.
  destruct (rgb_to_hls_total _ _ _ (channel_scaled r Hr) (channel_scaled g Hg)
              (channel_scaled b Hb)) as ([[h l] s] & E).
  rewrite E. eexists. reflexivity.
Qed.


End HslFacts.

(** ** Harmony suggestions *)

Section Suggestions.

Import PyQ.
Local Open Scope string_scope.
Local Open Scope Q_scope.

(** The result on a base colour that parses and converts. *)
Lemma compute_harmony_suggestions_ok (base kind : string) (r g b : Z) (c : hsl) :
  hex_to_rgb base = Some (r, g, b) ->
  rgb_to_hsl r g b = Ok c ->
  compute_harmony_suggestions base kind
  = Ok [ ("base", SBase base c);
         ("suggestions",
          SSuggestions
            (map (suggest (fst (fst c)) (rgb_to_lab r g b))
                 (generate_harmony_colors (fst (fst c)) (snd (fst c)) (snd c) kind)));
         ("variations", SVariations (map (vary c) [-20; -10; 0; 10; 20])) ].
Proof.
  intros H1 H2. unfold compute_harmony_suggestions.
  rewrite H1, H2. destruct c as [[bh bs] bl]. reflexivity.
Qed.



Lemma in_generate_harmony_colors (bh bs bl : Q) (kind : string) (c : hsl) :
  In c (generate_harmony_colors bh bs bl kind) ->
  exists d, c = (rotate_hue bh d, bs, bl).
Proof.
  unfold generate_harmony_colors.
  repeat match goal with
  | |- context [if ?b then _ else _] => destruct b
  end; cbn [app In]; intros H;
  repeat match type of H with
  | _ \/ _ => destruct H as [H|H]
  end; try contradiction; subst c; eexists; reflexivity.
Qed.




(** C10: a kind outside the closed set yields no harmony colour, and on a
    hex colour the suggestion result is then no error: it has the base, an
    empty suggestion list and the five lightness variations. *)
Theorem unknown_kind_no_suggestions (base kind : string) :
  hex_color base = true ->
  ~ In kind harmony_kinds ->
  (forall h s l, generate_harmony_colors h s l kind = [])
  /\ exists d c,
       compute_harmony_suggestions base kind = Ok d
       /\ dict_get d "error" = None
       /\ dict_get d "base" = Some (SBase base c)
       /\ suggestions_of d = Some []
       /\ variations_of d = Some (map (vary c) [-20; -10; 0; 10; 20])
       /\ List.length (map (vary c) [-20; -10; 0; 10; 20]) = 5%nat.
Proof.
  intros Hb Hk. split.
  - intros h s l. apply generate_harmony_colors_unknown. exact Hk.
  - assert (Hp : exists r g b, hex_to_rgb base = Some (r, g, b)
                               /\ channel r /\ channel g /\ channel b).
    { unfold hex_color in Hb. destruct base as [|c0 rest]; [discriminate|].
      destruct (Ascii.eqb c0 "#") eqn:E.
      - apply Ascii.eqb_eq in E. subst c0.
        destruct (hex_to_rgb_hex6 rest Hb) as (r & g & b & _ & H & Cr & Cg & Cb & _).
        exists r, g, b. repeat split; try assumption; apply Cr || apply Cg || apply Cb.
      - destruct (hex_to_rgb_hex6 _ Hb) as (r & g & b & H & _ & Cr & Cg & Cb & _).
        exists r, g, b. repeat split; try assumption; apply Cr || apply Cg || apply Cb. }
    destruct Hp as (r & g & b & Hp & Cr & Cg & Cb).
    destruct (rgb_to_hsl_total r g b Cr Cg Cb) as [c Hc].
    rewrite (compute_harmony_suggestions_ok base kind r g b c Hp Hc).
    rewrite (generate_harmony_colors_unknown _ _ _ kind Hk).
    eexists. exists c. repeat split.
Qed.

Lemma unknown_kind_no_suggestions_witness :
  hex_color "#4d9375" = true
  /\ ~ In "pentadic" harmony_kinds
  /\ (forall h s l, generate_harmony_colors h s l "pentadic" = [])
  /\ exists d c,
       compute_harmony_suggestions "#4d9375" "pentadic" = Ok d
       /\ dict_get d "error" = None
       /\ dict_get d "base" = Some (SBase "#4d9375" c)
       /\ suggestions_of d = Some []
       /\ variations_of d = Some (map (vary c) [-20; -10; 0; 10; 20])
       /\ List.length (map (vary c) [-20; -10; 0; 10; 20]) = 5%nat.
Proof.
  assert (Hk : ~ In "pentadic" harmony_kinds) by (simpl; intuition discriminate).
  split; [reflexivity|]. split; [exact Hk|].
  apply (unknown_kind_no_suggestions "#4d9375" "pentadic"); [reflexivity | exact Hk].
Defined.

End Suggestions.

(** ** Emotion classification *)

Section Emotion.

Import PyQ.
Local Open Scope string_scope.
Local Open Scope Q_scope.

(** The entries of the result, read off the three table look-ups. *)
Lemma classify_emotion_get (h s l : Q) :
  let d := classify_emotion h s l in
  let hue := if Qle_bool 5 s then find (hue_matches h) EMOTIONAL_MAP else None in
  let lig := find (band_matches l) LIGHTNESS_RESPONSE in
  let sat := find (band_matches s) SATURATION_RESPONSE in
  dict_get d "hue_emotion" = option_map (fun e => fst (fst (snd e))) hue
  /\ dict_get d "arousal" = option_map (fun e => snd (fst (snd e))) hue
  /\ dict_get d "valence" = option_map (fun e => snd (snd e)) hue
  /\ dict_get d "lightness_class" = option_map fst lig
  /\ dict_get d "lightness_response" = option_map (fun e => snd (snd e)) lig
  /\ dict_get d "saturation_class" = option_map fst sat
  /\ dict_get d "saturation_response" = option_map (fun e => snd (snd e)) sat.
Proof.
  unfold classify_emotion.
  destruct (Qle_bool 5 s);
    [destruct (find (hue_matches h) EMOTIONAL_MAP) as [[[? ?] [[? ?] ?]]|]|];
    destruct (find (band_matches l) LIGHTNESS_RESPONSE) as [[? [[? ?] ?]]|];
    destruct (find (band_matches s) SATURATION_RESPONSE) as [[? [[? ?] ?]]|];
    repeat split.
Qed.

Lemma in_band_iff (lo hi x : Q) : in_band lo hi x = true <-> lo <= x /\ x < hi.
Proof.
  unfold in_band. rewrite andb_true_iff, Qle_bool_iff, Qltb_lt. reflexivity.
Qed.

(** A band table whose bands tile [[0, top)]: the look-up succeeds
    exactly below [top], with an entry whose band holds the value. *)
Lemma band_lookup (table : list (string * (Q * Q * string))) (top x : Q) :
  (forall e, In e table -> snd (fst (snd e)) <= top) ->
  (0 <= x -> x < top -> exists e, In e table /\ band_matches x e = true) ->
  0 <= x ->
  (x < top ->
   exists name lo hi desc,
     find (band_matches x) table = Some (name, (lo, hi, desc))
     /\ In (name, (lo, hi, desc)) table /\ lo <= x /\ x < hi)
  /\ (~ x < top -> find (band_matches x) table = None).
Proof.
  intros Hub Hcover H0. split.
  - intros Hlt. destruct (find (band_matches x) table) as [[name [[lo hi] desc]]|] eqn:E.
    + apply find_some in E. destruct E as [Hin Hm].
      apply in_band_iff in Hm.
      exists name, lo, hi, desc. repeat split; tauto.
    + destruct (Hcover H0 Hlt) as (e & Hin & Hm).
      rewrite (find_none _ _ E e Hin) in Hm. discriminate Hm.
  - intros Hge. destruct (find (band_matches x) table) as [[name [[lo hi] desc]]|] eqn:E;
      [|reflexivity].
    apply find_some in E. destruct E as [Hin Hm].
    apply in_band_iff in Hm. specialize (Hub _ Hin). cbn [fst snd] in Hub.
    exfalso. apply Hge. lra.
Qed.

(** Walks a concrete table: either some entry matches, or all the
    failed tests contradict the bounds in the context. *)
Ltac decide_band matches x table :=
  let rec go l :=
    lazymatch l with
    | ?e :: ?r =>
        destruct (matches x e) eqn:?;
        [exists e; split; [cbn [In]; tauto | assumption] | go r]
    | _ => exfalso; unfold matches in *;
           repeat match goal with
           | H : in_band _ _ _ = false |- _ =>
               unfold in_band in H; apply andb_false_iff in H;
               destruct H as [H|H]
           end; reflect_cmp; lra
    end in
  let t := eval unfold table in table in go t.

Lemma lightness_covered (x : Q) :
  0 <= x -> x < 100 ->
  exists e, In e LIGHTNESS_RESPONSE /\ band_matches x e = true.
Proof.
  intros H0 H1. unfold LIGHTNESS_RESPONSE.
  decide_band band_matches x LIGHTNESS_RESPONSE.
Qed.

Lemma saturation_covered (x : Q) :
  0 <= x -> x < 100 ->
  exists e, In e SATURATION_RESPONSE /\ band_matches x e = true.
Proof.
  intros H0 H1. unfold SATURATION_RESPONSE.
  decide_band band_matches x SATURATION_RESPONSE.
Qed.

Lemma hue_covered (x : Q) :
  0 <= x -> x < 360 ->
  exists e, In e EMOTIONAL_MAP /\ hue_matches x e = true.
Proof.
  intros H0 H1. unfold EMOTIONAL_MAP.
  decide_band hue_matches x EMOTIONAL_MAP.
Qed.

Lemma lightness_top (e : string * (Q * Q * string)) :
  In e LIGHTNESS_RESPONSE -> snd (fst (snd e)) <= 100.
Proof.
  unfold LIGHTNESS_RESPONSE. cbn [In]. intros H.
  repeat (destruct H as [<-|H]; [cbn [fst snd]; lra|]). contradiction.
Qed.

Lemma saturation_top (e : string * (Q * Q * string)) :
  In e SATURATION_RESPONSE -> snd (fst (snd e)) <= 100.
Proof.
  unfold SATURATION_RESPONSE. cbn [In]. intros H.
  repeat (destruct H as [<-|H]; [cbn [fst snd]; lra|]). contradiction.
Qed.

(** C1, as the code has it: the lightness keys are populated from the
    seven-band table exactly when [l < 100], the saturation keys from the
    five-band table exactly when [s < 100], and the hue keys from the
    eight-band table exactly when [s >= 5]. *)
Theorem classify_emotion_populated (h s l : Q) :
  0 <= h /\ h < 360 -> 0 <= s /\ s <= 100 -> 0 <= l /\ l <= 100 ->
  let d := classify_emotion h s l in
  (l < 100 ->
   exists name lo hi desc,
     In (name, (lo, hi, desc)) LIGHTNESS_RESPONSE /\ lo <= l /\ l < hi
     /\ dict_get d "lightness_class" = Some name
     /\ dict_get d "lightness_response" = Some desc)
  /\ (l == 100 ->
      dict_get d "lightness_class" = None
      /\ dict_get d "lightness_response" = None)
  /\ (s < 100 ->
      exists name lo hi desc,
        In (name, (lo, hi, desc)) SATURATION_RESPONSE /\ lo <= s /\ s < hi
        /\ dict_get d "saturation_class" = Some name
        /\ dict_get d "saturation_response" = Some desc)
  /\ (s == 100 ->
      dict_get d "saturation_class" = None
      /\ dict_get d "saturation_response" = None)
  /\ (5 <= s ->
      exists hmin hmax emotion arousal valence,
        In ((hmin, hmax), (emotion, arousal, valence)) EMOTIONAL_MAP
        /\ hmin <= h /\ h < hmax
        /\ dict_get d "hue_emotion" = Some emotion
        /\ dict_get d "arousal" = Some arousal
        /\ dict_get d "valence" = Some valence)
  /\ (s < 5 ->
      dict_get d "hue_emotion" = None
      /\ dict_get d "arousal" = None
      /\ dict_get d "valence" = None).
Proof.
  intros Hh Hs Hl d. subst d.
  destruct (classify_emotion_get h s l) as (G1 & G2 & G3 & G4 & G5 & G6 & G7).
  destruct (band_lookup LIGHTNESS_RESPONSE 100 l lightness_top
              (lightness_covered l) (proj1 Hl)) as [Ll Lt].
  destruct (band_lookup SATURATION_RESPONSE 100 s saturation_top
              (saturation_covered s) (proj1 Hs)) as [Sl St].
  rewrite G1, G2, G3, G4, G5, G6, G7.
  repeat split.
  - intros H. destruct (Ll H) as (name & lo & hi & desc & -> & Hin & H1 & H2).
    exists name, lo, hi, desc. repeat split; assumption.
  - rewrite Lt; [reflexivity | lra].
  - rewrite Lt; [reflexivity | lra].
  - intros H. destruct (Sl H) as (name & lo & hi & desc & -> & Hin & H1 & H2).
    exists name, lo, hi, desc. repeat split; assumption.
  - rewrite St; [reflexivity | lra].
  - rewrite St; [reflexivity | lra].
  - intros H. apply Qle_bool_iff in H. rewrite H.
    destruct (find (hue_matches h) EMOTIONAL_MAP)
      as [[[hmin hmax] [[emotion arousal] valence]]|] eqn:E.
    + apply find_some in E. destruct E as [Hin Hm]. apply in_band_iff in Hm.
      exists hmin, hmax, emotion, arousal, valence. repeat split; tauto.
    + destruct (hue_covered h (proj1 Hh) (proj2 Hh)) as (e & Hin & Hm).
      rewrite (find_none _ _ E e Hin) in Hm. discriminate Hm.
  - apply Qle_bool_gt in H. rewrite H. reflexivity.
  - apply Qle_bool_gt in H. rewrite H. reflexivity.
  - apply Qle_bool_gt in H. rewrite H. reflexivity.
Qed.

Lemma classify_emotion_populated_witness :
  (0 <= 155 /\ 155 < 360) /\ (0 <= 31 /\ 31 <= 100) /\ (0 <= 44 /\ 44 <= 100)
  /\ exists name desc,
       dict_get (classify_emotion 155 31 44) "lightness_class" = Some name
       /\ dict_get (classify_emotion 155 31 44) "lightness_response" = Some desc.
Proof.
  assert (Hh : 0 <= 155 /\ 155 < 360) by (split; [discriminate | reflexivity]).
  assert (Hs : 0 <= 31 /\ 31 <= 100) by (split; discriminate).
  assert (Hl : 0 <= 44 /\ 44 <= 100) by (split; discriminate).
  split; [exact Hh|]. split; [exact Hs|]. split; [exact Hl|].
  destruct (classify_emotion_populated 155 31 44 Hh Hs Hl) as (L & _).
  destruct (L eq_refl) as (name & lo & hi & desc & _ & _ & _ & E1 & E2).
  exists name, desc. split; assumption.
Defined.

(** C1, counterexample: at saturation 100 and lightness 100, both inside
    the stated ranges, neither class is populated. *)
Lemma classify_emotion_unclassified_at_100 :
  (0 <= 0 /\ 0 < 360) /\ (0 <= 100 /\ 100 <= 100) /\ (0 <= 100 /\ 100 <= 100)
  /\ dict_mem (classify_emotion 0 100 100) "lightness_class" = false
  /\ dict_mem (classify_emotion 0 100 100) "lightness_response" = false
  /\ dict_mem (classify_emotion 0 100 100) "saturation_class" = false
  /\ dict_mem (classify_emotion 0 100 100) "saturation_response" = false
  /\ dict_keys (classify_emotion 0 100 100)
     = ["hue_emotion"; "arousal"; "valence"; "temperature"].
Proof.
  repeat split; try discriminate; reflexivity.
Qed.

End Emotion.

(** ** Harmony analysis *)

Section HarmonyAnalysis.

Local Open Scope string_scope.
Local Open Scope Z_scope.

(** [round] picks a nearest integer. *)
Lemma round_nearest (h : Q) :
  (Qabs (h - inject_Z (PyQ.round h)) <= 1 # 2)%Q.
Proof.
  pose proof (Qfloor_le h) as Hlo. pose proof (Qlt_floor h) as Hhi.
  rewrite inject_Z_plus in Hhi. change (inject_Z 1) with 1%Q in Hhi.
  apply Qabs_Qle_condition. unfold PyQ.round.
  destruct (PyQ.Qltb (h - inject_Z (Qfloor h)) (1 # 2)) eqn:E1;
    [|destruct (PyQ.Qltb (1 # 2) (h - inject_Z (Qfloor h))) eqn:E2;
      [|destruct (Z.even (Qfloor h))]];
    reflect_cmp; rewrite ?inject_Z_plus; change (inject_Z 1) with 1%Q; split; lra.
Qed.

(** A hue in [[0, 360)] rounds into [[0, 360]]. *)
Lemma round_range (h : Q) :
  (0 <= h)%Q -> (h < 360)%Q -> 0 <= PyQ.round h <= 360.
Proof.
  intros H0 H1.
  assert (F0 : 0 <= Qfloor h).
  { change 0 with (Qfloor (inject_Z 0)). apply Qfloor_resp_le. exact H0. }
  assert (F1 : Qfloor h <= 359).
  { assert (Qfloor h < 360); [|lia].
    rewrite Zlt_Qlt. eapply Qle_lt_trans; [apply Qfloor_le | exact H1]. }
  unfold PyQ.round.
  repeat match goal with
  | |- context [if ?b then _ else _] => destruct b
  end; lia.
Qed.

Lemma in_rounded (hues : list (option Q)) (z : Z) :
  In z (rounded hues) <-> exists h, In (Some h) hues /\ PyQ.round h = z.
Proof.
  induction hues as [|[h|] r IH]; cbn [rounded In].
  - split; [contradiction | intros (h & [] & _)].
  - rewrite IH. split.
    + intros [E|(h' & Hin & E)]; [exists h | exists h']; auto.
    + intros (h' & [E|Hin] & E').
      * injection E as ->. left. exact E'.
      * right. exists h'. auto.
  - rewrite IH. split.
    + intros (h' & Hin & E). exists h'. auto.
    + intros (h' & [E|Hin] & E'); [discriminate E|]. exists h'. auto.
Qed.

Lemma in_insert_distinct (x z : Z) (l : list Z) :
  In z (insert_distinct x l) <-> z = x \/ In z l.
Proof.
  induction l as [|y r IH]; cbn [insert_distinct In].
  - intuition.
  - destruct (x <? y) eqn:E1; [cbn [In]; intuition|].
    destruct (x =? y) eqn:E2.
    + apply Z.eqb_eq in E2. subst y. cbn [In]. intuition.
    + cbn [In]. rewrite IH. intuition.
Qed.

Lemma insert_distinct_sorted (x : Z) (l : list Z) :
  StronglySorted Z.lt l -> StronglySorted Z.lt (insert_distinct x l).
Proof.
  induction 1 as [|y r Hs IH Hy]; cbn [insert_distinct].
  - repeat constructor.
  - destruct (x <? y) eqn:E1.
    + apply Z.ltb_lt in E1. constructor; [constructor; assumption|].
      constructor; [exact E1|].
      rewrite Forall_forall in Hy |- *. intros w Hw. specialize (Hy w Hw). lia.
    + destruct (x =? y) eqn:E2; [constructor; assumption|].
      apply Z.ltb_ge in E1. apply Z.eqb_neq in E2.
      constructor; [exact IH|].
      rewrite Forall_forall in Hy |- *. intros w Hw.
      apply in_insert_distinct in Hw. destruct Hw as [->|Hw]; [lia | auto].
Qed.

(** [sorted(set(xs))] holds the values of [xs], each once, increasing. *)
Lemma sorted_set_spec (xs : list Z) :
  StronglySorted Z.lt (sorted_set xs) /\ forall z, In z (sorted_set xs) <-> In z xs.
Proof.
  induction xs as [|x r [IHs IHi]]; cbn [sorted_set fold_right].
  - split; [constructor | reflexivity].
  - split; [apply insert_distinct_sorted; exact IHs|].
    intros z. rewrite in_insert_distinct. fold (sorted_set r). rewrite IHi.
    cbn [In]. intuition.
Qed.

(** The code's [if]/[elif] chain is the first-match look-up in the table. *)
Lemma band_first_band (d : Z) : band d = first_band d.
Proof.
  unfold band, first_band, harmony_bands. cbn [find fst snd].
  repeat match goal with
  | |- context [if ?b then _ else _] => destruct b
  end; reflexivity.
Qed.

Lemma hue_diff_le_180 (h1 h2 : Z) : hue_diff h1 h2 <= 180.
Proof.
  unfold hue_diff. destruct (180 <? Z.abs (h1 - h2)) eqn:E.
  - apply Z.ltb_lt in E. lia.
  - apply Z.ltb_ge in E. lia.
Qed.

(** On whole degrees in [[0, 360]] the code's difference is the minimal
    circular one. *)
Lemma hue_diff_circular (h1 h2 : Z) :
  0 <= h1 <= 360 -> 0 <= h2 <= 360 ->
  hue_diff h1 h2 = circular_distance h1 h2 /\ 0 <= hue_diff h1 h2.
Proof.
  intros H1 H2. unfold hue_diff, circular_distance.
  destruct (180 <? Z.abs (h1 - h2)) eqn:E;
    [apply Z.ltb_lt in E | apply Z.ltb_ge in E];
    (split; [Z.div_mod_to_equations; lia | lia]).
Qed.

(** The entries appended for the pairs of an increasing list. *)
Lemma in_pair_loop (hs : list Z) (kind : string) (h1 h2 d : Z) :
  StronglySorted Z.lt hs ->
  In (kind, h1, h2, d) (pair_loop hs)
  <-> In h1 hs /\ In h2 hs /\ h1 < h2
      /\ d = hue_diff h1 h2 /\ band d = Some kind.
Proof.
  assert (Hentry : forall a b, In (kind, h1, h2, d) (pair_entry a b)
            <-> a = h1 /\ b = h2 /\ d = hue_diff h1 h2 /\ band d = Some kind).
  { intros a b. unfold pair_entry.
    destruct (band (hue_diff a b)) as [k|] eqn:E; cbn [In].
    - split.
      + intros [X|[]]. injection X as Ek Ea Eb Ed. subst. auto.
      + intros (-> & -> & -> & X). rewrite E in X. injection X as ->. auto.
    - split; [contradiction|]. intros (-> & -> & -> & X). congruence. }
  induction 1 as [|a r Hs IH Ha]; cbn [pair_loop In].
  - tauto.
  - rewrite Forall_forall in Ha.
    rewrite in_app_iff, in_flat_map, IH. split.
    + intros [(b & Hb & He)|(I1 & I2 & Hlt & Hd)].
      * apply Hentry in He. destruct He as (-> & -> & Hd).
        specialize (Ha _ Hb). tauto.
      * tauto.
    + intros ([->|I1] & [E2|I2] & Hlt & Hd).
      * lia.
      * left. exists h2. split; [exact I2|]. apply Hentry. tauto.
      * subst h2. specialize (Ha _ I1). lia.
      * right. tauto.
Qed.

(** C7: the hues are rounded to a nearest integer and deduplicated; fewer
    than two distinct ones give exactly [{type: monochromatic}]; otherwise
    the relationships are exactly the unordered pairs of distinct rounded
    hues whose minimal circular difference, at most 180, falls in a band,
    each labelled with the first band that holds it. *)
Theorem analyze_harmony_pairs (hues : list (option Q)) :
  (forall h, In (Some h) hues -> (0 <= h)%Q /\ (h < 360)%Q) ->
  let hs := sorted_set (rounded hues) in
  (forall z, In z hs <-> exists h, In (Some h) hues /\ PyQ.round h = z)
  /\ (forall h, (Qabs (h - inject_Z (PyQ.round h)) <= 1 # 2)%Q)
  /\ StronglySorted Z.lt hs
  /\ ((List.length hs < 2)%nat ->
      analyze_harmony hues = [("type", HStr "monochromatic")])
  /\ ((2 <= List.length hs)%nat ->
      exists rels,
        analyze_harmony hues
        = [ ("distinct_hues", HInt (Z.of_nat (List.length hs)));
            ("hue_values", HHues hs);
            ("hue_range", HInt (hue_range hs));
            ("relationships", HRelationships rels) ]
        /\ forall kind h1 h2 d,
             In (kind, h1, h2, d) rels
             <-> In h1 hs /\ In h2 hs /\ h1 < h2
                 /\ d = circular_distance h1 h2 /\ first_band d = Some kind)
  /\ (forall h1 h2, In h1 hs -> In h2 hs ->
      0 <= circular_distance h1 h2 <= 180
      /\ hue_diff h1 h2 = circular_distance h1 h2).
Proof.
  intros Hrange hs.
  destruct (sorted_set_spec (rounded hues)) as [Hsorted Hin]. fold hs in Hsorted, Hin.
  assert (Hmem : forall z, In z hs <-> exists h, In (Some h) hues /\ PyQ.round h = z).
  { intros z. rewrite Hin. apply in_rounded. }
  assert (Hdeg : forall z, In z hs -> 0 <= z <= 360).
  { intros z Hz. apply Hmem in Hz. destruct Hz as (h & Hh & <-).
    destruct (Hrange h Hh). apply round_range; assumption. }
  assert (Hcirc : forall h1 h2, In h1 hs -> In h2 hs ->
            0 <= circular_distance h1 h2 <= 180
            /\ hue_diff h1 h2 = circular_distance h1 h2).
  { intros h1 h2 I1 I2.
    destruct (hue_diff_circular h1 h2 (Hdeg _ I1) (Hdeg _ I2)) as [E P].
    pose proof (hue_diff_le_180 h1 h2). rewrite <- E. auto. }
  split; [exact Hmem|]. split; [exact round_nearest|]. split; [exact Hsorted|].
  split; [|split; [|exact Hcirc]].
  - intros Hlen. unfold analyze_harmony. fold hs.
    apply Nat.ltb_lt in Hlen. rewrite Hlen. reflexivity.
  - intros Hlen. unfold analyze_harmony. fold hs.
    apply Nat.ltb_ge in Hlen. rewrite Hlen.
    exists (pair_loop hs). split; [reflexivity|].
    intros kind h1 h2 d. rewrite (in_pair_loop hs kind h1 h2 d Hsorted).
    rewrite <- band_first_band. split.
    + intros (I1 & I2 & Hlt & -> & Hb).
      destruct (Hcirc h1 h2 I1 I2) as [_ E]. rewrite <- E. auto.
    + intros (I1 & I2 & Hlt & -> & Hb).
      destruct (Hcirc h1 h2 I1 I2) as [_ E]. rewrite E. auto.
Qed.

Lemma analyze_harmony_pairs_witness :
  (forall h, In (Some h) [Some 0%Q; Some 180%Q; None; Some 180.4%Q] ->
             (0 <= h)%Q /\ (h < 360)%Q)
  /\ exists rels,
       dict_get (analyze_harmony [Some 0%Q; Some 180%Q; None; Some 180.4%Q])
                "relationships" = Some (HRelationships rels)
       /\ (In ("complementary", 0, 180, 180) rels
           <-> In 0 [0; 180] /\ In 180 [0; 180] /\ 0 < 180
               /\ 180 = circular_distance 0 180
               /\ first_band 180 = Some "complementary").
Proof.
  assert (H : forall h, In (Some h) [Some 0%Q; Some 180%Q; None; Some 180.4%Q] ->
                        (0 <= h)%Q /\ (h < 360)%Q).
  { intros h [E|[E|[E|[E|[]]]]]; try discriminate E; injection E as <-;
      split; try discriminate; reflexivity. }
  split; [exact H|].
  destruct (analyze_harmony_pairs _ H) as (_ & _ & _ & _ & P & _).
  destruct (P (le_n 2)) as (rels & E & M).
  exists rels. split; [rewrite E; reflexivity|].
  exact (M "complementary" 0 180 180).
Defined.

End HarmonyAnalysis.

(** ** Replacement impact *)

Section ReplacementImpact.

Local Open Scope string_scope.

(** C9: when either colour fails to parse, the result is the dictionary
    with the single key ["error"]; none of the five result keys is there. *)
Theorem replacement_impact_invalid (th : theme) (old_color new_color : string) :
  hex_to_rgb old_color = None \/ hex_to_rgb new_color = None ->
  exists d,
    compute_replacement_impact th old_color new_color = Ok d
    /\ d = [("error", IStr "Invalid color")]
    /\ dict_keys d = ["error"]
    /\ dict_get d "affected_ui" = None
    /\ dict_get d "affected_syntax" = None
    /\ dict_get d "contrast_changes" = None
    /\ dict_get d "recommendations" = None
    /\ dict_get d "delta_e" = None.
Proof.
  intros H. exists [("error", IStr "Invalid color")].
  split; [|repeat split].
  unfold compute_replacement_impact.
  destruct (hex_to_rgb old_color) as [[[r1 g1] b1]|];
    destruct (hex_to_rgb new_color) as [[[r2 g2] b2]|];
    try reflexivity.
  destruct H as [H|H]; discriminate H.
Qed.

Lemma replacement_impact_invalid_witness :
  (hex_to_rgb "zzzzzz" = None \/ hex_to_rgb "#ffffff" = None)
  /\ exists d,
       compute_replacement_impact
         {| colors := Some [("editor.background", JStr "#121212")];
            tokenColors := None; semanticTokenColors := None |}
         "zzzzzz" "#ffffff" = Ok d
       /\ d = [("error", IStr "Invalid color")]
       /\ dict_keys d = ["error"]
       /\ dict_get d "affected_ui" = None
       /\ dict_get d "affected_syntax" = None
       /\ dict_get d "contrast_changes" = None
       /\ dict_get d "recommendations" = None
       /\ dict_get d "delta_e" = None.
Proof.
  split; [left; reflexivity|].
  apply (replacement_impact_invalid _ "zzzzzz" "#ffffff"). left. reflexivity.
Defined.

End ReplacementImpact.

(** ** Colour distance and contrast *)

Section Perceptual.

Local Open Scope R_scope.

Lemma Rpower_one (c : R) : Rpower 1 c = 1.
Proof. unfold Rpower. rewrite ln_1, Rmult_0_r. apply exp_0. Qed.

Lemma linearize_0 : linearize 0 = 0.
Proof.
  unfold linearize. destruct (Rle_dec (0 / 255) 0.04045) as [_|H]; [lra|].
  exfalso. apply H. lra.
Qed.

Lemma linearize_255 : linearize 255 = 1.
Proof.
  unfold linearize. destruct (Rle_dec (255 / 255) 0.04045) as [H|_]; [lra|].
  replace ((255 / 255 + 0.055) / 1.055) with 1 by lra. apply Rpower_one.
Qed.

Lemma linearize_nonneg (c : R) : 0 <= c -> 0 <= linearize c.
Proof.
  intros H. unfold linearize. destruct (Rle_dec (c / 255) 0.04045) as [_|_].
  - lra.
  - unfold Rpower. left. apply exp_pos.
Qed.






Lemma sum_squares_nonneg (a b c : R) : 0 <= 0 + a ^ 2 + b ^ 2 + c ^ 2.
Proof.
  pose proof (pow2_ge_0 a). pose proof (pow2_ge_0 b). pose proof (pow2_ge_0 c).
  lra.
Qed.

Lemma square_zero (a : R) : a ^ 2 = 0 -> a = 0.
Proof.
  intros H. replace (a ^ 2) with (a * a) in H by ring.
  destruct (Rmult_integral _ _ H); assumption.
Qed.

Lemma sum_squares_zero (a b c : R) :
  0 + a ^ 2 + b ^ 2 + c ^ 2 = 0 -> a = 0 /\ b = 0 /\ c = 0.
Proof.
  pose proof (pow2_ge_0 a) as Pa. pose proof (pow2_ge_0 b) as Pb.
  pose proof (pow2_ge_0 c) as Pc.
  intros E. repeat split; apply square_zero; lra.
Qed.

Lemma cauchy_schwarz_3 (u1 u2 u3 v1 v2 v3 : R) :
  (u1 * v1 + u2 * v2 + u3 * v3) ^ 2
  <= (u1 ^ 2 + u2 ^ 2 + u3 ^ 2) * (v1 ^ 2 + v2 ^ 2 + v3 ^ 2).
Proof.
  pose proof (pow2_ge_0 (u1 * v2 - u2 * v1)) as P12.
  pose proof (pow2_ge_0 (u1 * v3 - u3 * v1)) as P13.
  pose proof (pow2_ge_0 (u2 * v3 - u3 * v2)) as P23.
  replace ((u1 ^ 2 + u2 ^ 2 + u3 ^ 2) * (v1 ^ 2 + v2 ^ 2 + v3 ^ 2))
    with ((u1 * v1 + u2 * v2 + u3 * v3) ^ 2 + (u1 * v2 - u2 * v1) ^ 2
          + (u1 * v3 - u3 * v1) ^ 2 + (u2 * v3 - u3 * v2) ^ 2) by ring.
  lra.
Qed.

Lemma norm3_triangle (u1 u2 u3 v1 v2 v3 : R) :
  sqrt ((u1 + v1) ^ 2 + (u2 + v2) ^ 2 + (u3 + v3) ^ 2)
  <= sqrt (u1 ^ 2 + u2 ^ 2 + u3 ^ 2) + sqrt (v1 ^ 2 + v2 ^ 2 + v3 ^ 2).
Proof.
  set (U := u1 ^ 2 + u2 ^ 2 + u3 ^ 2). set (V := v1 ^ 2 + v2 ^ 2 + v3 ^ 2).
  assert (HU : 0 <= U) by (pose proof (sum_squares_nonneg u1 u2 u3); unfold U; lra).
  assert (HV : 0 <= V) by (pose proof (sum_squares_nonneg v1 v2 v3); unfold V; lra).
  pose proof (sqrt_pos U) as PU. pose proof (sqrt_pos V) as PV.
  pose proof (sqrt_sqrt U HU) as SU. pose proof (sqrt_sqrt V HV) as SV.
  pose proof (cauchy_schwarz_3 u1 u2 u3 v1 v2 v3) as CS. fold U V in CS.
  set (A := sqrt U) in *. set (B := sqrt V) in *.
  set (D := u1 * v1 + u2 * v2 + u3 * v3) in *.
  assert (HD : D <= A * B).
  { destruct (Rle_dec D (A * B)) as [H|H]; [exact H|]. exfalso.
    assert (0 <= A * B) by nra.
    assert ((A * B) ^ 2 < D ^ 2) by nra.
    assert ((A * B) ^ 2 = U * V) by (rewrite <- SU, <- SV; ring).
    lra. }
  rewrite <- (sqrt_square (A + B)) by lra.
  apply sqrt_le_1_alt.
  replace ((u1 + v1) ^ 2 + (u2 + v2) ^ 2 + (u3 + v3) ^ 2) with (U + V + 2 * D)
    by (unfold U, V, D; ring).
  replace ((A + B) * (A + B)) with (U + V + 2 * (A * B))
    by (rewrite <- SU, <- SV; ring).
  lra.
Qed.

(** With exact real arithmetic the CIE76 distance is a metric: it is
    zero only between a triple and itself, and it satisfies the triangle
    inequality. Neither survives the rounding of binary64 numbers, see
    below. *)
Lemma euclidean_metric (x y z : lab) :
  (delta_e_76 x y = 0 <-> x = y)
  /\ delta_e_76 x z <= delta_e_76 x y + delta_e_76 y z.
Proof.
  destruct x as [[x1 x2] x3], y as [[y1 y2] y3], z as [[z1 z2] z3].
  unfold delta_e_76. split.
  - split.
    + intros H. apply sqrt_eq_0 in H; [|apply sum_squares_nonneg].
      apply sum_squares_zero in H. destruct H as (E1 & E2 & E3).
      f_equal; [f_equal|]; lra.
    + intros E. injection E as -> -> ->.
      replace (0 + (y1 - y1) ^ 2 + (y2 - y2) ^ 2 + (y3 - y3) ^ 2) with 0 by ring.
      apply sqrt_0.
  - replace (0 + (x1 - z1) ^ 2 + (x2 - z2) ^ 2 + (x3 - z3) ^ 2)
      with (((x1 - y1) + (y1 - z1)) ^ 2 + ((x2 - y2) + (y2 - z2)) ^ 2
            + ((x3 - y3) + (y3 - z3)) ^ 2) by ring.
    replace (0 + (x1 - y1) ^ 2 + (x2 - y2) ^ 2 + (x3 - y3) ^ 2)
      with ((x1 - y1) ^ 2 + (x2 - y2) ^ 2 + (x3 - y3) ^ 2) by ring.
    replace (0 + (y1 - z1) ^ 2 + (y2 - z2) ^ 2 + (y3 - z3) ^ 2)
      with ((y1 - z1) ^ 2 + (y2 - z2) ^ 2 + (y3 - z3) ^ 2) by ring.
    apply norm3_triangle.
Qed.



Lemma relative_luminance_nonneg (r g b : Z) :
  (0 <= r)%Z -> (0 <= g)%Z -> (0 <= b)%Z -> 0 <= relative_luminance r g b.
Proof.
  intros Hr Hg Hb. unfold relative_luminance.
  pose proof (linearize_nonneg (IZR r) (IZR_le 0 r Hr)).
  pose proof (linearize_nonneg (IZR g) (IZR_le 0 g Hg)).
  pose proof (linearize_nonneg (IZR b) (IZR_le 0 b Hb)).
  lra.
Qed.

Lemma rdiv_ok (a b : R) : b <> 0 -> rdiv a b = Ok (a / b).
Proof.
  intros H. unfold rdiv. destruct (Req_dec_T b 0) as [E|_]; [contradiction|].
  reflexivity.
Qed.

(** The ratio of two luminances that are not negative. *)
Lemma contrast_of_luminances (l1 l2 : R) :
  0 <= l1 -> 0 <= l2 ->
  rdiv (Rmax l1 l2 + 0.05) (Rmin l1 l2 + 0.05)
    = Ok ((Rmax l1 l2 + 0.05) / (Rmin l1 l2 + 0.05))
  /\ 1 <= (Rmax l1 l2 + 0.05) / (Rmin l1 l2 + 0.05).
Proof.
  intros H1 H2.
  assert (Hmin : 0 <= Rmin l1 l2) by (apply Rmin_glb; assumption).
  assert (Hle : Rmin l1 l2 <= Rmax l1 l2).
  { apply Rle_trans with l1; [apply Rmin_l | apply Rmax_l]. }
  split; [apply rdiv_ok; lra|].
  apply (Rmult_le_reg_r (Rmin l1 l2 + 0.05)); [lra|].
  unfold Rdiv. rewrite Rmult_assoc, Rinv_l by lra. lra.
Qed.

(** C6: on channels in [[0, 255]] the contrast ratio is returned, is at
    least 1 and does not depend on the order of the colours; a colour
    against itself gives exactly 1; white against black is within 0.1 of
    21. *)
Theorem contrast_ratio_properties (a b : rgb) :
  rgb_valid a -> rgb_valid b ->
  (exists v, contrast_ratio a b = Ok v /\ 1 <= v /\ contrast_ratio b a = Ok v)
  /\ contrast_ratio a a = Ok 1
  /\ exists w, contrast_ratio (255, 255, 255)%Z (0, 0, 0)%Z = Ok w
               /\ Rabs (w - 21.0) <= 0.1.
Proof.
  destruct a as [[r1 g1] b1], b as [[r2 g2] b2].
  unfold rgb_valid, channel. intros (Hr1 & Hg1 & Hb1) (Hr2 & Hg2 & Hb2).
  assert (L1 : 0 <= relative_luminance r1 g1 b1)
    by (apply relative_luminance_nonneg; lia).
  assert (L2 : 0 <= relative_luminance r2 g2 b2)
    by (apply relative_luminance_nonneg; lia).
  unfold contrast_ratio. split; [|split].
  - destruct (contrast_of_luminances _ _ L1 L2) as [E Hge].
    eexists. split; [exact E|]. split; [exact Hge|].
    rewrite (Rmax_comm (relative_luminance r2 g2 b2)),
            (Rmin_comm (relative_luminance r2 g2 b2)).
    exact E.
  - destruct (contrast_of_luminances _ _ L1 L1) as [E _]. rewrite E.
    f_equal. apply Rdiv_diag.
    assert (0 <= Rmin (relative_luminance r1 g1 b1) (relative_luminance r1 g1 b1))
      by (apply Rmin_glb; assumption).
    unfold Rmax, Rmin in *.
    destruct (Rle_dec (relative_luminance r1 g1 b1) (relative_luminance r1 g1 b1));
      lra.
  - assert (Ew : relative_luminance 255 255 255 = 0.9999).
    { unfold relative_luminance. rewrite linearize_255. lra. }
    assert (Eb : relative_luminance 0 0 0 = 0).
    { unfold relative_luminance. rewrite linearize_0. lra. }
    rewrite Ew, Eb. rewrite Rmax_left, Rmin_right by lra.
    rewrite rdiv_ok by lra. eexists. split; [reflexivity|].
    apply Rabs_le. lra.
Qed.

Lemma contrast_ratio_properties_witness :
  rgb_valid (77, 147, 117)%Z /\ rgb_valid (18, 18, 18)%Z
  /\ (exists v, contrast_ratio (77, 147, 117)%Z (18, 18, 18)%Z = Ok v /\ 1 <= v
                /\ contrast_ratio (18, 18, 18)%Z (77, 147, 117)%Z = Ok v)
  /\ contrast_ratio (77, 147, 117)%Z (77, 147, 117)%Z = Ok 1.
Proof.
  assert (Ha : rgb_valid (77, 147, 117)%Z) by (unfold rgb_valid, channel; lia).
  assert (Hb : rgb_valid (18, 18, 18)%Z) by (unfold rgb_valid, channel; lia).
  split; [exact Ha|]. split; [exact Hb|].
  destruct (contrast_ratio_properties _ _ Ha Hb) as (P & Q & _).
  split; [exact P | exact Q].
Defined.

End Perceptual.

(** ** The colour distance on binary64 numbers *)

Section PerceptualBinary64.

Import PrimFloat.
Local Open Scope float_scope.


(** The three colours of lightness 0, 0.2 and 0.9 on the grey axis: the
    distances 0.2 and 0.7 add up, after rounding, to less than the
    distance 0.9 of the outer two. *)
Lemma delta_e_76_triangle_fails :
  exists dxy dyz dxz,
    Binary64.delta_e_76 (0, 0, 0) (0x1.999999999999ap-3, 0, 0) = Binary64.Returns dxy
    /\ Binary64.delta_e_76 (0x1.999999999999ap-3, 0, 0) (0x1.ccccccccccccdp-1, 0, 0)
       = Binary64.Returns dyz
    /\ Binary64.delta_e_76 (0, 0, 0) (0x1.ccccccccccccdp-1, 0, 0) = Binary64.Returns dxz
    /\ (dxy + dyz <? dxz) = true.
Proof.
  do 3 eexists. vm_compute. repeat split.
Qed.

(** Beyond the range: the square of [2^600] is no binary64 number and
    [**] raises. *)
Lemma delta_e_76_overflows :
  Binary64.delta_e_76 (0x1p+600, 0, 0) (0, 0, 0) = Binary64.OverflowError.
Proof. reflexivity. Qed.

End PerceptualBinary64.

(** ** Further properties of the hex functions *)

Section HexMore.

Local Open Scope string_scope.

(** Every byte prints as two lower-case hexadecimal digits that read
    back as the byte. *)
Lemma format_02x_table :
  forallb
    (fun n =>
       let v := Z.of_nat n in
       match Py.format_02x v with
       | String c1 (String c2 EmptyString) =>
           Py.is_hex_digit c1 && Py.is_hex_digit c2
           && Ascii.eqb (Py.lower_char c1) c1 && Ascii.eqb (Py.lower_char c2) c2
           && match Py.int16 (String c1 (String c2 "")) with
              | Some w => (w =? v)%Z
              | None => false
              end
       | _ => false
       end)
    (seq 0 256) = true.
Proof. vm_compute. reflexivity. Qed.

Lemma format_02x_channel (v : Z) :
  channel v ->
  exists c1 c2,
    Py.format_02x v = String c1 (String c2 "")
    /\ Py.is_hex_digit c1 = true /\ Py.is_hex_digit c2 = true
    /\ Py.lower_char c1 = c1 /\ Py.lower_char c2 = c2
    /\ Py.int16 (String c1 (String c2 "")) = Some v.
Proof.
  unfold channel. intros Hv.
  pose proof format_02x_table as T. rewrite forallb_forall in T.
  specialize (T (Z.to_nat v)).
  rewrite Z2Nat.id in T by lia.
  assert (Hin : In (Z.to_nat v) (seq 0 256)) by (apply in_seq; lia).
  specialize (T Hin). cbv zeta in T.
  destruct (Py.format_02x v) as [|c1 [|c2 [|c3 r]]]; try discriminate T.
  exists c1, c2.
  repeat (apply andb_prop in T; let X := fresh "X" in destruct T as [T X]).
  destruct (Py.int16 (String c1 (String c2 ""))) as [w|]; [|discriminate].
  match goal with H : (w =? v)%Z = true |- _ => apply Z.eqb_eq in H; subst w end.
  repeat match goal with H : Ascii.eqb _ _ = true |- _ => apply Ascii.eqb_eq in H end.
  repeat split; assumption.
Qed.

Lemma rgb_to_hex_parses (r g b : Z) :
  channel r -> channel g -> channel b ->
  hex_to_rgb (rgb_to_hex r g b) = Some (r, g, b)
  /\ hex_color (rgb_to_hex r g b) = true
  /\ String.length (rgb_to_hex r g b) = 7%nat
  /\ Py.lower (rgb_to_hex r g b) = rgb_to_hex r g b.
Proof.
  intros Hr Hg Hb.
  destruct (format_02x_channel r Hr) as (c1 & c2 & Er & H1 & H2 & L1 & L2 & Ir).
  destruct (format_02x_channel g Hg) as (c3 & c4 & Eg & H3 & H4 & L3 & L4 & Ig).
  destruct (format_02x_channel b Hb) as (c5 & c6 & Eb & H5 & H6 & L5 & L6 & Ib).
  unfold rgb_to_hex. rewrite Er, Eg, Eb. cbn [append].
  destruct (hex_to_rgb_six c1 c2 c3 c4 c5 c6 (hex_digit_not_hash c1 H1)) as [E E'].
  split; [rewrite E', E, Ir, Ig, Ib; reflexivity|].
  split; [|split].
  - unfold hex_color, hex6. cbn [Ascii.eqb Bool.eqb String.length Nat.eqb all_hex].
    rewrite H1, H2, H3, H4, H5, H6. reflexivity.
  - reflexivity.
  - cbn [Py.lower]. rewrite L1, L2, L3, L4, L5, L6. reflexivity.
Qed.

(** X1: Printing then parsing: for channels in [[0, 255]], [rgb_to_hex]
    gives a hash and six lower-case hexadecimal digits, and [hex_to_rgb]
    reads the channels back. *)
Theorem hex_to_rgb_rgb_to_hex (r g b : Z) :
  channel r -> channel g -> channel b ->
  hex_to_rgb (rgb_to_hex r g b) = Some (r, g, b)
  /\ hex_color (rgb_to_hex r g b) = true
  /\ String.length (rgb_to_hex r g b) = 7%nat
  /\ Py.lower (rgb_to_hex r g b) = rgb_to_hex r g b.
Proof.
  exact (rgb_to_hex_parses r g b).
Qed.

Lemma hex_to_rgb_rgb_to_hex_witness :
  channel 77 /\ channel 147 /\ channel 117
  /\ hex_to_rgb (rgb_to_hex 77 147 117) = Some (77, 147, 117)%Z.
Proof.
  assert (H1 : channel 77) by (unfold channel; lia).
  assert (H2 : channel 147) by (unfold channel; lia).
  assert (H3 : channel 117) by (unfold channel; lia).
  split; [exact H1|]. split; [exact H2|]. split; [exact H3|].
  apply (hex_to_rgb_rgb_to_hex 77 147 117 H1 H2 H3).
Defined.

(** X2: A string of another length than six or eight, once the leading
    hashes are gone, is rejected whatever it holds. *)
Theorem hex_to_rgb_length_gate (s : string) :
  String.length (Py.lstrip_hash s) <> 6%nat ->
  String.length (Py.lstrip_hash s) <> 8%nat ->
  hex_to_rgb s = None.
Proof. apply hex_to_rgb_wrong_length. Qed.

Lemma hex_to_rgb_length_gate_witness :
  String.length (Py.lstrip_hash "#fff") <> 6%nat
  /\ String.length (Py.lstrip_hash "#fff") <> 8%nat
  /\ hex_to_rgb "#fff" = None.
Proof.
  assert (H6 : String.length (Py.lstrip_hash "#fff") <> 6%nat) by discriminate.
  assert (H8 : String.length (Py.lstrip_hash "#fff") <> 8%nat) by discriminate.
  split; [exact H6|]. split; [exact H8|].
  apply (hex_to_rgb_length_gate "#fff" H6 H8).
Defined.

(** X3: The last two of eight characters are dropped unread: whatever they
    are, the result is that of the first six. *)
Theorem hex_to_rgb_alpha_ignored (s : string) (a1 a2 : ascii) :
  String.length s = 6%nat ->
  Py.lstrip_hash s = s ->
  hex_to_rgb (s ++ String a1 (String a2 "")) = hex_to_rgb s
  /\ hex_to_rgb ("#" ++ s ++ String a1 (String a2 "")) = hex_to_rgb s.
Proof.
  intros L H.
  destruct s as [|c1 [|c2 [|c3 [|c4 [|c5 [|c6 [|c7 s]]]]]]]; try discriminate L.
  set (t := String c2 (String c3 (String c4 (String c5 (String c6 ""))))) in *.
  change (Py.lstrip_hash (String c1 t))
    with (if Ascii.eqb c1 "#" then Py.lstrip_hash t else String c1 t) in H.
  destruct (Ascii.eqb c1 "#") eqn:E.
  - exfalso.
    assert (G : forall u, (String.length (Py.lstrip_hash u) <= String.length u)%nat).
    { induction u as [|c u IH]; cbn [Py.lstrip_hash String.length]; [lia|].
      destruct (Ascii.eqb c "#"); cbn [String.length]; lia. }
    pose proof (G t) as G'. rewrite H in G'. cbn [String.length] in G'. lia.
  - subst t. unfold hex_to_rgb. cbn [append String.length Nat.eqb Py.lstrip_hash].
    rewrite E.
    cbn [Ascii.eqb Bool.eqb String.length Nat.eqb negb Py.slice Nat.sub substring].
    split; reflexivity.
Qed.

Lemma hex_to_rgb_alpha_ignored_witness :
  String.length "ff0000" = 6%nat /\ Py.lstrip_hash "ff0000" = "ff0000"
  /\ hex_to_rgb ("ff0000" ++ "zz") = hex_to_rgb "ff0000"
  /\ hex_to_rgb "ff0000" = Some (255, 0, 0)%Z.
Proof.
  split; [reflexivity|]. split; [reflexivity|].
  split; [|reflexivity].
  apply (hex_to_rgb_alpha_ignored "ff0000" "z" "z" eq_refl eq_refl).
Defined.

(** X4: The [hex_to_rgb] of [color_analysis] and the one of [albers] agree on
    every string: the extra test of the former is always true. *)
Theorem color_analysis_hex_to_rgb_agrees (s : string) :
  ColorAnalysis.hex_to_rgb s = hex_to_rgb s.
Proof.
  unfold ColorAnalysis.hex_to_rgb, hex_to_rgb.
  destruct s as [|c s]; [reflexivity|].
  cbn [String.length Nat.eqb].
  set (h0 := Py.lstrip_hash (String c s)).
  set (h := if (String.length h0 =? 8)%nat then Py.slice h0 0 6 else h0).
  destruct (String.eqb h "000000"); destruct (String.length h =? 6)%nat; reflexivity.
Qed.

End HexMore.

(** ** Further properties of the HSL conversions *)

Section HslMore.

Import PyQ.
Local Open Scope Q_scope.

(** [max] and [min] of three numbers bound each of them. *)
Lemma max3_min3_each (r g b : Q) :
  (min3 r g b <= r /\ min3 r g b <= g /\ min3 r g b <= b)
  /\ (r <= max3 r g b /\ g <= max3 r g b /\ b <= max3 r g b).
Proof.
  unfold min3, max3, min2, max2.
  destruct (Qltb g r) eqn:E1; destruct (Qltb r g) eqn:E2;
    match goal with
    | |- context [Qltb b ?m] => destruct (Qltb b m) eqn:E3
    end;
    match goal with
    | |- context [Qltb ?m b] => destruct (Qltb m b) eqn:E4
    end; reflect_cmp; repeat split; lra.
Qed.

Lemma ratio_in_unit (a b : Q) : 0 <= a -> a <= b -> 0 < b -> 0 <= a / b /\ a / b <= 1.
Proof.
  intros Ha Hab Hb. split.
  - apply Qle_shift_div_l; lra.
  - apply Qle_shift_div_r; lra.
Qed.

Lemma half_gt (x : Q) : 1 # 2 < x / 2 -> 1 < x.
Proof.
  intros H. assert (E : x / 2 == x * (1 # 2)) by (field; discriminate).
  rewrite E in H. lra.
Qed.

(** On channels scaled to [[0, 1]], [colorsys] returns hue in [[0, 1)],
    lightness and saturation in [[0, 1]]; the saturation is zero exactly
    when the three channels are equal. *)
Lemma rgb_to_hls_ranges (r g b : Q) :
  0 <= r <= 1 -> 0 <= g <= 1 -> 0 <= b <= 1 ->
  exists h l s,
    Colorsys.rgb_to_hls r g b = Ok (h, l, s)
    /\ (0 <= h /\ h < 1) /\ (0 <= l /\ l <= 1) /\ (0 <= s /\ s <= 1)
    /\ (s == 0 <-> r == g /\ g == b)
    /\ (r == g /\ g == b -> h == 0).
Proof.
  intros Hr Hg Hb.
  destruct (max3_min3_bounds r g b 0 1 Hr Hg Hb) as (Hlo & Hmid & Hhi).
  destruct (max3_min3_each r g b) as ((m1 & m2 & m3) & (M1 & M2 & M3)).
  destruct (Colorsys.rgb_to_hls r g b) as [[[h l] s]|e] eqn:E;
    [|destruct (rgb_to_hls_total r g b Hr Hg Hb) as [x X]; congruence].
  exists h, l, s. split; [reflexivity|].
  split; [exact (rgb_to_hls_hue r g b h l s E)|].
  revert E. unfold Colorsys.rgb_to_hls.
  set (maxc := max3 r g b) in *. set (minc := min3 r g b) in *.
  destruct (Qeq_bool minc maxc) eqn:Eg; reflect_cmp.
  - intros X. injection X as <- <- <-.
    split; [split; [apply Qle_shift_div_l | apply Qle_shift_div_r]; lra|].
    split; [lra|]. split; [|reflexivity].
    split; [intros _; split; lra | reflexivity].
  - assert (Hrange : ~ maxc - minc == 0) by (intros H; apply Eg; lra).
    rewrite !(div_ok _ (maxc - minc) Hrange).
    assert (Hgrey : ~ (r == g /\ g == b)).
    { intros [X Y]. apply Eg.
      destruct (max3_min3_bounds r g b r r) as (G1 & _ & G2); try lra.
      fold minc in G1. fold maxc in G2. lra. }
    destruct (Qle_bool ((maxc + minc) / 2) (1 # 2)) eqn:El; reflect_cmp.
    + assert (Hs : 0 < maxc + minc) by lra.
      rewrite div_ok by lra. cbn [bind]. intros X. injection X as _ <- <-.
      destruct (ratio_in_unit (maxc - minc) (maxc + minc)) as [S0 S1]; try lra.
      split; [split; [apply Qle_shift_div_l | apply Qle_shift_div_r]; lra|].
      split; [tauto|]. split; [|tauto].
      split; [|tauto]. intros Z. exfalso.
      assert (maxc - minc == 0); [|tauto].
      rewrite <- (Qmult_div_r (maxc - minc) (maxc + minc)) by lra.
      rewrite Z. ring.
    + assert (El' : 1 < maxc + minc) by (apply half_gt; exact El).
      assert (Hs : 0 < 2 - (maxc + minc)) by lra.
      rewrite div_ok by lra. cbn [bind]. intros X. injection X as _ <- <-.
      destruct (ratio_in_unit (maxc - minc) (2 - (maxc + minc))) as [S0 S1]; try lra.
      split; [split; [apply Qle_shift_div_l | apply Qle_shift_div_r]; lra|].
      split; [tauto|]. split; [|tauto].
      split; [|tauto]. intros Z. exfalso.
      assert (maxc - minc == 0); [|tauto].
      rewrite <- (Qmult_div_r (maxc - minc) (2 - (maxc + minc))) by lra.
      rewrite Z. ring.
Qed.

Lemma inject_Z_scaled_eq (x y : Z) :
  inject_Z x / 255 == inject_Z y / 255 <-> x = y.
Proof.
  split.
  - intros H. apply inject_Z_injective.
    assert (E : inject_Z x == inject_Z x / 255 * 255) by (field; discriminate).
    assert (E' : inject_Z y == inject_Z y / 255 * 255) by (field; discriminate).
    rewrite E, E', H. reflexivity.
  - intros ->. reflexivity.
Qed.

Lemma rgb_to_hsl_in_range (r g b : Z) :
  channel r -> channel g -> channel b ->
  exists h s l,
    rgb_to_hsl r g b = Ok (h, s, l)
    /\ (0 <= h /\ h < 360) /\ (0 <= s /\ s <= 100) /\ (0 <= l /\ l <= 100)
    /\ (s == 0 <-> r = g /\ g = b)
    /\ (r = g /\ g = b -> h == 0).
Proof.
  intros Hr Hg Hb.
  destruct (rgb_to_hls_ranges _ _ _ (channel_scaled r Hr) (channel_scaled g Hg)
              (channel_scaled b Hb))
    as (h & l & s & E & Hh & Hl & Hs & Hz & Hg0).
  unfold rgb_to_hsl. rewrite E. cbn [bind].
  exists (h * 360), (s * 100), (l * 100).
  split; [reflexivity|].
  rewrite !inject_Z_scaled_eq in Hz, Hg0.
  split; [lra|]. split; [lra|]. split; [lra|]. split; [split|].
  - intros Z. apply Hz. lra.
  - intros Z. apply Hz in Z. lra.
  - intros Z. apply Hg0 in Z. lra.
Qed.

(** X5: Ranges of [rgb_to_hsl]: on channels in [[0, 255]] it returns a hue
    in [[0, 360)], a saturation that is not negative and a lightness in
    [[0, 100]]; the saturation is zero exactly for the greys, whose hue
    is reported as 0.  (The saturation is also at most 100, lemma
    [rgb_to_hsl_in_range], but only in exact arithmetic: the division
    of [colorsys] can round a full saturation to just above 100.) *)
Theorem rgb_to_hsl_ranges (r g b : Z) :
  channel r -> channel g -> channel b ->
  exists h s l,
    rgb_to_hsl r g b = Ok (h, s, l)
    /\ (0 <= h /\ h < 360) /\ 0 <= s /\ (0 <= l /\ l <= 100)
    /\ (s == 0 <-> r = g /\ g = b)
    /\ (r = g /\ g = b -> h == 0).
Proof.
  intros Hr Hg Hb.
  destruct (rgb_to_hsl_in_range r g b Hr Hg Hb)
    as (h & s & l & E & Hh & [Hs _] & Hl & Hz & Hgrey).
  exists h, s, l.
  split; [exact E|]. split; [exact Hh|]. split; [exact Hs|].
  split; [exact Hl|]. split; [exact Hz|exact Hgrey].
Qed.

Lemma rgb_to_hsl_ranges_witness :
  channel 77 /\ channel 147 /\ channel 117
  /\ exists h s l,
       rgb_to_hsl 77 147 117 = Ok (h, s, l)
       /\ (0 <= h /\ h < 360) /\ 0 <= s /\ (0 <= l /\ l <= 100).
Proof.
  assert (H1 : channel 77) by (unfold channel; lia).
  assert (H2 : channel 147) by (unfold channel; lia).
  assert (H3 : channel 117) by (unfold channel; lia).
  split; [exact H1|]. split; [exact H2|]. split; [exact H3|].
  destruct (rgb_to_hsl_ranges 77 147 117 H1 H2 H3)
    as (h & s & l & E & Hh & Hs & Hl & _).
  exists h, s, l.
  split; [exact E|]. split; [exact Hh|]. split; [exact Hs|exact Hl].
Defined.

(** [round] stays between two integers that bound its argument. *)
Lemma round_between (a b : Z) (y : Q) :
  inject_Z a <= y -> y <= inject_Z b -> (a <= round y <= b)%Z.
Proof.
  intros Ha Hb.
  pose proof (Qfloor_le y) as Hlo. pose proof (Qlt_floor y) as Hhi.
  rewrite inject_Z_plus in Hhi. change (inject_Z 1) with 1 in Hhi.
  assert (Fa : (a <= Qfloor y)%Z).
  { rewrite <- (Qfloor_Z a). apply Qfloor_resp_le. exact Ha. }
  assert (Fb : (Qfloor y <= b)%Z).
  { rewrite <- (Qfloor_Z b). apply Qfloor_resp_le. exact Hb. }
  unfold round.
  destruct (Qltb (y - inject_Z (Qfloor y)) (1 # 2)) eqn:E1; [lia|].
  reflect_cmp.
  assert (Fb' : (Qfloor y < b)%Z).
  { destruct (Z.eq_dec (Qfloor y) b) as [X|X]; [|lia].
    exfalso. rewrite X in E1. lra. }
  destruct (Qltb (1 # 2) (y - inject_Z (Qfloor y))); [lia|].
  destruct (Z.even (Qfloor y)); lia.
Qed.

(** A value of [_v] lies between its two anchors. *)
Lemma v_between (m1 m2 hue : Q) :
  m1 <= m2 -> m1 <= Colorsys._v m1 m2 hue /\ Colorsys._v m1 m2 hue <= m2.
Proof.
  intros H. unfold Colorsys._v, Colorsys.ONE_SIXTH, Colorsys.TWO_THIRD.
  destruct (Qmod_spec hue 1) as (H0 & H1 & _); [lra|].
  set (x := Qmod hue 1) in *.
  assert (E6 : 1 / 6 == 1 # 6) by reflexivity.
  assert (E3 : 2 / 3 == 2 # 3) by reflexivity.
  destruct (Qltb x (1 / 6)) eqn:A1; [|destruct (Qltb x (1 # 2)) eqn:A2;
    [|destruct (Qltb x (2 / 3)) eqn:A3]]; reflect_cmp;
    rewrite ?E6, ?E3 in *; split; try lra; nra.
Qed.

(** On lightness and saturation in [[0, 1]], [hls_to_rgb] returns three
    channels in [[0, 1]], whatever the hue. *)
Lemma hls_to_rgb_ranges (h l s : Q) :
  0 <= l <= 1 -> 0 <= s <= 1 ->
  let '(r, g, b) := Colorsys.hls_to_rgb h l s in
  (0 <= r /\ r <= 1) /\ (0 <= g /\ g <= 1) /\ (0 <= b /\ b <= 1).
Proof.
  intros Hl Hs. unfold Colorsys.hls_to_rgb.
  destruct (Qeq_bool s 0); [repeat split; lra|].
  set (m2 := if Qle_bool l (1 # 2) then l * (1 + s) else l + s - l * s).
  assert (B : 2 * l - m2 <= m2 /\ 0 <= 2 * l - m2 /\ m2 <= 1).
  { unfold m2. destruct (Qle_bool l (1 # 2)) eqn:E; reflect_cmp; repeat split; nra. }
  destruct B as (B1 & B2 & B3).
  pose proof (v_between _ _ (h + Colorsys.ONE_THIRD) B1) as V1.
  pose proof (v_between _ _ h B1) as V2.
  pose proof (v_between _ _ (h - Colorsys.ONE_THIRD) B1) as V3.
  repeat split; lra.
Qed.

Lemma percent_in_unit (x : Q) : 0 <= x -> x <= 100 -> 0 <= x / 100 <= 1.
Proof.
  intros H0 H1. split.
  - apply Qle_shift_div_l; lra.
  - apply Qle_shift_div_r; lra.
Qed.

Lemma hsl_to_rgb_valid (h s l : Q) :
  0 <= s /\ s <= 100 -> 0 <= l /\ l <= 100 ->
  rgb_valid (hsl_to_rgb h s l).
Proof.
  intros [S0 S1] [L0 L1]. unfold hsl_to_rgb.
  pose proof (hls_to_rgb_ranges (h / 360) (l / 100) (s / 100)
                (percent_in_unit l L0 L1) (percent_in_unit s S0 S1)) as R.
  destruct (Colorsys.hls_to_rgb (h / 360) (l / 100) (s / 100)) as [[r g] b].
  destruct R as ((R0 & R1) & (G0 & G1) & (B0 & B1)).
  unfold rgb_valid, channel.
  repeat split; apply (round_between 0 255); change (inject_Z 0) with 0;
    change (inject_Z 255) with 255; lra.
Qed.

(** X6: Range of [hsl_to_rgb]: for a saturation and a lightness in
    [[0, 100]] and any hue, the three channels are in [[0, 255]]. *)
Theorem hsl_to_rgb_channels (h s l : Q) :
  0 <= s /\ s <= 100 -> 0 <= l /\ l <= 100 ->
  rgb_valid (hsl_to_rgb h s l).
Proof.
  exact (hsl_to_rgb_valid h s l).
Qed.

Lemma hsl_to_rgb_channels_witness :
  (0 <= 31 /\ 31 <= 100) /\ (0 <= 44 /\ 44 <= 100)
  /\ rgb_valid (hsl_to_rgb 155 31 44).
Proof.
  assert (Hs : 0 <= 31 /\ 31 <= 100) by (split; discriminate).
  assert (Hl : 0 <= 44 /\ 44 <= 100) by (split; discriminate).
  split; [exact Hs|]. split; [exact Hl|].
  apply (hsl_to_rgb_channels 155 31 44 Hs Hl).
Defined.

(** Two numbers of [[0, m)] that differ by a whole number of [m] are equal. *)
Lemma residue_unique (x y m : Q) (k : Z) :
  0 < m -> 0 <= x -> x < m -> 0 <= y -> y < m ->
  x == y + m * inject_Z k -> x == y.
Proof.
  intros Hm X0 X1 Y0 Y1 E.
  destruct (Z_lt_le_dec k 1) as [K|K].
  - destruct (Z_lt_le_dec k 0) as [K'|K'].
    + assert (k <= -1)%Z by lia.
      assert (inject_Z k <= -1) by (rewrite (Zle_Qle k (-1)) in *; assumption).
      exfalso. nra.
    + assert (k = 0)%Z by lia. subst k. rewrite E. change (inject_Z 0) with 0. ring.
  - assert (1 <= inject_Z k) by (rewrite (Zle_Qle 1 k) in *; assumption).
    exfalso. nra.
Qed.

(** X8: Rotations compose: rotating by [a] and then by [b] is rotating by
    [a + b]; in particular the complement of the complement of a hue in
    [[0, 360)] is the hue itself. *)
Theorem rotate_hue_compose (h a b : Q) :
  rotate_hue (rotate_hue h a) b == rotate_hue h (a + b)
  /\ (0 <= h /\ h < 360 -> rotate_hue (rotate_hue h 180) 180 == h).
Proof.
  destruct (rotate_hue_spec h a) as (A0 & A1 & ka & Ea).
  destruct (rotate_hue_spec (rotate_hue h a) b) as (B0 & B1 & kb & Eb).
  destruct (rotate_hue_spec h (a + b)) as (C0 & C1 & kc & Ec).
  assert (Hc : rotate_hue (rotate_hue h a) b == rotate_hue h (a + b)).
  { apply (residue_unique _ _ 360 (kc - ka - kb)); try assumption; [lra|].
    rewrite Eb, Ea, Ec. unfold Zminus. rewrite !inject_Z_plus, !inject_Z_opp. ring. }
  split; [exact Hc|].
  intros [H0 H1].
  destruct (rotate_hue_spec h 180) as (D0 & D1 & kd & Ed).
  destruct (rotate_hue_spec (rotate_hue h 180) 180) as (F0 & F1 & kf & Ef).
  apply (residue_unique _ _ 360 (1 - kd - kf)); try assumption; [lra|].
  rewrite Ef, Ed. unfold Zminus. rewrite !inject_Z_plus, !inject_Z_opp.
  change (inject_Z 1) with 1. ring.
Qed.

Lemma rotate_hue_compose_witness :
  (0 <= 200 /\ 200 < 360)%Q
  /\ (rotate_hue (rotate_hue 200 180) 180 == 200)%Q.
Proof.
  assert (H : (0 <= 200 /\ 200 < 360)%Q) by (split; lra).
  split; [exact H|].
  exact (proj2 (rotate_hue_compose 200 0 0) H).
Defined.

(** X9: Every harmony colour keeps the saturation and the lightness of the
    base and has its hue in [[0, 360]].  (In exact arithmetic the hue
    stays below 360, lemma [rotate_hue_spec]; the float remainder of a
    tiny negative sum rounds to 360.0.) *)
Theorem generate_harmony_colors_invariant (h s l : Q) (kind : string) (c : hsl) :
  In c (generate_harmony_colors h s l kind) ->
  let '(h', s', l') := c in
  s' = s /\ l' = l /\ 0 <= h' /\ h' <= 360.
Proof.
  intros Hin. apply in_generate_harmony_colors in Hin. destruct Hin as [d ->].
  destruct (rotate_hue_spec h d) as (H0 & H1 & _).
  split; [reflexivity|]. split; [reflexivity|]. split; [exact H0|].
  apply Qlt_le_weak. exact H1.
Qed.

Lemma generate_harmony_colors_invariant_witness :
  In (rotate_hue 200 120, 50, 40) (generate_harmony_colors 200 50 40 "triadic")
  /\ 0 <= rotate_hue 200 120 /\ rotate_hue 200 120 <= 360.
Proof.
  assert (H : In (rotate_hue 200 120, 50, 40)
                (generate_harmony_colors 200 50 40 "triadic")) by (left; reflexivity).
  split; [exact H|].
  destruct (generate_harmony_colors_invariant 200 50 40 "triadic" _ H)
    as (_ & _ & H0 & H1).
  split; assumption.
Defined.

End HslMore.

(** ** The round trip through HSL *)

Section HslRoundTrip.

Import PyQ.
Local Open Scope Q_scope.

Lemma Qmod1_shift (x : Q) (k : Z) :
  0 <= x - inject_Z k -> x - inject_Z k < 1 -> Qmod x 1 == x - inject_Z k.
Proof.
  intros H0 H1. destruct (Qmod_spec x 1) as (M0 & M1 & E); [lra|].
  apply (residue_unique _ _ 1 (k - Qfloor (x / 1))); try assumption; [lra|].
  rewrite E. unfold Zminus. rewrite inject_Z_plus, inject_Z_opp. ring.
Qed.

Lemma Qmod1_id (x : Q) : 0 <= x -> x < 1 -> Qmod x 1 == x.
Proof.
  intros. rewrite (Qmod1_shift x 0); change (inject_Z 0) with 0; lra.
Qed.

Lemma Qmod1_up (x : Q) : -1 <= x -> x < 0 -> Qmod x 1 == x + 1.
Proof.
  intros. rewrite (Qmod1_shift x (-1)); change (inject_Z (-1)) with (-1); lra.
Qed.

Lemma Qmod1_down (x : Q) : 1 <= x -> x < 2 -> Qmod x 1 == x - 1.
Proof.
  intros. rewrite (Qmod1_shift x 1); change (inject_Z 1) with 1; lra.
Qed.

(** The four pieces of [_v], by the reduced hue [t]. *)
Lemma v_formula (m1 m2 hue t a b : Q) :
  Qmod hue 1 == t -> m1 == a -> m2 == b ->
  (t < 1 # 6 -> Colorsys._v m1 m2 hue == a + (b - a) * t * 6)
  /\ (1 # 6 <= t -> t < 1 # 2 -> Colorsys._v m1 m2 hue == b)
  /\ (1 # 2 <= t -> t < 2 # 3 -> Colorsys._v m1 m2 hue == a + (b - a) * ((2 # 3) - t) * 6)
  /\ (2 # 3 <= t -> Colorsys._v m1 m2 hue == a).
Proof.
  intros T E1 E2. unfold Colorsys._v, Colorsys.ONE_SIXTH, Colorsys.TWO_THIRD.
  assert (E6 : 1 / 6 == 1 # 6) by reflexivity.
  assert (E3 : 2 / 3 == 2 # 3) by reflexivity.
  destruct (Qltb (Qmod hue 1) (1 / 6)) eqn:A1;
    [|destruct (Qltb (Qmod hue 1) (1 # 2)) eqn:A2;
      [|destruct (Qltb (Qmod hue 1) (2 / 3)) eqn:A3]];
    reflect_cmp; rewrite ?E6, ?E3 in *; rewrite T in *;
    repeat split; intros; try (exfalso; lra);
    rewrite ?E1, ?E2, ?T; try reflexivity.
Qed.

(** Where a channel stands between the smallest and the largest: at the
    top, at the bottom, or strictly between. *)
Lemma ratio_class (c d x : Q) :
  0 < d -> 0 <= x -> x <= d -> c * d == x ->
  (x == 0 /\ c == 0) \/ (x == d /\ c == 1) \/ (0 < x /\ x < d /\ 0 < c /\ c < 1).
Proof.
  intros Hd H0 H1 E.
  assert (Ec : c == x / d) by (rewrite <- E; field; lra).
  destruct (Qeq_dec x 0) as [Z|Z]; [left|right; destruct (Qeq_dec x d) as [Z'|Z']; [left|right]].
  - split; [exact Z|]. rewrite Ec, Z. field. lra.
  - split; [exact Z'|]. rewrite Ec, Z'. field. lra.
  - assert (0 < x) by (destruct (Qlt_le_dec 0 x); [assumption | exfalso; apply Z; lra]).
    assert (x < d) by (destruct (Qlt_le_dec x d); [assumption | exfalso; apply Z'; lra]).
    repeat split; try assumption; rewrite Ec.
    + apply Qlt_shift_div_l; lra.
    + apply Qlt_shift_div_r; lra.
Qed.

(** Drops what linear arithmetic would have to split on. *)
Ltac clear_props :=
  repeat match goal with
  | H : _ \/ _ |- _ => clear H
  | H : ~ _ |- _ => clear H
  | H : ?A -> ?B |- _ => clear H
  end.

(** Settles one channel: finds the reduced hue, then the piece of [_v]. *)
Ltac reduce_hue x :=
  first
    [ assert (Qmod x 1 == x) by (apply Qmod1_id; lra)
    | assert (Qmod x 1 == x + 1) by (apply Qmod1_up; lra)
    | assert (Qmod x 1 == x - 1) by (apply Qmod1_down; lra) ].

Ltac pick_piece m1 m2 x a b E1 E2 Eh Z :=
  lazymatch goal with
  | T : Qmod x 1 == ?t |- _ =>
      destruct (v_formula m1 m2 x t a b T E1 E2) as (V1 & V2 & V3 & V4);
      destruct (Qlt_le_dec t (1 # 6));
        [rewrite V1 by assumption; clear V1 V2 V3 V4; rewrite Eh, Z; lra|];
      destruct (Qlt_le_dec t (1 # 2));
        [rewrite V2 by assumption; clear V1 V2 V3 V4; lra|];
      destruct (Qlt_le_dec t (2 # 3));
        [rewrite V3 by assumption; clear V1 V2 V3 V4; rewrite Eh, Z; lra|];
      rewrite V4 by assumption; clear V1 V2 V3 V4; lra
  end.

Ltac channel_case m1 m2 m M E1 E2 Eh Z :=
  lazymatch goal with
  | |- Colorsys._v _ _ ?x == _ =>
      destruct (Qlt_le_dec x 0); destruct (Qlt_le_dec x 1);
      try (exfalso; lra); reduce_hue x; pick_piece m1 m2 x m M E1 E2 Eh Z
  end.

Lemma sextant_round_trip (R G B M m rc gc bc h6 h m1 m2 : Q) :
  m < M ->
  m <= R /\ R <= M -> m <= G /\ G <= M -> m <= B /\ B <= M ->
  R == m \/ G == m \/ B == m ->
  R == M \/ G == M \/ B == M ->
  rc * (M - m) == M - R -> gc * (M - m) == M - G -> bc * (M - m) == M - B ->
  (R == M /\ h6 == bc - gc)
  \/ (~ R == M /\ G == M /\ h6 == 2 + rc - bc)
  \/ (~ R == M /\ ~ G == M /\ h6 == 4 + gc - rc) ->
  h == Qmod (h6 * (1 # 6)) 1 ->
  m1 == m -> m2 == M ->
  Colorsys._v m1 m2 (h + (1 # 3)) == R
  /\ Colorsys._v m1 m2 h == G
  /\ Colorsys._v m1 m2 (h - (1 # 3)) == B.
Proof.
  intros Hd [R0 R1] [G0 G1] [B0 B1] Hmin Hmax Erc Egc Ebc Hh6 Hh E1 E2.
  assert (Hcase : (R == M /\ h6 == bc - gc)
                  \/ (R < M /\ G == M /\ h6 == 2 + rc - bc)
                  \/ (R < M /\ G < M /\ B == M /\ h6 == 4 + gc - rc)).
  { clear - R1 G1 Hmax Hh6.
    destruct Hh6 as [[X Z]|[[X [Y Z]]|[X [Y Z]]]]; [left; tauto| |].
    - right; left. repeat split; try assumption.
      destruct (Qlt_le_dec R M); [assumption | exfalso; apply X; lra].
    - right; right.
      assert (R < M) by (destruct (Qlt_le_dec R M); [assumption | exfalso; apply X; lra]).
      assert (G < M) by (destruct (Qlt_le_dec G M); [assumption | exfalso; apply Y; lra]).
      repeat split; try assumption.
      destruct Hmax as [W|[W|W]]; [exfalso; lra | exfalso; lra | exact W]. }
  clear Hh6 Hmax.
  destruct (ratio_class rc (M - m) (M - R)) as [[Cr Dr]|[[Cr Dr]|(Cr & Dr & Er & Fr)]];
    try lra;
  destruct (ratio_class gc (M - m) (M - G)) as [[Cg Dg]|[[Cg Dg]|(Cg & Dg & Eg & Fg)]];
    try lra;
  destruct (ratio_class bc (M - m) (M - B)) as [[Cb Db]|[[Cb Db]|(Cb & Db & Eb & Fb)]];
    try lra;
  destruct Hmin as [Xm|[Xm|Xm]]; try (exfalso; lra);
  destruct Hcase as [[X Z]|[(X & Y & Z)|(X & Y & W & Z)]]; try (exfalso; lra);
  (destruct (Qlt_le_dec h6 0) as [N|N];
    [ assert (Eh : h == h6 * (1 # 6) + 1) by (rewrite Hh; apply Qmod1_up; lra)
    | assert (Eh : h == h6 * (1 # 6)) by (rewrite Hh; apply Qmod1_id; lra) ]);
  clear Hh; (split; [|split]); channel_case m1 m2 m M E1 E2 Eh Z.
Qed.

Lemma Qmod_comp (x y m : Q) : x == y -> Qmod x m == Qmod y m.
Proof.
  intros E. unfold Qmod.
  assert (F : Qfloor (x / m) = Qfloor (y / m)) by (apply Qfloor_comp; rewrite E; reflexivity).
  rewrite F, E. reflexivity.
Qed.

Lemma max3_min3_attained (r g b : Q) :
  (min3 r g b == r \/ min3 r g b == g \/ min3 r g b == b)
  /\ (max3 r g b == r \/ max3 r g b == g \/ max3 r g b == b).
Proof.
  unfold min3, max3, min2, max2.
  destruct (Qltb g r); destruct (Qltb r g);
    match goal with
    | |- context [Qltb b ?m] => destruct (Qltb b m)
    end;
    match goal with
    | |- context [Qltb ?m b] => destruct (Qltb m b)
    end; split; auto using Qeq_refl.
Qed.

(** [colorsys] undoes itself: on channels in [[0, 1]], [hls_to_rgb]
    gives back the channels [rgb_to_hls] started from. *)
Lemma hls_round_trip (R G B h l s h' l' s' : Q) :
  0 <= R <= 1 -> 0 <= G <= 1 -> 0 <= B <= 1 ->
  Colorsys.rgb_to_hls R G B = Ok (h, l, s) ->
  h' == h -> l' == l -> s' == s ->
  let '(r, g, b) := Colorsys.hls_to_rgb h' l' s' in
  r == R /\ g == G /\ b == B.
Proof.
  intros HR HG HB E Eh El Es.
  destruct (max3_min3_bounds R G B 0 1 HR HG HB) as (Hlo & Hmid & Hhi).
  destruct (max3_min3_each R G B) as ((m1 & m2 & m3) & (M1 & M2 & M3)).
  destruct (max3_min3_attained R G B) as (Amin & Amax).
  revert E. unfold Colorsys.rgb_to_hls.
  set (M := max3 R G B) in *. set (m := min3 R G B) in *.
  destruct (Qeq_bool m M) eqn:Eg; reflect_cmp.
  - intros X. injection X as <- <- <-.
    unfold Colorsys.hls_to_rgb.
    assert (Z : Qeq_bool s' 0 = true) by (apply Qeq_bool_iff; exact Es).
    rewrite Z.
    assert (D : (M + m) / 2 == (M + m) * (1 # 2)) by (field; discriminate).
    rewrite D in El. clear - El Eg m1 m2 m3 M1 M2 M3. repeat split; lra.
  - assert (Hd : m < M).
    { destruct (Qlt_le_dec m M); [assumption | exfalso; apply Eg; lra]. }
    assert (Hrange : ~ M - m == 0) by (clear - Hd; intros X; lra).
    rewrite !(div_ok _ (M - m) Hrange).
    set (rc := (M - R) / (M - m)). set (gc := (M - G) / (M - m)).
    set (bc := (M - B) / (M - m)).
    assert (Erc : rc * (M - m) == M - R) by (unfold rc; field; exact Hrange).
    assert (Egc : gc * (M - m) == M - G) by (unfold gc; field; exact Hrange).
    assert (Ebc : bc * (M - m) == M - B) by (unfold bc; field; exact Hrange).
    clearbody rc gc bc.
    assert (Hh6 : forall h6,
              h6 = (if Qeq_bool R M then bc - gc
                    else if Qeq_bool G M then 2 + rc - bc else 4 + gc - rc) ->
              ((R == M /\ h6 == bc - gc)
               \/ (~ R == M /\ G == M /\ h6 == 2 + rc - bc)
               \/ (~ R == M /\ ~ G == M /\ h6 == 4 + gc - rc))
              /\ h6 / 6 == h6 * (1 # 6)).
    { intros h6 ->. split; [|field; discriminate].
      destruct (Qeq_bool R M) eqn:T1; [|destruct (Qeq_bool G M) eqn:T2];
        reflect_cmp; [left | right; left | right; right]; repeat split;
        try assumption; reflexivity. }
    assert (D2 : (M + m) / 2 == (M + m) * (1 # 2)) by (field; discriminate).
    assert (Sfact : forall sv (dv : Q), 0 < dv -> sv == (M - m) / dv ->
              sv * dv == M - m /\ ~ sv == 0).
    { intros sv dv Hdv Esv. assert (X : sv * dv == M - m).
      { rewrite Esv. field. clear - Hdv. intros X; lra. }
      split; [exact X|]. intros Z. rewrite Z in X. clear - X Hd. lra. }
    destruct (Qle_bool ((M + m) / 2) (1 # 2)) eqn:Lb; reflect_cmp; rewrite D2 in Lb.
    + assert (Hsum : 0 < M + m) by (clear - Hd Hlo; lra).
      rewrite div_ok by (clear - Hsum; intros X; lra).
      cbn [bind]. intros X. injection X as <- <- <-.
      destruct (Sfact _ _ Hsum (Qeq_refl _)) as [Ess Esz].
      set (s := (M - m) / (M + m)) in *. clearbody s.
      unfold Colorsys.hls_to_rgb.
      assert (Z : Qeq_bool s' 0 = false).
      { apply Qeq_bool_false. rewrite Es. exact Esz. }
      rewrite Z.
      assert (Lb' : Qle_bool l' (1 # 2) = true).
      { apply Qle_bool_iff. rewrite El, D2. exact Lb. }
      rewrite Lb'.
      change Colorsys.ONE_THIRD with (1 # 3).
      destruct (Hh6 _ eq_refl) as [Hcase D6]. clear Hh6.
      set (h6 := if Qeq_bool R M then bc - gc
                 else if Qeq_bool G M then 2 + rc - bc else 4 + gc - rc) in *.
      clearbody h6.
      apply (sextant_round_trip R G B M m rc gc bc h6); try assumption;
        try (split; assumption).
      * destruct Amin as [X|[X|X]]; [left | right; left | right; right];
          symmetry; exact X.
      * destruct Amax as [X|[X|X]]; [left | right; left | right; right];
          symmetry; exact X.
      * rewrite El, Es, D2. clear - Ess. lra.
      * rewrite El, Es, D2. clear - Ess. lra.
    + assert (Hsum : 0 < 2 - (M + m)) by (clear - Hd Hhi; lra).
      rewrite div_ok by (clear - Hsum; intros X; lra).
      cbn [bind]. intros X. injection X as <- <- <-.
      destruct (Sfact _ _ Hsum (Qeq_refl _)) as [Ess Esz].
      set (s := (M - m) / (2 - (M + m))) in *. clearbody s.
      unfold Colorsys.hls_to_rgb.
      assert (Z : Qeq_bool s' 0 = false).
      { apply Qeq_bool_false. rewrite Es. exact Esz. }
      rewrite Z.
      assert (Lb' : Qle_bool l' (1 # 2) = false).
      { apply Qle_bool_gt. rewrite El, D2. exact Lb. }
      rewrite Lb'.
      change Colorsys.ONE_THIRD with (1 # 3).
      destruct (Hh6 _ eq_refl) as [Hcase D6]. clear Hh6.
      set (h6 := if Qeq_bool R M then bc - gc
                 else if Qeq_bool G M then 2 + rc - bc else 4 + gc - rc) in *.
      clearbody h6.
      apply (sextant_round_trip R G B M m rc gc bc h6); try assumption;
        try (split; assumption).
      * destruct Amin as [X|[X|X]]; [left | right; left | right; right];
          symmetry; exact X.
      * destruct Amax as [X|[X|X]]; [left | right; left | right; right];
          symmetry; exact X.
      * rewrite El, Es, D2. clear - Ess. lra.
      * rewrite El, Es, D2. clear - Ess. lra.
Qed.

(** X7: Round trip through HSL: for channels in [[0, 255]], converting to
    HSL and back gives the channels again. *)
Theorem hsl_to_rgb_rgb_to_hsl (r g b : Z) :
  channel r -> channel g -> channel b ->
  exists h s l,
    rgb_to_hsl r g b = Ok (h, s, l) /\ hsl_to_rgb h s l = (r, g, b).
Proof.
  intros Hr Hg Hb.
  pose proof (channel_scaled r Hr) as Sr. pose proof (channel_scaled g Hg) as Sg.
  pose proof (channel_scaled b Hb) as Sb.
  destruct (rgb_to_hls_total _ _ _ Sr Sg Sb) as ([[h l] s] & E).
  unfold rgb_to_hsl. rewrite E. cbn [bind].
  exists (h * 360), (s * 100), (l * 100). split; [reflexivity|].
  unfold hsl_to_rgb.
  assert (Eh : h * 360 / 360 == h) by (field; discriminate).
  assert (El : l * 100 / 100 == l) by (field; discriminate).
  assert (Es : s * 100 / 100 == s) by (field; discriminate).
  pose proof (hls_round_trip _ _ _ h l s _ _ _ Sr Sg Sb E Eh El Es) as RT.
  destruct (Colorsys.hls_to_rgb (h * 360 / 360) (l * 100 / 100) (s * 100 / 100))
    as [[r' g'] b'].
  destruct RT as (Rr & Rg & Rb).
  assert (F : forall (v : Z) (x : Q), x == inject_Z v / 255 -> round (x * 255) = v).
  { intros v x Ex.
    assert (X : x * 255 == inject_Z v) by (rewrite Ex; field; discriminate).
    assert (v <= round (x * 255) <= v)%Z; [|lia].
    apply round_between; rewrite X; apply Qle_refl. }
  rewrite (F r r' Rr), (F g g' Rg), (F b b' Rb). reflexivity.
Qed.

Lemma hsl_to_rgb_rgb_to_hsl_witness :
  channel 77 /\ channel 147 /\ channel 117
  /\ exists h s l,
       rgb_to_hsl 77 147 117 = Ok (h, s, l) /\ hsl_to_rgb h s l = (77, 147, 117)%Z.
Proof.
  assert (H1 : channel 77) by (unfold channel; lia).
  assert (H2 : channel 147) by (unfold channel; lia).
  assert (H3 : channel 117) by (unfold channel; lia).
  split; [exact H1|]. split; [exact H2|]. split; [exact H3|].
  apply (hsl_to_rgb_rgb_to_hsl 77 147 117 H1 H2 H3).
Defined.

End HslRoundTrip.

(** ** Further properties of the harmony suggestions *)

Section SuggestionsMore.

Import PyQ.
Local Open Scope string_scope.
Local Open Scope Q_scope.

(** The round trip, for any HSL triple equal as numbers to the one
    [rgb_to_hsl] returns. *)
Lemma hsl_to_rgb_of_equal (r g b : Z) (h s l h' s' l' : Q) :
  channel r -> channel g -> channel b ->
  rgb_to_hsl r g b = Ok (h, s, l) ->
  h' == h -> s' == s -> l' == l ->
  hsl_to_rgb h' s' l' = (r, g, b).
Proof.
  intros Hr Hg Hb E Eh Es El.
  pose proof (channel_scaled r Hr) as Sr. pose proof (channel_scaled g Hg) as Sg.
  pose proof (channel_scaled b Hb) as Sb.
  unfold rgb_to_hsl in E.
  destruct (Colorsys.rgb_to_hls _ _ _) as [[[h0 l0] s0]|] eqn:E0; [|discriminate].
  cbn [bind] in E. injection E as <- <- <-.
  unfold hsl_to_rgb.
  assert (Xh : h' / 360 == h0) by (rewrite Eh; field; discriminate).
  assert (Xl : l' / 100 == l0) by (rewrite El; field; discriminate).
  assert (Xs : s' / 100 == s0) by (rewrite Es; field; discriminate).
  pose proof (hls_round_trip _ _ _ h0 l0 s0 _ _ _ Sr Sg Sb E0 Xh Xl Xs) as RT.
  destruct (Colorsys.hls_to_rgb (h' / 360) (l' / 100) (s' / 100)) as [[r' g'] b'].
  destruct RT as (Rr & Rg & Rb).
  assert (F : forall (v : Z) (x : Q), x == inject_Z v / 255 -> round (x * 255) = v).
  { intros v x Ex.
    assert (X : x * 255 == inject_Z v) by (rewrite Ex; field; discriminate).
    assert (v <= round (x * 255) <= v)%Z; [|lia].
    apply round_between; rewrite X; apply Qle_refl. }
  rewrite (F r r' Rr), (F g g' Rg), (F b b' Rb). reflexivity.
Qed.

(** A hex colour parses to channels in [[0, 255]]. *)
Lemma hex_color_parses (base : string) :
  hex_color base = true ->
  exists r g b, hex_to_rgb base = Some (r, g, b)
                /\ channel r /\ channel g /\ channel b.
Proof.
  intros Hb. unfold hex_color in Hb. destruct base as [|c0 rest]; [discriminate|].
  destruct (Ascii.eqb c0 "#") eqn:E.
  - apply Ascii.eqb_eq in E. subst c0.
    destruct (hex_to_rgb_hex6 rest Hb) as (r & g & b & _ & H & Cr & Cg & Cb & _).
    exists r, g, b. auto.
  - destruct (hex_to_rgb_hex6 _ Hb) as (r & g & b & H & _ & Cr & Cg & Cb & _).
    exists r, g, b. auto.
Qed.

(** An invalid base colour gives the dictionary with the single key
    ["error"], whatever the kind. *)
Theorem harmony_suggestions_invalid (base kind : string) :
  hex_to_rgb base = None ->
  compute_harmony_suggestions base kind = Ok [("error", SStr "Invalid base color")]
  /\ suggestions_of [("error", SStr "Invalid base color")] = None
  /\ variations_of [("error", SStr "Invalid base color")] = None.
Proof.
  intros H. unfold compute_harmony_suggestions. rewrite H. repeat split.
Qed.

Lemma harmony_suggestions_invalid_witness :
  hex_to_rgb "zzzzzz" = None
  /\ compute_harmony_suggestions "zzzzzz" "all"
     = Ok [("error", SStr "Invalid base color")].
Proof.
  split; [reflexivity|].
  apply (harmony_suggestions_invalid "zzzzzz" "all" eq_refl).
Defined.

(** [rgb_to_hex] writes the hash first. *)
Lemma rgb_to_hex_hash (r g b : Z) :
  String.get 0 (rgb_to_hex r g b) = Some "#"%char.
Proof. reflexivity. Qed.

(** X10: On a hex colour, every suggestion keeps the saturation and the
    lightness of the base, and its hex string is a hash and six lower-case
    digits, seven characters in all, that parse back to the channels of
    its HSL triple; there are as many suggestions as harmony colours. *)
Theorem harmony_suggestions_well_formed (base kind : string) :
  hex_color base = true ->
  exists d bh bs bl sugs,
    compute_harmony_suggestions base kind = Ok d
    /\ dict_get d "base" = Some (SBase base (bh, bs, bl))
    /\ suggestions_of d = Some sugs
    /\ List.length sugs = List.length (generate_harmony_colors bh bs bl kind)
    /\ forall sug, In sug sugs ->
         snd (fst (sug_hsl sug)) = bs /\ snd (sug_hsl sug) = bl
         /\ hex_color (sug_hex sug) = true
         /\ String.get 0 (sug_hex sug) = Some "#"%char
         /\ String.length (sug_hex sug) = 7%nat
         /\ Py.lower (sug_hex sug) = sug_hex sug
         /\ hex_to_rgb (sug_hex sug)
            = Some (hsl_to_rgb (sug_hue sug) bs bl).
Proof.
  intros Hb.
  destruct (hex_color_parses base Hb) as (r & g & b & Hp & Cr & Cg & Cb).
  destruct (rgb_to_hsl_in_range r g b Cr Cg Cb)
    as (bh & bs & bl & Hc & Hh & Hs & Hl & _).
  rewrite (compute_harmony_suggestions_ok base kind r g b _ Hp Hc). cbn [fst snd].
  eexists. exists bh, bs, bl. eexists.
  split; [reflexivity|]. split; [reflexivity|]. split; [reflexivity|].
  split; [apply length_map|].
  intros sug Hin. apply in_map_iff in Hin. destruct Hin as ([[h s] l] & <- & Hin).
  apply in_generate_harmony_colors in Hin. destruct Hin as [deg E].
  injection E as -> -> ->.
  pose proof (hsl_to_rgb_valid (rotate_hue bh deg) bs bl Hs Hl) as V.
  unfold suggest, sug_hue. cbn [sug_hsl sug_hex fst snd].
  destruct (hsl_to_rgb (rotate_hue bh deg) bs bl) as [[r' g'] b'] eqn:Ev.
  destruct V as (V1 & V2 & V3). cbn [sug_hsl sug_hex fst snd].
  destruct (rgb_to_hex_parses r' g' b' V1 V2 V3) as (P1 & P2 & P3 & P4).
  split; [reflexivity|]. split; [reflexivity|].
  split; [exact P2|]. split; [apply rgb_to_hex_hash|].
  split; [exact P3|]. split; [exact P4|].
  rewrite ?Ev. exact P1.
Qed.

Lemma harmony_suggestions_well_formed_witness :
  hex_color "#4d9375" = true
  /\ exists d sugs,
       compute_harmony_suggestions "#4d9375" "tetradic" = Ok d
       /\ suggestions_of d = Some sugs
       /\ forall sug, In sug sugs ->
            hex_color (sug_hex sug) = true
            /\ String.get 0 (sug_hex sug) = Some "#"%char
            /\ String.length (sug_hex sug) = 7%nat.
Proof.
  split; [reflexivity|].
  destruct (harmony_suggestions_well_formed "#4d9375" "tetradic" eq_refl)
    as (d & bh & bs & bl & sugs & E & _ & S & _ & P).
  exists d, sugs. split; [exact E|]. split; [exact S|].
  intros sug Hin. destruct (P sug Hin) as (_ & _ & H & H0 & H7 & _).
  split; [exact H|]. split; [exact H0 | exact H7].
Defined.

(** The clamp of a variation. *)
Lemma clamp_range (x : Q) :
  0 <= max2 0 (min2 100 x) /\ max2 0 (min2 100 x) <= 100
  /\ (0 <= x -> x <= 100 -> max2 0 (min2 100 x) == x).
Proof.
  unfold max2, min2.
  destruct (Qltb x 100) eqn:E1;
    match goal with
    | |- context [Qltb 0 ?y] => destruct (Qltb 0 y) eqn:E2
    end; reflect_cmp; repeat split; try lra; intros; lra.
Qed.

(** X11: On a hex colour there are five variations, each a hash and six
    lower-case digits, seven characters in all; the middle one, at offset
    0, is the base colour itself in canonical form. *)
Theorem harmony_variations (base kind : string) :
  hex_color base = true ->
  exists d r g b v1 v2 v3 v4 v5,
    compute_harmony_suggestions base kind = Ok d
    /\ hex_to_rgb base = Some (r, g, b)
    /\ variations_of d = Some [v1; v2; v3; v4; v5]
    /\ var_hex v3 = rgb_to_hex r g b
    /\ forall v, In v [v1; v2; v3; v4; v5] ->
         hex_color (var_hex v) = true
         /\ String.get 0 (var_hex v) = Some "#"%char
         /\ String.length (var_hex v) = 7%nat
         /\ Py.lower (var_hex v) = var_hex v.
Proof.
  intros Hb.
  destruct (hex_color_parses base Hb) as (r & g & b & Hp & Cr & Cg & Cb).
  destruct (rgb_to_hsl_in_range r g b Cr Cg Cb)
    as (bh & bs & bl & Hc & Hh & Hs & Hl & _).
  rewrite (compute_harmony_suggestions_ok base kind r g b _ Hp Hc). cbn [fst snd].
  assert (W : forall off, exists r' g' b',
            var_hex (vary (bh, bs, bl) off) = rgb_to_hex r' g' b'
            /\ hsl_to_rgb bh bs (max2 0 (min2 100 (bl + off))) = (r', g', b')
            /\ channel r' /\ channel g' /\ channel b').
  { intros off. unfold vary.
    destruct (clamp_range (bl + off)) as (K0 & K1 & _).
    pose proof (hsl_to_rgb_valid bh bs _ Hs (conj K0 K1)) as V.
    destruct (hsl_to_rgb bh bs (max2 0 (min2 100 (bl + off)))) as [[r' g'] b'].
    exists r', g', b'. destruct V as (V1 & V2 & V3). cbn [var_hex]. auto. }
  eexists. exists r, g, b.
  exists (vary (bh, bs, bl) (-20)), (vary (bh, bs, bl) (-10)), (vary (bh, bs, bl) 0),
         (vary (bh, bs, bl) 10), (vary (bh, bs, bl) 20).
  split; [reflexivity|]. split; [exact Hp|]. split; [reflexivity|]. split.
  - destruct (W 0) as (r' & g' & b' & E & Ev & _). rewrite E.
    destruct (clamp_range (bl + 0)) as (_ & _ & K).
    assert (X : max2 0 (min2 100 (bl + 0)) == bl) by (rewrite K; lra).
    rewrite (hsl_to_rgb_of_equal r g b bh bs bl bh bs _ Cr Cg Cb Hc
               (Qeq_refl _) (Qeq_refl _) X) in Ev.
    injection Ev as <- <- <-. reflexivity.
  - intros v Hin.
    assert (Hv : exists off, v = vary (bh, bs, bl) off).
    { cbn [In] in Hin.
      repeat (destruct Hin as [<-|Hin]; [eexists; reflexivity|]). contradiction. }
    destruct Hv as [off ->].
    destruct (W off) as (r' & g' & b' & E & _ & V1 & V2 & V3). rewrite E.
    destruct (rgb_to_hex_parses r' g' b' V1 V2 V3) as (_ & P2 & P3 & P4).
    split; [exact P2|]. split; [apply rgb_to_hex_hash|].
    split; [exact P3 | exact P4].
Qed.

Lemma harmony_variations_witness :
  hex_color "#4D9375" = true
  /\ exists d v1 v2 v3 v4 v5,
       compute_harmony_suggestions "#4D9375" "all" = Ok d
       /\ variations_of d = Some [v1; v2; v3; v4; v5]
       /\ var_hex v3 = "#4d9375"
       /\ forall v, In v [v1; v2; v3; v4; v5] ->
            String.get 0 (var_hex v) = Some "#"%char
            /\ String.length (var_hex v) = 7%nat.
Proof.
  split; [reflexivity|].
  destruct (harmony_variations "#4D9375" "all" eq_refl)
    as (d & r & g & b & v1 & v2 & v3 & v4 & v5 & E & Hp & V & M & P).
  exists d, v1, v2, v3, v4, v5. split; [exact E|]. split; [exact V|].
  split.
  - rewrite M. vm_compute in Hp. injection Hp as <- <- <-. reflexivity.
  - intros v Hin. destruct (P v Hin) as (_ & H0 & H7 & _).
    split; [exact H0 | exact H7].
Defined.

End SuggestionsMore.

(** ** Text colours and contrast bounds *)

Section Accessible.

Import PyQ.
Local Open Scope string_scope.
Local Open Scope R_scope.

Lemma linearize_le_1 (c : R) : 0 <= c <= 255 -> linearize c <= 1.
Proof.
  intros [H0 H1]. unfold linearize.
  destruct (Rle_dec (c / 255) 0.04045) as [Hle|Hgt]; [lra|].
  rewrite <- (Rpower_one 2.4).
  apply Rle_Rpower_l; [lra|]. split.
  - apply Rdiv_lt_0_compat; lra.
  - lra.
Qed.

Lemma relative_luminance_range (r g b : Z) :
  channel r -> channel g -> channel b ->
  0 <= relative_luminance r g b <= 0.9999.
Proof.
  unfold channel. intros Hr Hg Hb.
  split; [apply relative_luminance_nonneg; lia|].
  assert (B : forall v, (0 <= v <= 255)%Z -> linearize (IZR v) <= 1).
  { intros v [V0 V1]. apply linearize_le_1.
    split; [apply (IZR_le 0); exact V0 | apply (IZR_le v 255); exact V1]. }
  pose proof (B r Hr). pose proof (B g Hg). pose proof (B b Hb).
  unfold relative_luminance. lra.
Qed.

Lemma ratio_upper (a b c : R) : 0 < b -> a <= c * b -> a / b <= c.
Proof.
  intros Hb H. apply (Rmult_le_reg_r b); [exact Hb|].
  unfold Rdiv. rewrite Rmult_assoc, Rinv_l by lra. lra.
Qed.

Lemma ratio_lower (a b c : R) : 0 < b -> c * b <= a -> c <= a / b.
Proof.
  intros Hb H. apply (Rmult_le_reg_r b); [exact Hb|].
  unfold Rdiv. rewrite Rmult_assoc, Rinv_l by lra. lra.
Qed.

(** X12: For channels in [[0, 255]] the relative luminance lies between 0 and
    0.9999 (the three weights do not add up to one), so the contrast
    ratio of two such colours lies between 1 and 20.998 and never reaches
    21. *)
Theorem contrast_ratio_range (a b : rgb) :
  rgb_valid a -> rgb_valid b ->
  (let '(r, g, bl) := a in 0 <= relative_luminance r g bl <= 0.9999)
  /\ exists v, contrast_ratio a b = Ok v /\ 1 <= v <= 20.998.
Proof.
  destruct a as [[r1 g1] b1], b as [[r2 g2] b2].
  intros (Hr1 & Hg1 & Hb1) (Hr2 & Hg2 & Hb2).
  pose proof (relative_luminance_range r1 g1 b1 Hr1 Hg1 Hb1) as L1.
  pose proof (relative_luminance_range r2 g2 b2 Hr2 Hg2 Hb2) as L2.
  split; [exact L1|].
  unfold contrast_ratio.
  destruct (contrast_of_luminances _ _ (proj1 L1) (proj1 L2)) as [E Hge].
  eexists. split; [exact E|]. split; [exact Hge|].
  assert (M : Rmax (relative_luminance r1 g1 b1) (relative_luminance r2 g2 b2)
              <= 0.9999) by (apply Rmax_lub; lra).
  assert (m : 0 <= Rmin (relative_luminance r1 g1 b1) (relative_luminance r2 g2 b2))
    by (apply Rmin_glb; lra).
  apply ratio_upper; lra.
Qed.

Lemma contrast_ratio_range_witness :
  rgb_valid (30, 30, 30)%Z /\ rgb_valid (212, 212, 212)%Z
  /\ exists v, contrast_ratio (30, 30, 30)%Z (212, 212, 212)%Z = Ok v
               /\ 1 <= v <= 20.998.
Proof.
  assert (H1 : rgb_valid (30, 30, 30)%Z) by (unfold rgb_valid, channel; lia).
  assert (H2 : rgb_valid (212, 212, 212)%Z) by (unfold rgb_valid, channel; lia).
  split; [exact H1|]. split; [exact H2|].
  exact (proj2 (contrast_ratio_range (30, 30, 30)%Z (212, 212, 212)%Z H1 H2)).
Defined.

(** X13: The text colour for a background: black when the background does not
    parse; otherwise white on a background of luminance below 0.5, with a
    contrast above 1.9 only, and black on any other background, with a
    contrast of at least 11, which is category AAA. *)
Theorem text_color_for_background (bg : string) :
  (hex_to_rgb bg = None -> get_text_color_for_background bg = "#000000")
  /\ forall c, hex_to_rgb bg = Some c -> rgb_valid c ->
       exists t v,
         hex_to_rgb (get_text_color_for_background bg) = Some t
         /\ contrast_ratio t c = Ok v
         /\ ((get_text_color_for_background bg = "#ffffff"
              /\ is_color_dark bg = true /\ 1.9 < v)
             \/ (get_text_color_for_background bg = "#000000"
                 /\ is_color_dark bg = false /\ 11 <= v
                 /\ get_contrast_category v = "AAA")).
Proof.
  unfold get_text_color_for_background, is_color_dark. split.
  - intros ->. reflexivity.
  - intros [[r g] b] -> (Hr & Hg & Hb).
    pose proof (relative_luminance_range r g b Hr Hg Hb) as [L0 L1].
    assert (Ew : relative_luminance 255 255 255 = 0.9999).
    { unfold relative_luminance. rewrite linearize_255. lra. }
    assert (Eb : relative_luminance 0 0 0 = 0).
    { unfold relative_luminance. rewrite linearize_0. lra. }
    destruct (Rlt_dec (relative_luminance r g b) 0.5) as [Hd|Hl].
    + exists (255, 255, 255)%Z. eexists.
      split; [reflexivity|]. unfold contrast_ratio. rewrite Ew.
      rewrite Rmax_left, Rmin_right by lra. rewrite rdiv_ok by lra.
      split; [reflexivity|]. left. split; [reflexivity|]. split; [reflexivity|].
      apply Rlt_le_trans with (1.0499 / 0.55); [lra|].
      apply ratio_lower; [lra|]. 
      unfold Rdiv. rewrite Rmult_assoc.
      assert (X : / 0.55 * (relative_luminance r g b + 0.05) <= 1).
      { apply (Rmult_le_reg_l 0.55); [lra|]. rewrite <- Rmult_assoc, Rinv_r by lra. lra. }
      nra.
    + exists (0, 0, 0)%Z. eexists.
      split; [reflexivity|]. unfold contrast_ratio. rewrite Eb.
      rewrite Rmax_right, Rmin_left by lra. rewrite rdiv_ok by lra.
      split; [reflexivity|]. right. split; [reflexivity|]. split; [reflexivity|].
      assert (V : 11 <= (relative_luminance r g b + 0.05) / (0 + 0.05))
        by (apply ratio_lower; lra).
      split; [exact V|].
      unfold get_contrast_category.
      destruct (Rge_dec _ 7.0) as [_|N]; [reflexivity|]. exfalso. apply N. lra.
Qed.

Lemma text_color_for_background_witness :
  hex_to_rgb "#1e1e1e" = Some (30, 30, 30)%Z /\ rgb_valid (30, 30, 30)%Z
  /\ exists t v,
       hex_to_rgb (get_text_color_for_background "#1e1e1e") = Some t
       /\ contrast_ratio t (30, 30, 30)%Z = Ok v.
Proof.
  assert (H1 : hex_to_rgb "#1e1e1e" = Some (30, 30, 30)%Z) by reflexivity.
  assert (H2 : rgb_valid (30, 30, 30)%Z) by (unfold rgb_valid, channel; lia).
  split; [exact H1|]. split; [exact H2|].
  destruct (proj2 (text_color_for_background "#1e1e1e") _ H1 H2)
    as (t & v & E1 & E2 & _).
  exists t, v. split; [exact E1|exact E2].
Defined.

End Accessible.

(** ** The swatch text colour *)

Section Swatch.

Import PyQ.
Local Open Scope string_scope.

Lemma slice_short (s : string) (i j : nat) :
  (String.length s <= i)%nat -> Py.slice s i j = "".
Proof.
  unfold Py.slice. generalize (j - i)%nat as n. revert i.
  induction s as [|c s IH]; intros i n H.
  - destruct i, n; reflexivity.
  - destruct i as [|i]; [cbn in H; lia|].
    cbn [substring]. apply IH. cbn in H. lia.
Qed.

Lemma length_slice_prefix (s : string) (n : nat) :
  (String.length (Py.slice s 0 n) <= String.length s)%nat.
Proof.
  unfold Py.slice. rewrite Nat.sub_0_r. revert n.
  induction s as [|c s IH]; intros [|n]; cbn; try lia.
  specialize (IH n). lia.
Qed.

(** X14: [swatch_text_color] raises whenever fewer than five characters are
    left once the leading hashes are stripped: the blue slice is empty
    and [int] refuses it. *)
Theorem swatch_text_color_raises (s : string) :
  (String.length (Py.lstrip_hash s) <= 4)%nat ->
  swatch_text_color s = None.
Proof.
  intros H. unfold swatch_text_color.
  rewrite (slice_short (Py.slice (Py.lstrip_hash s) 0 6) 4 6).
  - change (Py.int16 "") with (@None Z).
    destruct (Py.int16 _); [destruct (Py.int16 _)|]; reflexivity.
  - pose proof (length_slice_prefix (Py.lstrip_hash s) 6). lia.
Qed.

Lemma swatch_text_color_raises_witness :
  (String.length (Py.lstrip_hash "#fff") <= 4)%nat
  /\ swatch_text_color "#fff" = None.
Proof.
  assert (H : (String.length (Py.lstrip_hash "#fff") <= 4)%nat) by (cbn; lia).
  split; [exact H|]. apply (swatch_text_color_raises "#fff" H).
Defined.

(** The answer on the hex string of three channels, by the weighted sum
    of the channels. *)
Lemma swatch_of_rgb_to_hex (r g b : Z) :
  channel r -> channel g -> channel b ->
  swatch_text_color (rgb_to_hex r g b)
  = Some (if (1275000 <? 2126 * r + 7151 * g + 722 * b)%Z
          then "#000000" else "#ffffff").
Proof.
  intros Hr Hg Hb.
  destruct (format_02x_channel r Hr) as (c1 & c2 & Er & H1 & _ & _ & _ & Ir).
  destruct (format_02x_channel g Hg) as (c3 & c4 & Eg & _ & _ & _ & _ & Ig).
  destruct (format_02x_channel b Hb) as (c5 & c6 & Eb & _ & _ & _ & _ & Ib).
  unfold rgb_to_hex, swatch_text_color. rewrite Er, Eg, Eb. cbn [append].
  cbn [Py.lstrip_hash Ascii.eqb Bool.eqb]. rewrite (hex_digit_not_hash c1 H1).
  cbn [Py.slice Nat.sub substring]. rewrite Ir, Ig, Ib. f_equal.
  destruct (1275000 <? 2126 * r + 7151 * g + 722 * b)%Z eqn:E.
  - apply Z.ltb_lt in E.
    assert (X : Qltb 0.5 ((0.2126 * inject_Z r + 0.7151 * inject_Z g
                           + 0.0722 * inject_Z b) / 255) = true);
      [|rewrite X; reflexivity].
    apply Qltb_lt.
    assert (Y : inject_Z 1275000 < inject_Z (2126 * r + 7151 * g + 722 * b))
      by (rewrite <- Zlt_Qlt; exact E).
    rewrite !inject_Z_plus, !inject_Z_mult in Y.
    apply Qlt_shift_div_l; [reflexivity|].
    change (inject_Z 1275000) with 1275000%Q in Y.
    change (inject_Z 2126) with 2126%Q in Y.
    change (inject_Z 7151) with 7151%Q in Y.
    change (inject_Z 722) with 722%Q in Y.
    lra.
  - apply Z.ltb_ge in E.
    assert (X : Qltb 0.5 ((0.2126 * inject_Z r + 0.7151 * inject_Z g
                           + 0.0722 * inject_Z b) / 255) = false);
      [|rewrite X; reflexivity].
    apply Qltb_ge.
    assert (Y : inject_Z (2126 * r + 7151 * g + 722 * b) <= inject_Z 1275000)
      by (rewrite <- Zle_Qle; exact E).
    rewrite !inject_Z_plus, !inject_Z_mult in Y.
    apply Qle_shift_div_r; [reflexivity|].
    change (inject_Z 1275000) with 1275000%Q in Y.
    change (inject_Z 2126) with 2126%Q in Y.
    change (inject_Z 7151) with 7151%Q in Y.
    change (inject_Z 722) with 722%Q in Y.
    lra.
Qed.

(** X15: On the hex string of three channels in [[0, 255]],
    [swatch_text_color] answers black when [2126 r + 7151 g + 722 b]
    exceeds [1275000] and white when it stays below. *)
Theorem swatch_text_color_weighted (r g b : Z) :
  channel r -> channel g -> channel b ->
  ((1275000 < 2126 * r + 7151 * g + 722 * b)%Z ->
   swatch_text_color (rgb_to_hex r g b) = Some "#000000")
  /\ ((2126 * r + 7151 * g + 722 * b < 1275000)%Z ->
      swatch_text_color (rgb_to_hex r g b) = Some "#ffffff").
Proof.
  intros Hr Hg Hb. rewrite (swatch_of_rgb_to_hex r g b Hr Hg Hb). split; intros H.
  - assert (E : (1275000 <? 2126 * r + 7151 * g + 722 * b)%Z = true)
      by (apply Z.ltb_lt; exact H).
    rewrite E. reflexivity.
  - assert (E : (1275000 <? 2126 * r + 7151 * g + 722 * b)%Z = false)
      by (apply Z.ltb_ge; lia).
    rewrite E. reflexivity.
Qed.

Lemma swatch_text_color_weighted_witness :
  channel 77 /\ channel 147 /\ channel 117
  /\ (1275000 < 2126 * 77 + 7151 * 147 + 722 * 117)%Z
  /\ swatch_text_color (rgb_to_hex 77 147 117) = Some "#000000".
Proof.
  assert (H1 : channel 77) by (unfold channel; lia).
  assert (H2 : channel 147) by (unfold channel; lia).
  assert (H3 : channel 117) by (unfold channel; lia).
  assert (H4 : (1275000 < 2126 * 77 + 7151 * 147 + 722 * 117)%Z) by lia.
  split; [exact H1|]. split; [exact H2|]. split; [exact H3|]. split; [exact H4|].
  exact (proj1 (swatch_text_color_weighted 77 147 117 H1 H2 H3) H4).
Defined.

End Swatch.

(** ** The two text-colour pickers compared *)

Section Pickers.

Import PyQ.
Local Open Scope string_scope.
Local Open Scope R_scope.

Lemma Rpower_2 (x : R) : 0 < x -> Rpower x 2 = x * x.
Proof.
  intros H. replace 2 with (1 + 1) by lra.
  rewrite Rpower_plus, Rpower_1 by exact H. reflexivity.
Qed.

(** Below one, the exponent 2.4 gives less than the square. *)
Lemma Rpower_24_lt_square (x : R) : 0 < x < 1 -> Rpower x 2.4 < x * x.
Proof.
  intros [H0 H1]. rewrite <- (Rpower_2 x H0). unfold Rpower.
  apply exp_increasing.
  assert (L : ln x < 0) by (rewrite <- ln_1; apply ln_increasing; lra).
  nra.
Qed.

Lemma mid_grey_dark (v : Z) :
  (128 <= v <= 176)%Z -> relative_luminance v v v < 0.5.
Proof.
  intros [V0 V1].
  assert (R0 : 128 <= IZR v) by (apply (IZR_le 128); exact V0).
  assert (R1 : IZR v <= 176) by (apply (IZR_le v 176); exact V1).
  unfold relative_luminance, linearize.
  destruct (Rle_dec (IZR v / 255) 0.04045) as [Hle|_]; [lra|].
  set (x := (IZR v / 255 + 0.055) / 1.055).
  assert (X0 : 0 < x) by (unfold x; apply Rdiv_lt_0_compat; lra).
  assert (X1 : x <= 0.7064) by (unfold x; lra).
  assert (P : Rpower x 2.4 < x * x) by (apply Rpower_24_lt_square; lra).
  assert (Q : x * x <= 0.7064 * 0.7064) by nra.
  lra.
Qed.

(** X16: On the mid greys from [#808080] to [#b0b0b0] the two pickers
    disagree: [swatch_text_color] weighs the raw channels and answers
    black, [get_text_color_for_background] weighs the linearised
    channels and answers white. *)
Theorem text_pickers_disagree (v : Z) :
  (128 <= v <= 176)%Z ->
  swatch_text_color (rgb_to_hex v v v) = Some "#000000"
  /\ get_text_color_for_background (rgb_to_hex v v v) = "#ffffff".
Proof.
  intros Hv. assert (Cv : channel v) by (unfold channel; lia). split.
  - rewrite (swatch_of_rgb_to_hex v v v Cv Cv Cv).
    assert (E : (1275000 <? 2126 * v + 7151 * v + 722 * v)%Z = true)
      by (apply Z.ltb_lt; lia).
    rewrite E. reflexivity.
  - unfold get_text_color_for_background, is_color_dark.
    rewrite (proj1 (rgb_to_hex_parses v v v Cv Cv Cv)).
    destruct (Rlt_dec (relative_luminance v v v) 0.5) as [_|N]; [reflexivity|].
    exfalso. apply N. apply mid_grey_dark. exact Hv.
Qed.

Lemma text_pickers_disagree_witness :
  (128 <= 128 <= 176)%Z
  /\ swatch_text_color "#808080" = Some "#000000"
  /\ get_text_color_for_background "#808080" = "#ffffff".
Proof.
  assert (H : (128 <= 128 <= 176)%Z) by lia.
  split; [exact H|].
  exact (text_pickers_disagree 128 H).
Defined.

End Pickers.

(** ** Colours extracted from a theme *)

Section ThemeExtraction.

Import PyQ.
Local Open Scope string_scope.

Lemma in_dict_set {V : Type} (d : pydict V) (k0 : string) (v0 : V) (k : string) (v : V) :
  In (k, v) (dict_set d k0 v0) -> (k = k0 /\ v = v0) \/ In (k, v) d.
Proof.
  induction d as [|[k' v'] r IH]; cbn [dict_set].
  - intros [E|[]]. injection E as <- <-. left. split; reflexivity.
  - destruct (String.eqb k' k0) eqn:E.
    + intros [H|H]; [injection H as <- <-; left; split; reflexivity|].
      right. right. exact H.
    + intros [H|H]; [right; left; exact H|].
      destruct (IH H) as [?|?]; [left; assumption|right; right; assumption].
Qed.

Lemma dict_keys_set {V : Type} (d : pydict V) (k0 : string) (v0 : V) :
  dict_keys (dict_set d k0 v0)
  = if existsb (String.eqb k0) (dict_keys d) then dict_keys d
    else (dict_keys d ++ [k0])%list.
Proof.
  unfold dict_keys. induction d as [|[k' v'] r IH]; cbn [dict_set map existsb fst app].
  - reflexivity.
  - rewrite (String.eqb_sym k0 k'). destruct (String.eqb k' k0) eqn:E.
    + apply String.eqb_eq in E. subst k'. reflexivity.
    + cbn [map fst orb]. rewrite IH.
      destruct (existsb (String.eqb k0) (map fst r)); reflexivity.
Qed.

Lemma existsb_eqb_in (k : string) (l : list string) :
  existsb (String.eqb k) l = true <-> In k l.
Proof.
  rewrite existsb_exists. split.
  - intros (x & Hin & E). apply String.eqb_eq in E. subst x. exact Hin.
  - intros H. exists k. split; [exact H|apply String.eqb_refl].
Qed.

Lemma in_dict_keys_set {V : Type} (d : pydict V) (k0 : string) (v0 : V) (k : string) :
  In k (dict_keys (dict_set d k0 v0)) <-> In k (dict_keys d) \/ k = k0.
Proof.
  rewrite dict_keys_set.
  destruct (existsb (String.eqb k0) (dict_keys d)) eqn:E.
  - apply existsb_eqb_in in E. split; [auto|]. intros [H| ->]; assumption.
  - rewrite in_app_iff. cbn [In]. split.
    + intros [H|[<-|[]]]; auto.
    + intros [H| ->]; auto.
Qed.

Lemma dict_set_nodup {V : Type} (d : pydict V) (k0 : string) (v0 : V) :
  NoDup (dict_keys d) -> NoDup (dict_keys (dict_set d k0 v0)).
Proof.
  intros H. rewrite dict_keys_set.
  destruct (existsb (String.eqb k0) (dict_keys d)) eqn:E; [exact H|].
  apply NoDup_app; [exact H|repeat constructor; intros []|].
  intros x Hx [<-|[]].
  apply existsb_eqb_in in Hx. congruence.
Qed.

(** What [enrich] stores for a value that parses. *)
Lemma enrich_some (val : jval) (c : color_info) :
  enrich val = Ok (Some c) ->
  val = JStr (hex c)
  /\ exists r g b,
       info_rgb c = (r, g, b) /\ hex_to_rgb (hex c) = Some (r, g, b)
       /\ rgb_to_hsl r g b = Ok (info_hsl c) /\ info_lab c = rgb_to_lab r g b.
Proof.
  destruct val as [s|]; cbn [enrich]; [|discriminate].
  destruct (hex_to_rgb s) as [[[r g] b]|] eqn:E; [|discriminate].
  destruct (rgb_to_hsl r g b) as [h|] eqn:Eh; [|discriminate].
  cbn [bind]. intros X. injection X as <-. cbn [hex info_rgb info_hsl info_lab].
  split; [reflexivity|]. exists r, g, b. auto.
Qed.

Lemma enrich_none (val : jval) :
  enrich val = Ok None <-> hex_to_rgb_val val = None.
Proof.
  destruct val as [s|]; cbn [enrich hex_to_rgb_val]; [|split; reflexivity].
  destruct (hex_to_rgb s) as [[[r g] b]|]; [|split; reflexivity].
  destruct (rgb_to_hsl r g b); cbn [bind]; split; discriminate.
Qed.

Lemma fold_result_inv {A S : Type} (P : S -> Prop) (step : S -> A -> result S)
    (xs : list A) :
  (forall a x a', P a -> In x xs -> step a x = Ok a' -> P a') ->
  forall acc res, P acc -> fold_result step xs acc = Ok res -> P res.
Proof.
  induction xs as [|x r IH]; intros Hstep acc res Hacc; cbn [fold_result].
  - intros E. injection E as <-. exact Hacc.
  - destruct (step acc x) as [acc'|] eqn:E; [|discriminate]. cbn [bind].
    apply IH.
    + intros a y a' Ha Hy. apply Hstep; [exact Ha|right; exact Hy].
    + apply (Hstep acc x acc' Hacc); [left; reflexivity|exact E].
Qed.

Lemma enrich_hex_color (s : string) :
  hex_color s = true -> exists c, enrich (JStr s) = Ok (Some c) /\ hex c = s.
Proof.
  intros H. destruct (hex_color_parses s H) as (r & g & b & Hp & Cr & Cg & Cb).
  destruct (rgb_to_hsl_total r g b Cr Cg Cb) as [c Ec].
  cbn [enrich]. rewrite Hp, Ec. cbn [bind]. eexists. split; reflexivity.
Qed.

Lemma sample_theme_extracts :
  exists ui syn,
    extract_colors sample_theme = Ok ui
    /\ extract_syntax_colors sample_theme = Ok syn
    /\ dict_keys ui = ["editor.background"]
    /\ dict_keys syn = ["keyword"; "storage"; "semantic:variable"].
Proof.
  destruct (enrich_hex_color "#1e1e1e" eq_refl) as (c1 & E1 & _).
  destruct (enrich_hex_color "#569cd6" eq_refl) as (c2 & E2 & _).
  destruct (enrich_hex_color "#9cdcfe" eq_refl) as (c3 & E3 & _).
  unfold extract_colors, extract_syntax_colors, sample_theme.
  cbn [colors tokenColors semanticTokenColors fold_result foreground scope].
  rewrite E1, E2. cbn [bind fold_result fold_left dict_set].
  rewrite E3. cbn [bind fold_result fold_left dict_set String.eqb Ascii.eqb Bool.eqb].
  eexists. eexists. repeat split.
Qed.

(** X17: Every record [extract_colors] returns is consistent: its hex string
    is a string value the theme gives for that key, it parses to the
    stored channels, and the stored HSL and Lab triples are those of the
    channels; no key occurs twice. *)
Theorem extract_colors_records (th : theme) (d : pydict color_info) :
  extract_colors th = Ok d ->
  NoDup (dict_keys d)
  /\ forall key c, In (key, c) d ->
       (exists cs, colors th = Some cs /\ In (key, JStr (hex c)) cs)
       /\ exists r g b,
            info_rgb c = (r, g, b) /\ hex_to_rgb (hex c) = Some (r, g, b)
            /\ rgb_to_hsl r g b = Ok (info_hsl c) /\ info_lab c = rgb_to_lab r g b.
Proof.
  unfold extract_colors.
  set (cs := match colors th with Some d => d | None => [] end).
  assert (Hcs : forall kv, In kv cs -> colors th = Some cs).
  { unfold cs. destruct (colors th); [reflexivity|intros ? []]. }
  intros E0. pattern d. refine (fold_result_inv _ _ _ _ [] d _ E0).
  - intros a [key val] a' [Hn Ha] Hin. cbn beta iota.
    destruct (enrich val) as [[c|]|] eqn:E; cbn [bind]; [| |discriminate];
      intros X; injection X as <-; [|split; assumption].
    split; [apply dict_set_nodup; exact Hn|].
    intros k c' Hk. apply in_dict_set in Hk. destruct Hk as [[-> ->]|Hk].
    + destruct (enrich_some _ _ E) as [-> Hc]. split; [|exact Hc].
      exists cs. split; [exact (Hcs _ Hin)|exact Hin].
    + apply Ha. exact Hk.
  - split; [constructor|intros ? ? []].
Qed.

Lemma extract_colors_records_witness :
  exists ui, extract_colors sample_theme = Ok ui /\ NoDup (dict_keys ui).
Proof.
  destruct sample_theme_extracts as (ui & syn & Eu & Es & _).
  exists ui. split; [exact Eu|].
  exact (proj1 (extract_colors_records sample_theme ui Eu)).
Defined.

Lemma in_fold_dict_set {V : Type} (scopes : list string) (c : V) (acc : pydict V)
    (k : string) (v : V) :
  In (k, v) (fold_left (fun a sc => dict_set a sc c) scopes acc) ->
  (In k scopes /\ v = c) \/ In (k, v) acc.
Proof.
  revert acc. induction scopes as [|sc r IH]; intros acc; cbn [fold_left].
  - auto.
  - intros H. destruct (IH _ H) as [[? ?]|H'].
    + left. split; [right; assumption|assumption].
    + apply in_dict_set in H'. destruct H' as [[-> ->]|?];
        [left; split; [left; reflexivity|reflexivity]|right; assumption].
Qed.

Lemma fold_dict_set_nodup {V : Type} (scopes : list string) (c : V) (acc : pydict V) :
  NoDup (dict_keys acc) ->
  NoDup (dict_keys (fold_left (fun a sc => dict_set a sc c) scopes acc)).
Proof.
  revert acc. induction scopes as [|sc r IH]; intros acc H; cbn [fold_left].
  - exact H.
  - apply IH. apply dict_set_nodup. exact H.
Qed.

(** X18: Every record [extract_syntax_colors] returns is consistent (its
    hex string parses to the stored channels, and the stored HSL and Lab
    triples are those of the channels) and stands under a scope of a
    token whose foreground is its hex string, or under
    ["semantic:" + key] for a semantic token colour that is its hex
    string; no key occurs twice. *)
Theorem extract_syntax_colors_records (th : theme) (d : pydict color_info) :
  extract_syntax_colors th = Ok d ->
  NoDup (dict_keys d)
  /\ forall key c, In (key, c) d ->
       ((exists toks tok,
           tokenColors th = Some toks /\ In tok toks
           /\ foreground tok = Some (JStr (hex c))
           /\ match scope tok with
              | ScopeStr s => key = s
              | ScopeList l => In key l
              end)
        \/ (exists sem k,
              semanticTokenColors th = Some sem /\ In (k, JStr (hex c)) sem
              /\ key = "semantic:" ++ k))
       /\ exists r g b,
            info_rgb c = (r, g, b) /\ hex_to_rgb (hex c) = Some (r, g, b)
            /\ rgb_to_hsl r g b = Ok (info_hsl c) /\ info_lab c = rgb_to_lab r g b.
Proof.
  unfold extract_syntax_colors.
  set (toks := match tokenColors th with Some l => l | None => [] end).
  set (sem := match semanticTokenColors th with Some l => l | None => [] end).
  assert (Htoks : forall t, In t toks -> tokenColors th = Some toks).
  { unfold toks. destruct (tokenColors th); [reflexivity|intros ? []]. }
  assert (Hsem : forall t, In t sem -> semanticTokenColors th = Some sem).
  { unfold sem. destruct (semanticTokenColors th); [reflexivity|intros ? []]. }
  match goal with
  | |- bind (fold_result ?step _ _) _ = _ -> _ =>
      destruct (fold_result step toks []) as [acc|] eqn:E1; [|discriminate]
  end.
  cbn [bind]. intros E2. pattern d. refine (fold_result_inv _ _ _ _ acc d _ E2).
  - intros a [k val] a' [Hn Ha] Hin. cbn beta iota.
    destruct (enrich val) as [[c|]|] eqn:E; cbn [bind]; [| |discriminate];
      intros X; injection X as <-; [|split; assumption].
    split; [apply dict_set_nodup; exact Hn|].
    intros key c' Hk. apply in_dict_set in Hk. destruct Hk as [[-> ->]|Hk].
    + destruct (enrich_some _ _ E) as [-> Hc]. split; [|exact Hc].
      right. exists sem, k. split; [exact (Hsem _ Hin)|]. split; [exact Hin|reflexivity].
    + apply Ha. exact Hk.
  - pattern acc. refine (fold_result_inv _ _ _ _ [] acc _ E1).
    + intros a tok a' [Hn Ha] Hin. cbn beta.
      destruct (foreground tok) as [fg|] eqn:Ef;
        [|intros X; injection X as <-; split; assumption].
      destruct (enrich fg) as [[c|]|] eqn:E; cbn [bind]; [| |discriminate];
        intros X; injection X as <-; [|split; assumption].
      split; [apply fold_dict_set_nodup; exact Hn|].
      intros key c' Hk. apply in_fold_dict_set in Hk. destruct Hk as [[Hs ->]|Hk].
      * destruct (enrich_some _ _ E) as [-> Hc]. split; [|exact Hc].
        left. exists toks, tok. split; [exact (Htoks _ Hin)|]. split; [exact Hin|].
        split; [exact Ef|].
        destruct (scope tok); [destruct Hs as [<-|[]]; reflexivity|exact Hs].
      * apply Ha. exact Hk.
    + split; [constructor|intros ? ? []].
Qed.

Lemma extract_syntax_colors_records_witness :
  exists syn, extract_syntax_colors sample_theme = Ok syn /\ NoDup (dict_keys syn).
Proof.
  destruct sample_theme_extracts as (ui & syn & Eu & Es & _).
  exists syn. split; [exact Es|].
  exact (proj1 (extract_syntax_colors_records sample_theme syn Es)).
Defined.


Local Open Scope Q_scope.

Lemma scaled_le (a b : Z) : (a <= b)%Z -> inject_Z a / 255 <= inject_Z b / 255.
Proof.
  intros H. unfold Qdiv. apply Qmult_le_compat_r; [|discriminate].
  rewrite <- Zle_Qle. exact H.
Qed.

Lemma scaled_lt (a b : Z) : (a < b)%Z -> inject_Z a / 255 < inject_Z b / 255.
Proof.
  intros H. unfold Qdiv. apply Qmult_lt_compat_r; [reflexivity|].
  rewrite <- Zlt_Qlt. exact H.
Qed.

(** The largest and the smallest of the scaled channels are the scaled
    largest and smallest channel. *)
Lemma max3_min3_scaled (r g b : Z) :
  max3 (inject_Z r / 255) (inject_Z g / 255) (inject_Z b / 255)
  == inject_Z (Z.max r (Z.max g b)) / 255
  /\ min3 (inject_Z r / 255) (inject_Z g / 255) (inject_Z b / 255)
     == inject_Z (Z.min r (Z.min g b)) / 255.
Proof.
  pose proof (max3_min3_each (inject_Z r / 255) (inject_Z g / 255) (inject_Z b / 255))
    as ((m1 & m2 & m3) & (M1 & M2 & M3)).
  pose proof (max3_min3_attained (inject_Z r / 255) (inject_Z g / 255)
                                 (inject_Z b / 255)) as (Am & AM).
  pose proof (scaled_le r (Z.max r (Z.max g b)) ltac:(lia)) as Z1.
  pose proof (scaled_le g (Z.max r (Z.max g b)) ltac:(lia)) as Z2.
  pose proof (scaled_le b (Z.max r (Z.max g b)) ltac:(lia)) as Z3.
  pose proof (scaled_le (Z.min r (Z.min g b)) r ltac:(lia)) as z1.
  pose proof (scaled_le (Z.min r (Z.min g b)) g ltac:(lia)) as z2.
  pose proof (scaled_le (Z.min r (Z.min g b)) b ltac:(lia)) as z3.
  assert (BM : Z.max r (Z.max g b) = r \/ Z.max r (Z.max g b) = g
               \/ Z.max r (Z.max g b) = b) by lia.
  assert (Bm : Z.min r (Z.min g b) = r \/ Z.min r (Z.min g b) = g
               \/ Z.min r (Z.min g b) = b) by lia.
  revert Z1 Z2 Z3 z1 z2 z3 BM Bm.
  generalize (Z.max r (Z.max g b)) as M, (Z.min r (Z.min g b)) as m.
  intros M m Z1 Z2 Z3 z1 z2 z3 BM Bm.
  revert m1 m2 m3 M1 M2 M3 Am AM Z1 Z2 Z3 z1 z2 z3.
  generalize (max3 (inject_Z r / 255) (inject_Z g / 255) (inject_Z b / 255)) as X,
             (min3 (inject_Z r / 255) (inject_Z g / 255) (inject_Z b / 255)) as x.
  intros X x m1 m2 m3 M1 M2 M3 Am AM Z1 Z2 Z3 z1 z2 z3.
  split.
  - clear Bm Am. destruct BM as [->|[->| ->]];
      destruct AM as [AM|[AM|AM]]; lra.
  - clear BM AM. destruct Bm as [->|[->| ->]];
      destruct Am as [Am|[Am|Am]]; lra.
Qed.

(** [rgb_to_hsl] raises [ZeroDivisionError] on channels that are not all
    equal and whose largest and smallest add up to zero. *)
Lemma rgb_to_hsl_zero_sum (r g b : Z) :
  (Z.max r (Z.max g b) + Z.min r (Z.min g b) = 0)%Z ->
  (Z.min r (Z.min g b) < Z.max r (Z.max g b))%Z ->
  rgb_to_hsl r g b = Raise ZeroDivisionError.
Proof.
  intros Hsum Hlt. unfold rgb_to_hsl, Colorsys.rgb_to_hls.
  destruct (max3_min3_scaled r g b) as [EM Em].
  pose proof (scaled_lt _ _ Hlt) as L.
  set (X := max3 _ _ _) in *. set (x := min3 _ _ _) in *.
  assert (S0 : X + x == 0).
  { rewrite EM, Em.
    transitivity (inject_Z (Z.max r (Z.max g b) + Z.min r (Z.min g b)) / 255);
      [rewrite inject_Z_plus; field|rewrite Hsum; reflexivity]. }
  assert (N : Qeq_bool x X = false).
  { apply Qeq_bool_false. rewrite EM, Em. intros C. rewrite C in L.
    exact (Qlt_irrefl _ L). }
  rewrite N.
  assert (T : Qle_bool ((X + x) / 2) (1 # 2) = true).
  { apply Qle_bool_iff. rewrite S0. discriminate. }
  rewrite T. unfold div at 1.
  assert (Z0 : Qeq_bool (X + x) 0 = true) by (apply Qeq_bool_iff; exact S0).
  rewrite Z0. reflexivity.
Qed.

Lemma fold_result_raises {A S : Type} (step : S -> A -> result S) (xs : list A)
    (x : A) :
  In x xs -> (forall a, step a x = Raise ZeroDivisionError) ->
  forall acc, fold_result step xs acc = Raise ZeroDivisionError.
Proof.
  intros Hin Hx. induction xs as [|y r IH]; [destruct Hin|].
  intros acc. cbn [fold_result].
  destruct (step acc y) as [acc'|[]] eqn:E; cbn [bind]; [|reflexivity].
  destruct Hin as [->|Hin]; [rewrite Hx in E; discriminate|].
  apply IH. exact Hin.
Qed.

(** X19: A colour of the theme that [hex_to_rgb] accepts with channels, not
    all equal, whose largest and smallest add up to zero (a signed pair
    such as ["+f"] and ["-f"]) makes [extract_colors] raise
    [ZeroDivisionError]. *)
Theorem extract_colors_raises (th : theme) (cs : pydict jval) (key s : string)
    (r g b : Z) :
  colors th = Some cs -> In (key, JStr s) cs ->
  hex_to_rgb s = Some (r, g, b) ->
  (Z.max r (Z.max g b) + Z.min r (Z.min g b) = 0)%Z ->
  (Z.min r (Z.min g b) < Z.max r (Z.max g b))%Z ->
  extract_colors th = Raise ZeroDivisionError.
Proof.
  intros Hcs Hin Hp Hsum Hlt. unfold extract_colors. rewrite Hcs.
  apply (fold_result_raises _ _ _ Hin). intros a. cbn [enrich].
  rewrite Hp, (rgb_to_hsl_zero_sum r g b Hsum Hlt). reflexivity.
Qed.

Lemma extract_colors_raises_witness :
  hex_to_rgb "+f-f00" = Some (15, -15, 0)%Z
  /\ extract_colors {| colors := Some [("editor.background", JStr "+f-f00")];
                       tokenColors := None; semanticTokenColors := None |}
     = Raise ZeroDivisionError.
Proof.
  split; [reflexivity|].
  apply (extract_colors_raises
           {| colors := Some [("editor.background", JStr "+f-f00")];
              tokenColors := None; semanticTokenColors := None |}
           [("editor.background", JStr "+f-f00")]
           "editor.background" "+f-f00" 15 (-15) 0 eq_refl);
    [left; reflexivity|reflexivity|reflexivity|reflexivity].
Defined.

Lemma colours_fold_total (cs : pydict jval) :
  (forall key s r g b,
     In (key, JStr s) cs ->
     hex_to_rgb s = Some (r, g, b) -> channel r /\ channel g /\ channel b) ->
  forall acc, exists d,
    fold_result
      (fun acc kv =>
         let '(key, val) := kv in
         info <- enrich val ;;
         match info with
         | Some c => Ok (dict_set acc key c)
         | None => Ok acc
         end) cs acc = Ok d
    /\ forall key, In key (dict_keys d) <->
         In key (dict_keys acc)
         \/ exists s, In (key, JStr s) cs /\ hex_to_rgb s <> None.
Proof.
  induction cs as [|[k val] rest IH]; intros Hv acc; cbn [fold_result].
  - exists acc. split; [reflexivity|]. intros key. split; [auto|].
    intros [H|(s & Hf & _)]; [exact H|destruct Hf].
  - assert (Hrest : forall key s r g b, In (key, JStr s) rest ->
              hex_to_rgb s = Some (r, g, b) -> channel r /\ channel g /\ channel b).
    { intros key s r g b Hin. apply (Hv key s r g b). apply in_cons. exact Hin. }
    specialize (IH Hrest).
    destruct val as [s|]; cbn [enrich].
    + destruct (hex_to_rgb s) as [[[r g] b]|] eqn:Ep.
      * destruct (Hv k s r g b (or_introl eq_refl) Ep) as (Cr & Cg & Cb).
        destruct (rgb_to_hsl_total r g b Cr Cg Cb) as [c Ec]. rewrite Ec.
        cbn [bind].
        destruct (IH (dict_set acc k
                        {| hex := s; info_rgb := (r, g, b); info_hsl := c;
                           info_lab := rgb_to_lab r g b |})) as (d & Ed & Hd).
        exists d. split; [exact Ed|]. intros key. rewrite Hd, in_dict_keys_set.
        split.
        -- intros [[H| ->]|(s' & Hin & Hs')].
           ++ left. exact H.
           ++ right. exists s. split; [left; reflexivity|congruence].
           ++ right. exists s'. split; [right; exact Hin|exact Hs'].
        -- intros [H|(s' & [E|Hin] & Hs')].
           ++ left. left. exact H.
           ++ injection E as <- <-. left. right. reflexivity.
           ++ right. exists s'. split; assumption.
      * cbn [bind]. destruct (IH acc) as (d & Ed & Hd).
        exists d. split; [exact Ed|]. intros key. rewrite Hd. split.
        -- intros [H|(s' & Hin & Hs')]; [left; exact H|].
           right. exists s'. split; [right; exact Hin|exact Hs'].
        -- intros [H|(s' & [E|Hin] & Hs')]; [left; exact H| |].
           ++ injection E as <- <-. congruence.
           ++ right. exists s'. split; assumption.
    + cbn [bind]. destruct (IH acc) as (d & Ed & Hd).
      exists d. split; [exact Ed|]. intros key. rewrite Hd. split.
      * intros [H|(s' & Hin & Hs')]; [left; exact H|].
        right. exists s'. split; [right; exact Hin|exact Hs'].
      * intros [H|(s' & [E|Hin] & Hs')]; [left; exact H|discriminate|].
        right. exists s'. split; assumption.
Qed.

(** X20: When every colour of the theme that parses has its channels in
    [[0, 255]], [extract_colors] returns, and its keys are exactly the
    keys of the theme that have a value that parses. *)
Theorem extract_colors_total (th : theme) :
  (forall key s r g b,
     In (key, JStr s) (match colors th with Some d => d | None => [] end) ->
     hex_to_rgb s = Some (r, g, b) -> channel r /\ channel g /\ channel b) ->
  exists d,
    extract_colors th = Ok d
    /\ forall key, In key (dict_keys d) <->
         exists s, In (key, JStr s) (match colors th with Some d => d | None => [] end)
                   /\ hex_to_rgb s <> None.
Proof.
  intros Hv. unfold extract_colors.
  destruct (colours_fold_total _ Hv []) as (d & Ed & Hd).
  exists d. split; [exact Ed|].
  intros key. rewrite Hd. split; [intros [[]|H]; exact H|auto].
Qed.

Lemma extract_colors_total_witness :
  exists d,
    extract_colors {| colors := Some [("editor.background", JStr "#1e1e1e");
                                      ("editor.foreground", JStr "none")];
                      tokenColors := None; semanticTokenColors := None |} = Ok d
    /\ (In "editor.background" (dict_keys d))
    /\ ~ In "editor.foreground" (dict_keys d).
Proof.
  destruct (extract_colors_total
              {| colors := Some [("editor.background", JStr "#1e1e1e");
                                 ("editor.foreground", JStr "none")];
                 tokenColors := None; semanticTokenColors := None |})
    as (d & Ed & Hd).
  - cbn [colors]. intros key s r g b [E|[E|[]]] Hp; injection E as <- <-.
    + vm_compute in Hp. injection Hp as <- <- <-. unfold channel. lia.
    + vm_compute in Hp. discriminate.
  - exists d. split; [exact Ed|]. split.
    + apply Hd. exists "#1e1e1e". split; [left; reflexivity|discriminate].
    + intros H. apply Hd in H. destruct H as (s & [E|[E|[]]] & Hs).
      * discriminate.
      * injection E as <-. apply Hs. reflexivity.
Defined.

End ThemeExtraction.

(** ** Similar colours *)

Section SimilarColours.

Import PyQ.
Local Open Scope string_scope.
Local Open Scope R_scope.

Lemma insert_by_delta_e_perm (x : similar_entry) (l : list similar_entry) :
  Permutation (insert_by_delta_e x l) (x :: l).
Proof.
  induction l as [|y r IH]; cbn [insert_by_delta_e]; [reflexivity|].
  destruct (Rlt_dec _ _); [reflexivity|].
  rewrite IH. apply perm_swap.
Qed.

Lemma insert_by_delta_e_sorted (x : similar_entry) (l : list similar_entry) :
  StronglySorted (fun a b => sim_delta_e a <= sim_delta_e b) l ->
  StronglySorted (fun a b => sim_delta_e a <= sim_delta_e b) (insert_by_delta_e x l).
Proof.
  induction 1 as [|y r Hs IH Hall]; cbn [insert_by_delta_e].
  - constructor; constructor.
  - destruct (Rlt_dec (sim_delta_e x) (sim_delta_e y)) as [Hlt|Hge].
    + constructor; [constructor; assumption|].
      constructor; [lra|].
      eapply Forall_impl; [|exact Hall]. cbn. intros; lra.
    + constructor; [exact IH|].
      rewrite (insert_by_delta_e_perm x r). constructor; [lra|exact Hall].
Qed.

Lemma sort_by_delta_e_spec (l : list similar_entry) :
  StronglySorted (fun a b => sim_delta_e a <= sim_delta_e b) (sort_by_delta_e l)
  /\ Permutation (sort_by_delta_e l) l.
Proof.
  unfold sort_by_delta_e.
  assert (G : forall acc,
            StronglySorted (fun a b => sim_delta_e a <= sim_delta_e b) acc ->
            StronglySorted (fun a b => sim_delta_e a <= sim_delta_e b)
              (fold_left (fun acc x => insert_by_delta_e x acc) l acc)
            /\ Permutation (fold_left (fun acc x => insert_by_delta_e x acc) l acc)
                           (acc ++ l)).
  { induction l as [|x r IH]; intros acc Hs; cbn [fold_left].
    - rewrite app_nil_r. split; [exact Hs|reflexivity].
    - destruct (IH _ (insert_by_delta_e_sorted x acc Hs)) as [S P].
      split; [exact S|]. rewrite P, insert_by_delta_e_perm.
      apply Permutation_middle. }
  apply (G []). constructor.
Qed.

Lemma in_scan (loc : string) (target_lab : lab) (max_delta_e : R)
    (d : pydict color_info) (e : similar_entry) :
  In e (scan loc target_lab max_delta_e d)
  <-> exists key info,
        In (key, info) d
        /\ delta_e_76 target_lab (info_lab info) <= max_delta_e
        /\ e = {| location := loc; sim_key := key; sim_hex := hex info;
                  sim_delta_e := delta_e_76 target_lab (info_lab info) |}.
Proof.
  unfold scan. rewrite in_flat_map. split.
  - intros ([key info] & Hin & He). cbn [fst snd] in He.
    destruct (Rle_dec _ _) as [Hle|]; [|contradiction].
    destruct He as [<-|[]]. exists key, info. auto.
  - intros (key & info & Hin & Hle & ->). exists (key, info).
    split; [exact Hin|]. cbn [fst snd].
    destruct (Rle_dec _ _) as [_|N]; [left; reflexivity|contradiction].
Qed.

(** X21: An unparsable target gives the empty list, whatever the theme; any
    list returned is in ascending order of [delta_e] and holds only
    entries within the threshold. *)
Theorem similar_colors_sorted (th : theme) (target : string) (max_delta_e : R) :
  (hex_to_rgb target = None -> compute_similar_colors th target max_delta_e = Ok [])
  /\ forall res, compute_similar_colors th target max_delta_e = Ok res ->
       StronglySorted (fun a b => sim_delta_e a <= sim_delta_e b) res
       /\ Forall (fun e => sim_delta_e e <= max_delta_e) res.
Proof.
  unfold compute_similar_colors. split; [intros ->; reflexivity|].
  intros res. destruct (hex_to_rgb target) as [[[r g] b]|].
  - destruct (extract_colors th) as [ui|]; [|discriminate].
    destruct (extract_syntax_colors th) as [syn|]; [|discriminate].
    cbn [bind]. intros E. injection E as <-.
    destruct (sort_by_delta_e_spec
                (scan "ui" (rgb_to_lab r g b) max_delta_e ui
                 ++ scan "syntax" (rgb_to_lab r g b) max_delta_e syn)) as [S P].
    split; [exact S|].
    apply Forall_forall. intros e He.
    apply (Permutation_in _ P) in He. apply in_app_or in He.
    destruct He as [He|He]; apply in_scan in He;
      destruct He as (key & info & _ & Hle & ->); exact Hle.
  - intros E. injection E as <-. split; constructor.
Qed.

Lemma similar_colors_sorted_witness :
  exists res,
    compute_similar_colors sample_theme "#1e1e1e" 15 = Ok res
    /\ StronglySorted (fun a b => (sim_delta_e a <= sim_delta_e b)%R) res
    /\ Forall (fun e => (sim_delta_e e <= 15)%R) res.
Proof.
  destruct sample_theme_extracts as (ui & syn & Eu & Es & _).
  assert (E : compute_similar_colors sample_theme "#1e1e1e" 15
              = Ok (sort_by_delta_e
                      (scan "ui" (rgb_to_lab 30 30 30) 15 ui
                       ++ scan "syntax" (rgb_to_lab 30 30 30) 15 syn))).
  { unfold compute_similar_colors.
    change (hex_to_rgb "#1e1e1e") with (Some (30, 30, 30)%Z). cbv beta iota.
    rewrite Eu, Es. reflexivity. }
  eexists. split; [exact E|].
  exact (proj2 (similar_colors_sorted sample_theme "#1e1e1e" 15) _ E).
Defined.

(** X22: With a parsable target, the entries returned are exactly the UI
    colours and the syntax colours of the theme whose distance to the
    target is within the threshold, each with its location, key, hex
    string and distance, as often as they occur. *)
Theorem similar_colors_members (th : theme) (target : string) (max_delta_e : R)
    (r g b : Z) (res : list similar_entry) :
  hex_to_rgb target = Some (r, g, b) ->
  compute_similar_colors th target max_delta_e = Ok res ->
  exists ui syn,
    extract_colors th = Ok ui /\ extract_syntax_colors th = Ok syn
    /\ Permutation res
         (scan "ui" (rgb_to_lab r g b) max_delta_e ui
          ++ scan "syntax" (rgb_to_lab r g b) max_delta_e syn)
    /\ forall e, In e res <->
         exists loc key info,
           ((loc = "ui" /\ In (key, info) ui)
            \/ (loc = "syntax" /\ In (key, info) syn))
           /\ delta_e_76 (rgb_to_lab r g b) (info_lab info) <= max_delta_e
           /\ e = {| location := loc; sim_key := key; sim_hex := hex info;
                     sim_delta_e := delta_e_76 (rgb_to_lab r g b) (info_lab info) |}.
Proof.
  unfold compute_similar_colors. intros ->.
  destruct (extract_colors th) as [ui|]; [|discriminate].
  destruct (extract_syntax_colors th) as [syn|]; [|discriminate].
  cbn [bind]. intros E. injection E as <-. exists ui, syn.
  split; [reflexivity|]. split; [reflexivity|].
  destruct (sort_by_delta_e_spec
              (scan "ui" (rgb_to_lab r g b) max_delta_e ui
               ++ scan "syntax" (rgb_to_lab r g b) max_delta_e syn)) as [_ P].
  split; [exact P|]. intros e. split.
  - intros He. apply (Permutation_in _ P) in He. apply in_app_or in He.
    destruct He as [He|He]; apply in_scan in He;
      destruct He as (key & info & Hin & Hle & ->).
    + exists "ui", key, info. auto.
    + exists "syntax", key, info. auto.
  - intros (loc & key & info & Hloc & Hle & ->).
    apply (Permutation_in _ (Permutation_sym P)). apply in_or_app.
    destruct Hloc as [[-> Hin]|[-> Hin]]; [left|right];
      apply in_scan; exists key, info; auto.
Qed.

Lemma similar_colors_members_witness :
  exists res ui syn,
    compute_similar_colors sample_theme "#1e1e1e" 15 = Ok res
    /\ extract_colors sample_theme = Ok ui
    /\ extract_syntax_colors sample_theme = Ok syn
    /\ Permutation res
         (scan "ui" (rgb_to_lab 30 30 30) 15 ui
          ++ scan "syntax" (rgb_to_lab 30 30 30) 15 syn).
Proof.
  destruct sample_theme_extracts as (ui & syn & Eu & Es & _).
  assert (Hp : hex_to_rgb "#1e1e1e" = Some (30, 30, 30)%Z) by reflexivity.
  assert (E : compute_similar_colors sample_theme "#1e1e1e" 15
              = Ok (sort_by_delta_e
                      (scan "ui" (rgb_to_lab 30 30 30) 15 ui
                       ++ scan "syntax" (rgb_to_lab 30 30 30) 15 syn))).
  { unfold compute_similar_colors. rewrite Hp. cbv beta iota.
    rewrite Eu, Es. reflexivity. }
  destruct (similar_colors_members sample_theme "#1e1e1e" 15 30 30 30 _ Hp E)
    as (ui' & syn' & Eu' & Es' & P & _).
  eexists. exists ui', syn'. split; [exact E|]. split; [exact Eu'|].
  split; [exact Es'|exact P].
Defined.

End SimilarColours.

(** ** Further properties of the harmony analysis *)

Section HarmonyMore.

Import PyQ.
Local Open Scope string_scope.
Local Open Scope Z_scope.

(** Two increasing lists with the same members are the same list. *)
Lemma sorted_unique (l1 l2 : list Z) :
  StronglySorted Z.lt l1 -> StronglySorted Z.lt l2 ->
  (forall z, In z l1 <-> In z l2) -> l1 = l2.
Proof.
  intros S1. revert l2. induction S1 as [|x r1 S1 IH F1]; intros l2 S2 H.
  - destruct l2 as [|y r2]; [reflexivity|].
    destruct (proj2 (H y) (or_introl eq_refl)).
  - destruct S2 as [|y r2 S2 F2].
    + destruct (proj1 (H x) (or_introl eq_refl)).
    + rewrite Forall_forall in F1, F2.
      assert (E : x = y).
      { destruct (proj1 (H x) (or_introl eq_refl)) as [E|Hx]; [congruence|].
        destruct (proj2 (H y) (or_introl eq_refl)) as [E|Hy]; [exact E|].
        specialize (F1 _ Hy). specialize (F2 _ Hx). lia. }
      subst y. f_equal. apply IH; [exact S2|].
      intros z. split; intros Hz.
      * destruct (proj1 (H z) (or_intror Hz)) as [E|Hz']; [|exact Hz'].
        specialize (F1 _ Hz). lia.
      * destruct (proj2 (H z) (or_intror Hz)) as [E|Hz']; [|exact Hz'].
        specialize (F2 _ Hz). lia.
Qed.

(** X23: The result depends only on the set of rounded hues: order, repeats
    and [None] entries of the input make no difference. *)
Theorem analyze_harmony_set (hues1 hues2 : list (option Q)) :
  (forall z, In z (rounded hues1) <-> In z (rounded hues2)) ->
  analyze_harmony hues1 = analyze_harmony hues2.
Proof.
  intros H. unfold analyze_harmony.
  destruct (sorted_set_spec (rounded hues1)) as [S1 M1].
  destruct (sorted_set_spec (rounded hues2)) as [S2 M2].
  rewrite (sorted_unique _ _ S1 S2); [reflexivity|].
  intros z. rewrite M1, M2. apply H.
Qed.

Lemma analyze_harmony_set_witness :
  analyze_harmony [Some 200%Q; None; Some 10%Q; Some (101 # 10)%Q; Some 200%Q]
  = analyze_harmony [Some 10%Q; Some 200%Q].
Proof.
  apply (analyze_harmony_set
           [Some 200%Q; None; Some 10%Q; Some (101 # 10)%Q; Some 200%Q]
           [Some 10%Q; Some 200%Q]).
  intros z. vm_compute. tauto.
Defined.

Lemma band_ranges (d : Z) (kind : string) :
  band d = Some kind ->
  (kind = "complementary" /\ 165 <= d <= 195)
  \/ (kind = "analogous" /\ 25 <= d <= 45)
  \/ (kind = "triadic-ish" /\ 115 <= d <= 135)
  \/ (kind = "split-complementary element" /\ 55 <= d <= 75)
  \/ (kind = "square/tetradic element" /\ 85 <= d <= 95).
Proof.
  unfold band.
  repeat match goal with
         | |- context [(?a <=? ?b) && (?c <=? ?e)] =>
             destruct (Z.leb_spec a b); destruct (Z.leb_spec c e);
             cbn [andb]
         end;
    intros E; try discriminate; injection E as <-; intuition lia.
Qed.

(** X24: Every reported relationship has [h1 < h2] and a distance within the
    band of its kind and at most 180: of the complementary band only
    165 to 180 can occur, and nothing below 25 is reported. *)
Theorem analyze_harmony_relationships (hues : list (option Q))
    (rels : list relationship) (kind : string) (h1 h2 d : Z) :
  dict_get (analyze_harmony hues) "relationships" = Some (HRelationships rels) ->
  In (kind, h1, h2, d) rels ->
  h1 < h2 /\ d = hue_diff h1 h2 /\ band d = Some kind
  /\ ((kind = "complementary" /\ 165 <= d <= 180)
      \/ (kind = "analogous" /\ 25 <= d <= 45)
      \/ (kind = "triadic-ish" /\ 115 <= d <= 135)
      \/ (kind = "split-complementary element" /\ 55 <= d <= 75)
      \/ (kind = "square/tetradic element" /\ 85 <= d <= 95)).
Proof.
  unfold analyze_harmony.
  destruct (sorted_set_spec (rounded hues)) as [S _].
  destruct (List.length (sorted_set (rounded hues)) <? 2)%nat; [discriminate|].
  cbn [dict_get String.eqb Ascii.eqb Bool.eqb]. intros E. injection E as <-.
  intros Hin. apply (in_pair_loop _ _ _ _ _ S) in Hin.
  destruct Hin as (_ & _ & Hlt & Hd & Hb).
  split; [exact Hlt|]. split; [exact Hd|]. split; [exact Hb|].
  pose proof (hue_diff_le_180 h1 h2) as L. rewrite <- Hd in L.
  destruct (band_ranges d kind Hb) as [[-> ?]|[?|[?|[?|?]]]]; auto.
  left. split; [reflexivity|lia].
Qed.

Lemma analyze_harmony_relationships_witness :
  exists rels,
    dict_get (analyze_harmony [Some 10%Q; Some 190%Q]) "relationships"
    = Some (HRelationships rels)
    /\ In ("complementary", 10, 190, 180) rels
    /\ 10 < 190.
Proof.
  exists [("complementary", 10, 190, 180)].
  assert (H1 : dict_get (analyze_harmony [Some 10%Q; Some 190%Q]) "relationships"
               = Some (HRelationships [("complementary", 10, 190, 180)]))
    by reflexivity.
  assert (H2 : In ("complementary", 10, 190, 180) [("complementary", 10, 190, 180)])
    by (left; reflexivity).
  split; [exact H1|]. split; [exact H2|].
  exact (proj1 (analyze_harmony_relationships _ _ _ _ _ _ H1 H2)).
Defined.

Lemma fold_max_min (r : list Z) (h : Z) :
  let hi := fold_left Z.max r h in
  let lo := fold_left Z.min r h in
  In hi (h :: r) /\ In lo (h :: r)
  /\ forall z, In z (h :: r) -> lo <= z <= hi.
Proof.
  revert h. induction r as [|x r IH]; intros h; cbn [fold_left].
  - cbn. split; [auto|]. split; [auto|]. intros z [<-|[]]. lia.
  - destruct (IH (Z.max h x)) as (I1 & _ & B1).
    destruct (IH (Z.min h x)) as (_ & I2 & B2).
    cbv zeta in *.
    split; [|split].
    + destruct I1 as [E|I1]; [|right; right; exact I1].
      rewrite <- E. destruct (Z.max_spec h x) as [[_ ->]|[_ ->]];
        [right; left; reflexivity|left; reflexivity].
    + destruct I2 as [E|I2]; [|right; right; exact I2].
      rewrite <- E. destruct (Z.min_spec h x) as [[_ ->]|[_ ->]];
        [left; reflexivity|right; left; reflexivity].
    + intros z Hz.
      assert (Hz1 : z <= fold_left Z.max r (Z.max h x)).
      { destruct Hz as [<-|[<-|Hz]].
        - pose proof (B1 (Z.max h x) (or_introl eq_refl)). lia.
        - pose proof (B1 (Z.max h x) (or_introl eq_refl)). lia.
        - apply (B1 z). right. exact Hz. }
      assert (Hz2 : fold_left Z.min r (Z.min h x) <= z).
      { destruct Hz as [<-|[<-|Hz]].
        - pose proof (B2 (Z.min h x) (or_introl eq_refl)). lia.
        - pose proof (B2 (Z.min h x) (or_introl eq_refl)). lia.
        - apply (B2 z). right. exact Hz. }
      lia.
Qed.

(** X25: When ["hue_range"] is reported it is the difference between the
    largest and the smallest rounded hue, and it is positive; the count
    of distinct hues reported with it is at least 2. *)
Theorem analyze_harmony_range (hues : list (option Q)) (v : Z) :
  dict_get (analyze_harmony hues) "hue_range" = Some (HInt v) ->
  0 < v
  /\ (exists lo hi,
        In lo (rounded hues) /\ In hi (rounded hues) /\ v = hi - lo
        /\ forall z, In z (rounded hues) -> lo <= z <= hi)
  /\ exists n, dict_get (analyze_harmony hues) "distinct_hues" = Some (HInt n)
               /\ 2 <= n
               /\ dict_get (analyze_harmony hues) "type" = None.
Proof.
  unfold analyze_harmony.
  destruct (sorted_set_spec (rounded hues)) as [S M].
  destruct (List.length (sorted_set (rounded hues)) <? 2)%nat eqn:EL; [discriminate|].
  apply Nat.ltb_ge in EL.
  cbn [dict_get String.eqb Ascii.eqb Bool.eqb]. intros E. injection E as <-.
  destruct (sorted_set (rounded hues)) as [|a [|b r]] eqn:Eh;
    [cbn in EL; lia|cbn in EL; lia|].
  unfold hue_range.
  destruct (fold_max_min (b :: r) a) as (I1 & I2 & B). cbv zeta in *.
  split; [|split].
  - inversion S as [|? ? S' F]; subst. rewrite Forall_forall in F.
    pose proof (F b (or_introl eq_refl)).
    pose proof (B a (or_introl eq_refl)).
    pose proof (B b (or_intror (or_introl eq_refl))). lia.
  - exists (fold_left Z.min (b :: r) a), (fold_left Z.max (b :: r) a).
    split; [apply M; exact I2|]. split; [apply M; exact I1|].
    split; [reflexivity|]. intros z Hz. apply B. apply M. exact Hz.
  - eexists. split; [reflexivity|]. split; [|reflexivity].
    cbn [List.length]. lia.
Qed.

Lemma analyze_harmony_range_witness :
  dict_get (analyze_harmony [Some 350%Q; Some 10%Q]) "hue_range" = Some (HInt 340)
  /\ 0 < 340.
Proof.
  assert (H : dict_get (analyze_harmony [Some 350%Q; Some 10%Q]) "hue_range"
              = Some (HInt 340)) by reflexivity.
  split; [exact H|].
  exact (proj1 (analyze_harmony_range _ _ H)).
Defined.

End HarmonyMore.


(** ** Temperature and emotion *)

Section EmotionMore.

Import PyQ.
Local Open Scope string_scope.
Local Open Scope Q_scope.

Lemma classify_emotion_temperature_get (h s l : Q) :
  dict_get (classify_emotion h s l) "temperature" = Some (color_temperature h s).
Proof.
  unfold classify_emotion.
  destruct (Qle_bool 5 s);
    [destruct (find (hue_matches h) EMOTIONAL_MAP) as [[[? ?] [[? ?] ?]]|]|];
    destruct (find (band_matches l) LIGHTNESS_RESPONSE) as [[? [[? ?] ?]]|];
    destruct (find (band_matches s) SATURATION_RESPONSE) as [[? [[? ?] ?]]|];
    reflexivity.
Qed.

(** X26: ["temperature"] is always present and is one of four words; it is
    ["neutral"] exactly when the saturation is below 5, which for a hue
    in [[0, 360)] is exactly when the hue entries are missing; a cool
    colour is calm or deep, a warm one is never. *)
Theorem classify_emotion_temperature (h s l : Q) :
  let d := classify_emotion h s l in
  dict_get d "temperature" = Some (color_temperature h s)
  /\ In (color_temperature h s) ["neutral"; "warm"; "cool"; "transitional"]
  /\ (color_temperature h s = "neutral" <-> s < 5)
  /\ (0 <= h -> h < 360 ->
      (dict_get d "hue_emotion" = None <-> color_temperature h s = "neutral")
      /\ (color_temperature h s = "cool" ->
          dict_get d "hue_emotion" = Some "calm, trust, stability"
          \/ dict_get d "hue_emotion" = Some "depth, introspection, focus")
      /\ (color_temperature h s = "warm" ->
          dict_get d "hue_emotion" = Some "energy, urgency, passion"
          \/ dict_get d "hue_emotion" = Some "warmth, comfort, optimism"
          \/ dict_get d "hue_emotion" = Some "creativity, luxury, mystery")).
Proof.
  cbv zeta. split; [apply classify_emotion_temperature_get|].
  destruct (classify_emotion_get h s l) as (G & _). cbv zeta in G. rewrite G.
  clear G. unfold color_temperature.
  assert (E5 : Qle_bool 5 s = negb (Qltb s 5)).
  { unfold Qltb. rewrite negb_involutive. reflexivity. }
  rewrite E5.
  destruct (Qltb s 5) eqn:Es; cbn [negb].
  - apply Qltb_lt in Es. split; [cbn; auto|]. split; [tauto|].
    intros _ _. cbn [option_map]. split; [tauto|]. split; discriminate.
  - apply Qltb_ge in Es.
    assert (Nn : forall x : string,
              In x ["warm"; "cool"; "transitional"] ->
              In x ["neutral"; "warm"; "cool"; "transitional"]
              /\ (x = "neutral" <-> s < 5)).
    { intros x Hx. split; [right; exact Hx|]. split.
      - intros ->. cbn in Hx. intuition discriminate.
      - intros C. lra. }
    split; [|split].
    + destruct (_ || _); [cbn; auto|]. destruct (_ && _); cbn; auto.
    + destruct (_ || _); [apply Nn; cbn; auto|].
      destruct (_ && _); apply Nn; cbn; auto.
    + intros H0 H360.
      destruct (find (hue_matches h) EMOTIONAL_MAP) as [e|] eqn:E.
      * apply find_some in E. destruct E as [Hin Hm].
        unfold EMOTIONAL_MAP in Hin. cbn [In] in Hin.
        repeat (destruct Hin as [<-|Hin];
                [apply in_band_iff in Hm; destruct Hm as [Hlo Hhi];
                 cbn [option_map fst snd];
                 destruct (Qle_bool 0 h) eqn:C1; destruct (Qltb h 60) eqn:C2;
                 destruct (Qle_bool 300 h) eqn:C3; destruct (Qle_bool h 360) eqn:C4;
                 destruct (Qle_bool 150 h) eqn:C5; destruct (Qltb h 270) eqn:C6;
                 cbn [andb orb];
                 first [ solve [split; [split; discriminate
                                       |split; intros X; try discriminate X; auto 6]]
                       | exfalso; reflect_cmp; lra ]
                |]).
        destruct Hin.
      * destruct (hue_covered h H0 H360) as (e & Hin & Hm).
        rewrite (find_none _ _ E e Hin) in Hm. discriminate Hm.
Qed.

Lemma classify_emotion_temperature_witness :
  (0 <= 200)%Q /\ (200 < 360)%Q
  /\ dict_get (classify_emotion 200 50 40) "temperature" = Some "cool"
  /\ (dict_get (classify_emotion 200 50 40) "hue_emotion" = None
      <-> color_temperature 200 50 = "neutral").
Proof.
  assert (H0 : (0 <= 200)%Q) by lra.
  assert (H1 : (200 < 360)%Q) by lra.
  split; [exact H0|]. split; [exact H1|].
  destruct (classify_emotion_temperature 200 50 40) as (T & _ & _ & H).
  split; [exact T|]. exact (proj1 (H H0 H1)).
Defined.

End EmotionMore.

(** ** Further properties of the replacement impact *)

Section ReplacementMore.

Import PyQ.
Local Open Scope string_scope.
Local Open Scope R_scope.

Lemma delta_e_76_same (x : lab) : delta_e_76 x x = 0.
Proof.
  destruct x as [[l a] b]. unfold delta_e_76.
  replace (0 + (l - l) ^ 2 + (a - a) ^ 2 + (b - b) ^ 2) with 0 by ring.
  apply sqrt_0.
Qed.

Lemma delta_e_76_nonneg (x y : lab) : 0 <= delta_e_76 x y.
Proof.
  destruct x as [[l1 a1] b1], y as [[l2 a2] b2]. unfold delta_e_76.
  apply sqrt_pos.
Qed.

Lemma contrast_ratio_ok (a b : rgb) :
  rgb_valid a -> rgb_valid b -> exists v, contrast_ratio a b = Ok v.
Proof.
  destruct a as [[r1 g1] b1], b as [[r2 g2] b2].
  intros (Hr1 & Hg1 & Hb1) (Hr2 & Hg2 & Hb2). unfold contrast_ratio.
  destruct (contrast_of_luminances
              (relative_luminance r1 g1 b1) (relative_luminance r2 g2 b2))
    as [E _]; [apply relative_luminance_nonneg; unfold channel in *; lia ..|].
  eexists. exact E.
Qed.

Lemma sample_theme_impact (old_color new_color : string) :
  hex_color old_color = true -> hex_color new_color = true ->
  exists d, compute_replacement_impact sample_theme old_color new_color = Ok d.
Proof.
  intros Ho Hn.
  destruct (hex_color_parses _ Ho) as (r1 & g1 & b1 & P1 & Cr1 & Cg1 & Cb1).
  destruct (hex_color_parses _ Hn) as (r2 & g2 & b2 & P2 & Cr2 & Cg2 & Cb2).
  destruct (rgb_to_hsl_total r1 g1 b1 Cr1 Cg1 Cb1) as [c1 E1].
  destruct (rgb_to_hsl_total r2 g2 b2 Cr2 Cg2 Cb2) as [c2 E2].
  destruct sample_theme_extracts as (ui & syn & Eu & Es & _).
  assert (Vb : rgb_valid (30, 30, 30)%Z) by (unfold rgb_valid, channel; lia).
  destruct (contrast_ratio_ok (r1, g1, b1) (30, 30, 30)%Z (conj Cr1 (conj Cg1 Cb1)) Vb)
    as [v1 V1].
  destruct (contrast_ratio_ok (r2, g2, b2) (30, 30, 30)%Z (conj Cr2 (conj Cg2 Cb2)) Vb)
    as [v2 V2].
  unfold compute_replacement_impact. rewrite P1, P2, E1, E2, Eu, Es.
  cbn [bind].
  change (hex_to_rgb_val _) with (Some (30, 30, 30)%Z).
  cbv beta iota. rewrite V1, V2. cbn [bind]. eexists. reflexivity.
Qed.

(** X27: Replacing a colour by itself: the distance is 0, every contrast
    change is 0, and the recommendations are the "barely perceptible"
    line, followed at most by the visibility warning; no WCAG or
    temperature line appears. *)
Theorem replacement_impact_same_color (th : theme) (c : string)
    (d : pydict impact_value) :
  compute_replacement_impact th c c = Ok d ->
  hex_to_rgb c <> None ->
  dict_get d "delta_e" = Some (IFloat 0)
  /\ (exists cc, dict_get d "contrast_changes" = Some (IContrast cc)
                 /\ Forall (fun x => change x = 0
                                     /\ old_contrast x = new_contrast x) cc)
  /\ exists recs,
       dict_get d "recommendations" = Some (IRecommendations recs)
       /\ (recs = ["✓ Change is barely perceptible - safe replacement"]
           \/ recs = ["✓ Change is barely perceptible - safe replacement";
                      "⚠ New color may have visibility issues"]).
Proof.
  unfold compute_replacement_impact.
  destruct (hex_to_rgb c) as [[[r g] b]|]; [|intros _ N; contradiction N; reflexivity].
  destruct (rgb_to_hsl r g b) as [hsl|]; [|discriminate]. cbn [bind].
  destruct (extract_colors th) as [ui|]; [|discriminate]. cbn [bind].
  destruct (extract_syntax_colors th) as [syn|]; [|discriminate]. cbn [bind].
  rewrite delta_e_76_same.
  destruct (Rlt_dec 0 2.3) as [_|N]; [|exfalso; apply N; lra].
  rewrite String.eqb_refl. cbn [negb].
  destruct (hex_to_rgb_val _) as [bg|].
  - destruct (contrast_ratio (r, g, b) bg) as [v|]; [|discriminate]. cbn [bind].
    intros E _. injection E as <-.
    cbn [dict_get String.eqb Ascii.eqb Bool.eqb].
    split; [reflexivity|]. split.
    + eexists. split; [reflexivity|].
      constructor; [|constructor]. cbn [change old_contrast new_contrast].
      split; [ring|reflexivity].
    + eexists. split; [reflexivity|].
      destruct (Rlt_dec v 4.5) as [L|L]; [destruct (Rge_dec v 4.5) as [G|G]|].
      * exfalso. lra.
      * destruct (Rlt_dec v 3.0); [right|left]; reflexivity.
      * destruct (Rlt_dec v 3.0) as [L3|L3]; [exfalso; lra|left; reflexivity].
  - cbn [bind]. intros E _. injection E as <-.
    cbn [dict_get String.eqb Ascii.eqb Bool.eqb].
    split; [reflexivity|]. split.
    + eexists. split; [reflexivity|constructor].
    + eexists. split; [reflexivity|left; reflexivity].
Qed.

Lemma replacement_impact_same_color_witness :
  exists d,
    compute_replacement_impact sample_theme "#1e1e1e" "#1e1e1e" = Ok d
    /\ dict_get d "delta_e" = Some (IFloat 0).
Proof.
  destruct (sample_theme_impact "#1e1e1e" "#1e1e1e" eq_refl eq_refl) as [d E].
  exists d. split; [exact E|].
  assert (N : hex_to_rgb "#1e1e1e" <> None) by discriminate.
  exact (proj1 (replacement_impact_same_color sample_theme "#1e1e1e" d E N)).
Defined.

(** X28: A result without ["error"] has the five keys in a fixed order; its
    first recommendation is the severity line chosen by the stored
    [delta_e], which is not negative, and at most three more lines
    follow. *)
Theorem replacement_impact_recommendations (th : theme) (old_color new_color : string)
    (d : pydict impact_value) :
  compute_replacement_impact th old_color new_color = Ok d ->
  hex_to_rgb old_color <> None -> hex_to_rgb new_color <> None ->
  dict_keys d = ["affected_ui"; "affected_syntax"; "contrast_changes";
                 "recommendations"; "delta_e"]
  /\ exists x recs,
       dict_get d "delta_e" = Some (IFloat x) /\ 0 <= x
       /\ dict_get d "recommendations" = Some (IRecommendations recs)
       /\ (1 <= List.length recs <= 4)%nat
       /\ hd "" recs
          = if Rlt_dec x 2.3
            then "✓ Change is barely perceptible - safe replacement"
            else if Rlt_dec x 10
            then "⚠ Moderate change - review affected elements"
            else "⚠⚠ Significant change - thorough review recommended".
Proof.
  unfold compute_replacement_impact.
  destruct (hex_to_rgb old_color) as [[[r1 g1] b1]|];
    [|intros _ N; contradiction N; reflexivity].
  destruct (hex_to_rgb new_color) as [[[r2 g2] b2]|];
    [|intros _ _ N; contradiction N; reflexivity].
  destruct (rgb_to_hsl r1 g1 b1) as [hsl1|]; [|discriminate]. cbn [bind].
  destruct (rgb_to_hsl r2 g2 b2) as [hsl2|]; [|discriminate]. cbn [bind].
  destruct (extract_colors th) as [ui|]; [|discriminate]. cbn [bind].
  destruct (extract_syntax_colors th) as [syn|]; [|discriminate]. cbn [bind].
  pose proof (delta_e_76_nonneg (rgb_to_lab r1 g1 b1) (rgb_to_lab r2 g2 b2)) as Hde.
  set (de := delta_e_76 _ _) in *.
  set (first :=
         if Rlt_dec de 2.3
         then "✓ Change is barely perceptible - safe replacement"
         else if Rlt_dec de 10
         then "⚠ Moderate change - review affected elements"
         else "⚠⚠ Significant change - thorough review recommended").
  assert (Ef : (if Rlt_dec de 2.3
                then ["✓ Change is barely perceptible - safe replacement"]
                else if Rlt_dec de 10
                then ["⚠ Moderate change - review affected elements"]
                else ["⚠⚠ Significant change - thorough review recommended"])
               = [first]).
  { unfold first. destruct (Rlt_dec de 2.3); [reflexivity|].
    destruct (Rlt_dec de 10); reflexivity. }
  rewrite Ef.
  destruct (hex_to_rgb_val _) as [bg|].
  - destruct (contrast_ratio (r1, g1, b1) bg) as [v1|]; [|discriminate]. cbn [bind].
    destruct (contrast_ratio (r2, g2, b2) bg) as [v2|]; [|discriminate]. cbn [bind].
    intros E _ _. injection E as <-.
    cbn [dict_keys map fst dict_get String.eqb Ascii.eqb Bool.eqb].
    split; [reflexivity|]. exists de. eexists.
    split; [reflexivity|]. split; [exact Hde|]. split; [reflexivity|].
    destruct (Rlt_dec v1 4.5); [destruct (Rge_dec v2 4.5)|destruct (Rlt_dec v2 4.5)];
      destruct (Rlt_dec v2 3.0); destruct (negb _);
      cbn [app List.length hd]; (split; [lia|reflexivity]).
  - cbn [bind]. intros E _ _. injection E as <-.
    cbn [dict_keys map fst dict_get String.eqb Ascii.eqb Bool.eqb].
    split; [reflexivity|]. exists de. eexists.
    split; [reflexivity|]. split; [exact Hde|]. split; [reflexivity|].
    destruct (negb _); cbn [app List.length hd]; (split; [lia|reflexivity]).
Qed.

Lemma replacement_impact_recommendations_witness :
  exists d,
    compute_replacement_impact sample_theme "#1e1e1e" "#252526" = Ok d
    /\ dict_keys d = ["affected_ui"; "affected_syntax"; "contrast_changes";
                      "recommendations"; "delta_e"].
Proof.
  destruct (sample_theme_impact "#1e1e1e" "#252526" eq_refl eq_refl) as [d E].
  exists d. split; [exact E|].
  assert (N1 : hex_to_rgb "#1e1e1e" <> None) by discriminate.
  assert (N2 : hex_to_rgb "#252526" <> None) by discriminate.
  exact (proj1 (replacement_impact_recommendations
                  sample_theme "#1e1e1e" "#252526" d E N1 N2)).
Defined.

End ReplacementMore.
